(** * yjemail: mailbox synchronisation engine, verified against its specification

    A shallow embedding of the Python sources

      - [backend/utils/crypto.py]              (module [Crypto])
      - [backend/utils/email/graph_api.py]     (module [GraphApi])
      - [backend/utils/email/graph_webhook.py] (module [Webhook])
      - [backend/app.py]                       (module [App])

    Python [str] values are sequences of Unicode code points; the tables of
    the interpreter (white space, decimal digits, case mapping) are a
    parameter of the development, see [Python] below.  Network peers (the
    token endpoint, Microsoft Graph) are oracles of the environment, and the
    effects of a run are recorded in an explicit trace. *)

From Stdlib Require Import ZArith Lia Ascii String.
From stdpp Require Import base list gmap.

#[local] Open Scope Z_scope.

(** ** Python strings *)

Module Py.

(** A code point. *)
Definition char : Type := Z.

(** A Python [str]. *)
Definition str : Type := list char.

(** An ASCII literal of the source, as a [str]. *)
Definition lit (s : string) : str :=
  map (fun a => Z.of_N (N_of_ascii a)) (list_ascii_of_string s).

Definition char_eqb (a b : char) : bool := a =? b.

Fixpoint str_eqb (a b : str) : bool :=
  match a, b with
  | [], [] => true
  | x :: a', y :: b' => char_eqb x y && str_eqb a' b'
  | _, _ => false
  end.

(** [s.startswith(p)] *)
Fixpoint startswith (p s : str) : bool :=
  match p, s with
  | [], _ => true
  | _ :: _, [] => false
  | x :: p', y :: s' => char_eqb x y && startswith p' s'
  end.

(** [needle in hay] *)
Fixpoint contains (needle hay : str) : bool :=
  startswith needle hay ||
  match hay with
  | [] => false
  | _ :: hay' => contains needle hay'
  end.

(** [s.replace(old, new)] for a non-empty [old]: every occurrence, found
    from the left and not overlapping, is replaced.  [skip] counts the
    characters of an occurrence that are still to be passed over. *)
Fixpoint replace_from (old new : str) (skip : nat) (s : str) : str :=
  match s with
  | [] => []
  | c :: s' =>
      match skip with
      | S k => replace_from old new k s'
      | O =>
          if startswith old s
          then new ++ replace_from old new (Nat.pred (length old)) s'
          else c :: replace_from old new O s'
      end
  end.

Definition replace (old new s : str) : str := replace_from old new O s.

(** [s.split(sep)] for a non-empty [sep]; [cur] is the field being read,
    in reverse. *)
Fixpoint split_from (sep : str) (skip : nat) (cur : str) (s : str) : list str :=
  match s with
  | [] => [rev cur]
  | c :: s' =>
      match skip with
      | S k => split_from sep k cur s'
      | O =>
          if startswith sep s
          then rev cur :: split_from sep (Nat.pred (length sep)) [] s'
          else split_from sep O (c :: cur) s'
      end
  end.

Definition split (sep s : str) : list str := split_from sep O [] s.

Fixpoint lstrip_by (sp : char -> bool) (s : str) : str :=
  match s with
  | [] => []
  | c :: s' => if sp c then lstrip_by sp s' else s
  end.

Definition strip_by (sp : char -> bool) (s : str) : str :=
  rev (lstrip_by sp (rev (lstrip_by sp s))).

(** Truth value of a [str]: [if s:] *)
Definition truthy (s : str) : bool :=
  match s with [] => false | _ => true end.

(** Truth value of a value that may be [None]. *)
Definition truthy_opt (o : option str) : bool :=
  match o with Some s => truthy s | None => false end.

End Py.

Import Py.

(** ** The interpreter's tables

    What CPython looks up in its Unicode database or takes from its
    configuration.  The laws are facts of every CPython 3 build. *)

(** A [datetime]: its fields, counted in seconds from [datetime.min], and
    the offset of its [tzinfo] from UTC in seconds, [None] for a naive
    one. *)
Record datetime : Type := {
  dt_wall : Z;
  dt_utcoffset : option Z;
}.

Definition naive (t : Z) : datetime := {| dt_wall := t; dt_utcoffset := None |}.

Record Python : Type := {
  (** [Py_UNICODE_ISSPACE]: [str.isspace], [str.strip], [\s] *)
  u_isspace : char -> bool;
  (** [Py_UNICODE_TODECIMAL]: the value of a decimal digit, [\d], [int] *)
  u_decimal : char -> option Z;
  (** [Py_UNICODE_ISDIGIT]: [str.isdigit] *)
  u_isdigit : char -> bool;
  (** [Py_UNICODE_ISALNUM] or an underscore: [\w], hence [\b] *)
  u_isword : char -> bool;
  (** [str.lower] *)
  u_lower : str -> str;
  (** a literal of a pattern compiled with [re.IGNORECASE] against a
      character of the text *)
  u_ci_eq : char -> char -> bool;
  (** [sys.get_int_max_str_digits()]; [None] where there is no limit *)
  int_max_str_digits : option nat;
  (** [datetime.fromisoformat]: the text may end in a UTC offset, and the
      [datetime] is then an aware one; [None] is the [ValueError] *)
  dt_fromisoformat : str -> option datetime;
  (** [datetime.strptime(_, "%Y-%m-%d %H:%M:%S")], always naive: the
      seconds its fields count *)
  dt_strptime : str -> option Z;
  (** [strftime("%Y-%m-%d %H:%M:%S")] and [strftime("%Y-%m-%dT%H:%M:%SZ")],
      which write the fields of a [datetime] and not its offset *)
  dt_strftime_sql : Z -> str;
  dt_strftime_iso : Z -> str;
  (** the longest [time.sleep] takes, in seconds: beyond it the call
      raises [OverflowError], and below zero [ValueError] *)
  time_sleep_max : Z;

  u_decimal_ascii : forall c, 48 <= c <= 57 -> u_decimal c = Some (c - 48);
  u_decimal_isdigit : forall c d, u_decimal c = Some d -> u_isdigit c = true;
  (** [time.sleep(2)] returns *)
  time_sleep_two : 2 <= time_sleep_max;
}.

(** ** Built-ins that consult the tables *)

Module PyLib.
Section WithPython.
Context (P : Python).

(** [s.strip()] *)
Definition strip (s : str) : str := strip_by (u_isspace P) s.

(** [s.isdigit()]: not empty and every character a digit. *)
Definition isdigit (s : str) : bool :=
  truthy s && forallb (u_isdigit P) s.

(** [a.lower() in b.lower()] *)
Definition contains_ci (a b : str) : bool :=
  contains (u_lower P a) (u_lower P b).

(** *** [int(s)]

    [PyLong_FromUnicodeObject]: characters below 127 are kept, other white
    space becomes a blank and other decimal digits become ASCII digits;
    then [PyLong_FromString] skips white space, reads a sign, and takes the
    longest run of digits and underscores, which may not start or end with
    an underscore nor hold two in a row; only white space may follow. *)

Definition int_space (c : char) : bool :=
  if c <? 127 then (9 <=? c) && (c <=? 13) || (c =? 32) else u_isspace P c.

Definition int_digit (c : char) : option Z :=
  if c <? 127
  then (if (48 <=? c) && (c <=? 57) then Some (c - 48) else None)
  else u_decimal P c.

Definition underscore : char := 95.

Definition int_token_char (c : char) : bool :=
  match int_digit c with Some _ => true | None => c =? underscore end.

(** The longest prefix of digits and underscores, and what follows it. *)
Fixpoint int_span (s : str) : str * str :=
  match s with
  | [] => ([], [])
  | c :: s' =>
      if int_token_char c
      then let (tok, rest) := int_span s' in (c :: tok, rest)
      else ([], s)
  end.

(** Reads the token; [prev_us] tells that the previous character was an
    underscore (or that there was none), [acc] is the value so far and [n]
    the number of digits.  [None] is the [ValueError]. *)
Fixpoint int_digits (tok : str) (prev_us : bool) (acc : Z) (n : nat)
  : option (Z * nat) :=
  match tok with
  | [] => if prev_us then None else Some (acc, n)
  | c :: tok' =>
      match int_digit c with
      | Some d => int_digits tok' false (10 * acc + d) (S n)
      | None => if prev_us then None else int_digits tok' true acc n
      end
  end.

Definition within_max_digits (n : nat) : bool :=
  match int_max_str_digits P with
  | Some m => (n <=? m)%nat
  | None => true
  end.

Definition int_signed (s : str) : bool * str :=
  match s with
  | c :: s' => if c =? 45 then (true, s') else if c =? 43 then (false, s') else (false, s)
  | [] => (false, s)
  end.

Definition py_int (s : str) : option Z :=
  let (neg, body) := int_signed (lstrip_by int_space s) in
  let (tok, rest) := int_span body in
  match int_digits tok true 0 O with
  | Some (v, n) =>
      if truthy (lstrip_by int_space rest) then None
      else if within_max_digits n then Some (if neg then - v else v)
      else None
  | None => None
  end.

End WithPython.
End PyLib.

(** ** A table for ASCII text

    Agrees with CPython on code points below 128 and knows no other white
    space, digit or cased letter.  Of the texts of a [datetime] it reads
    and writes [YYYY-MM-DD HH:MM:SS] with two digits for each field but
    the year, a day that the month has, and a [T] or a blank in the
    middle for ISO 8601, where it also reads a UTC offset [+HH:MM] or
    [-HH:MM] at the end.  What CPython reads besides (a date alone, a
    fraction of a second, a field of one digit for [strptime]) is no
    input of the runs of this file, which are on ASCII text of these
    forms; every theorem that is not such a run holds for every table. *)

Module AsciiTable.

Definition isspace (c : char) : bool :=
  (9 <=? c) && (c <=? 13) || (28 <=? c) && (c <=? 32).

Definition decimal (c : char) : option Z :=
  if (48 <=? c) && (c <=? 57) then Some (c - 48) else None.

Definition isdigit (c : char) : bool :=
  (48 <=? c) && (c <=? 57).

Definition isupper (c : char) : bool := (65 <=? c) && (c <=? 90).
Definition islower (c : char) : bool := (97 <=? c) && (c <=? 122).

Definition isword (c : char) : bool :=
  isdigit c || isupper c || islower c || (c =? 95).

Definition lower1 (c : char) : char := if isupper c then c + 32 else c.

Definition lower (s : str) : str := map lower1 s.

Definition ci_eq (p c : char) : bool := lower1 p =? lower1 c.

(** Dates of the proleptic Gregorian calendar; a [datetime] is counted in
    seconds from 0001-01-01 00:00:00. *)
Definition days_from_civil (y m d : Z) : Z :=
  let y' := if m <=? 2 then y - 1 else y in
  let era := y' / 400 in
  let yoe := y' - era * 400 in
  let doy := (153 * (if 2 <? m then m - 3 else m + 9) + 2) / 5 + d - 1 in
  let doe := yoe * 365 + yoe / 4 - yoe / 100 + doy in
  era * 146097 + doe - 306.

Definition civil_from_days (days : Z) : Z * Z * Z :=
  let z := days + 306 in
  let era := z / 146097 in
  let doe := z - era * 146097 in
  let yoe := (doe - doe / 1460 + doe / 36524 - doe / 146096) / 365 in
  let doy := doe - (365 * yoe + yoe / 4 - yoe / 100) in
  let mp := (5 * doy + 2) / 153 in
  let d := doy - (153 * mp + 2) / 5 + 1 in
  let m := if mp <? 10 then mp + 3 else mp - 9 in
  (yoe + era * 400 + (if m <=? 2 then 1 else 0), m, d).

Definition num2 (a b : char) : option Z :=
  match decimal a, decimal b with
  | Some x, Some y => Some (10 * x + y)
  | _, _ => None
  end.

Definition num4 (a b c d : char) : option Z :=
  match num2 a b, num2 c d with
  | Some x, Some y => Some (100 * x + y)
  | _, _ => None
  end.

Definition is_leap (y : Z) : bool :=
  (y mod 4 =? 0) && (negb (y mod 100 =? 0) || (y mod 400 =? 0)).

Definition days_in_month (y m : Z) : Z :=
  if m =? 2 then (if is_leap y then 29 else 28)
  else if (m =? 4) || (m =? 6) || (m =? 9) || (m =? 11) then 30
  else 31.

(** Reads [YYYY-MM-DD?HH:MM:SS], where [sep] tells what may stand between
    the date and the time. *)
Definition parse_datetime (sep : char -> bool) (s : str) : option Z :=
  match s with
  | [y1; y2; y3; y4; h1; m1; m2; h2; d1; d2; sp; hh1; hh2; c1; mi1; mi2; c2; s1; s2] =>
      match num4 y1 y2 y3 y4, num2 m1 m2, num2 d1 d2, num2 hh1 hh2, num2 mi1 mi2,
            num2 s1 s2 with
      | Some y, Some m, Some d, Some hh, Some mi, Some ss =>
          if (h1 =? 45) && (h2 =? 45) && sep sp && (c1 =? 58) && (c2 =? 58)
             && (1 <=? y) && (1 <=? m) && (m <=? 12) && (1 <=? d)
             && (d <=? days_in_month y m)
             && (hh <? 24) && (mi <? 60) && (ss <? 60)
          then Some (((days_from_civil y m d * 24 + hh) * 60 + mi) * 60 + ss)
          else None
      | _, _, _, _, _, _ => None
      end
  | _ => None
  end.

(** Reads the end of an ISO 8601 text: nothing, or [+HH:MM] or [-HH:MM]. *)
Definition parse_offset (s : str) : option (option Z) :=
  match s with
  | [] => Some None
  | [sign; h1; h2; c; m1; m2] =>
      match num2 h1 h2, num2 m1 m2 with
      | Some h, Some m =>
          if ((sign =? 43) || (sign =? 45)) && (c =? 58) && (h <? 24) && (m <? 60)
          then Some (Some ((if sign =? 45 then -1 else 1) * (h * 3600 + m * 60)))
          else None
      | _, _ => None
      end
  | _ => None
  end.

Definition fromisoformat (s : str) : option datetime :=
  match parse_datetime (fun c => (c =? 84) || (c =? 32)) (take 19 s),
        parse_offset (drop 19 s) with
  | Some t, Some offset => Some {| dt_wall := t; dt_utcoffset := offset |}
  | _, _ => None
  end.

Definition pad2 (n : Z) : str := [48 + n / 10 mod 10; 48 + n mod 10].
Definition pad4 (n : Z) : str := pad2 (n / 100) ++ pad2 n.

(** Writes [YYYY-MM-DD?HH:MM:SS] with [sep] in the middle, and [tail]. *)
Definition format_datetime (sep tail : str) (t : Z) : str :=
  let '(y, m, d) := civil_from_days (t / 86400) in
  let secs := t mod 86400 in
  pad4 y ++ [45] ++ pad2 m ++ [45] ++ pad2 d ++ sep
  ++ pad2 (secs / 3600) ++ [58] ++ pad2 (secs / 60 mod 60) ++ [58] ++ pad2 (secs mod 60)
  ++ tail.

Definition python : Python.
Proof.
  refine {| u_isspace := isspace; u_decimal := decimal; u_isdigit := isdigit;
            u_isword := isword; u_lower := lower; u_ci_eq := ci_eq;
            int_max_str_digits := Some 4300%nat;
            dt_fromisoformat := fromisoformat;
            dt_strptime := parse_datetime (fun c => c =? 32);
            dt_strftime_sql := format_datetime [32] [];
            dt_strftime_iso := format_datetime [84] [90];
            time_sleep_max := 9223372036 |}.
  - intros c Hc. unfold decimal.
    destruct (48 <=? c) eqn:E1; [| lia]. destruct (c <=? 57) eqn:E2; [| lia].
    reflexivity.
  - intros c d. unfold decimal, isdigit.
    destruct ((48 <=? c) && (c <=? 57)); [reflexivity | discriminate].
  - lia.
Defined.

End AsciiTable.

(** ** Regular expressions of [re], as far as the source uses them

    A backtracking matcher for the fragment the patterns of
    [get_verification_code] are written in: literals (compiled with
    [re.IGNORECASE]), greedy repetition of a character class, [\b], one
    capturing group, sequence and alternation.  The first alternative and
    the longest repetition are tried first, as [re] does. *)

Module Re.

(** A character class: the listed characters, and [\s] and [\d] when set. *)
Record cls : Type := Cls {
  cls_chars : list char;
  cls_space : bool;
  cls_digit : bool;
}.

Inductive re : Type :=
| Lit (c : char)
| Star (k : cls)
| Plus (k : cls)
| Rep (lo hi : nat) (k : cls)
| WordB
| Grp (r : re)
| Seq (a b : re)
| Alt (a b : re).

(** [\d] and [\s] *)
Definition digit : cls := Cls [] false true.
Definition space : cls := Cls [] true false.

(** A run of literals. *)
Fixpoint lits (s : str) : re :=
  match s with
  | [] => Star (Cls [] false false)
  | [c] => Lit c
  | c :: s' => Seq (Lit c) (lits s')
  end.

Section Matcher.
Context (P : Python).

Definition in_cls (k : cls) (c : char) : bool :=
  existsb (char_eqb c) (cls_chars k)
  || cls_space k && u_isspace P c
  || cls_digit k && bool_decide (is_Some (u_decimal P c)).

Definition word_at (o : option char) : bool :=
  match o with Some c => u_isword P c | None => false end.

(** [\b]: exactly one of the two neighbours is a word character. *)
Definition boundary (prev : option char) (s : str) : bool :=
  xorb (word_at prev) (word_at (head s)).

Section Backtrack.
Context {R : Type}.

(** A continuation gets the last character read, the rest of the text
    and the capture. *)
Definition kont : Type := option char -> str -> option R.

Fixpoint star (k : cls) (prev : option char) (s : str) (cont : kont) : option R :=
  match s with
  | c :: s' =>
      if in_cls k c
      then match star k (Some c) s' cont with
           | Some x => Some x
           | None => cont prev s
           end
      else cont prev s
  | [] => cont prev s
  end.

Definition stop_at (lo : nat) (prev : option char) (s : str) (cont : kont) : option R :=
  match lo with O => cont prev s | S _ => None end.

Fixpoint rep (k : cls) (lo hi : nat) (prev : option char) (s : str) (cont : kont)
  : option R :=
  match hi with
  | O => stop_at lo prev s cont
  | S hi' =>
      match s with
      | c :: s' =>
          if in_cls k c
          then match rep k (Nat.pred lo) hi' (Some c) s' cont with
               | Some x => Some x
               | None => stop_at lo prev s cont
               end
          else stop_at lo prev s cont
      | [] => stop_at lo prev s cont
      end
  end.

Fixpoint rmatch (r : re) (prev : option char) (s : str) (cap : option str)
    (cont : option char -> str -> option str -> option R) : option R :=
  match r with
  | Lit p =>
      match s with
      | c :: s' => if u_ci_eq P p c then cont (Some c) s' cap else None
      | [] => None
      end
  | Star k => star k prev s (fun pv rest => cont pv rest cap)
  | Plus k =>
      match s with
      | c :: s' =>
          if in_cls k c then star k (Some c) s' (fun pv rest => cont pv rest cap)
          else None
      | [] => None
      end
  | Rep lo hi k => rep k lo hi prev s (fun pv rest => cont pv rest cap)
  | WordB => if boundary prev s then cont prev s cap else None
  | Grp r' =>
      rmatch r' prev s cap
        (fun pv rest _ => cont pv rest (Some (take (length s - length rest) s)))
  | Seq a b => rmatch a prev s cap (fun pv rest cp => rmatch b pv rest cp cont)
  | Alt a b =>
      match rmatch a prev s cap cont with
      | Some x => Some x
      | None => rmatch b prev s cap cont
      end
  end.

End Backtrack.

(** A match that starts here: the text of group 1 (empty when the group
    took no part), the last character read and the rest of the text. *)
Definition match_here (r : re) (prev : option char) (s : str)
  : option (str * option char * str) :=
  rmatch r prev s None (fun pv rest cap => Some (default [] cap, pv, rest)).

(** [re.findall] for a pattern with one group: the group of every match,
    matches found from the left and not overlapping. *)
Fixpoint findall_from (fuel : nat) (r : re) (prev : option char) (s : str) : list str :=
  match fuel with
  | O => []
  | S fuel' =>
      let step :=
        match s with
        | c :: s' => findall_from fuel' r (Some c) s'
        | [] => []
        end in
      match match_here r prev s with
      | Some (g, pv, rest) =>
          g :: (if (length rest <? length s)%nat
                then findall_from fuel' r pv rest
                else step)
      | None => step
      end
  end.

Definition findall (r : re) (s : str) : list str :=
  findall_from (S (length s)) r None s.

End Matcher.
End Re.

(** ** The message store

    [database/db.py] is not among the sources: only its callers are.  The
    operations below are those the sources call, with the behaviour the
    specification gives them (sections 3 and 4.2). *)

Module Store.

(** A row of [emails]. *)
Record email_row : Type := {
  e_id : Z;
  e_user_id : Z;
  e_email : str;
  e_password : str;
  e_client_id : option str;
  e_refresh_token : option str;
  e_mail_type : str;
  e_access_token : option str;
  e_last_check_time : option str;
}.

(** A row of [mail_records]. *)
Record mail_row : Type := {
  m_id : Z;
  m_email_id : Z;
  m_subject : str;
  m_sender : str;
  m_received_time : option str;
  m_content : str;
  m_folder : str;
  m_has_attachments : Z;
}.

(** A row of [subscriptions]. *)
Record subscription_row : Type := {
  s_email_id : Z;
  s_subscription_id : option str;
  s_resource : str;
  s_expiration_time : str;
}.

Record db : Type := {
  emails : list email_row;
  mail_records : list mail_row;
  subscriptions : list subscription_row;
}.

Definition opt_str_eqb (a b : option str) : bool :=
  match a, b with
  | Some x, Some y => str_eqb x y
  | None, None => true
  | _, _ => false
  end.

(** A fresh row id: one more than the largest in use, 1 in an empty table. *)
Definition fresh_id (ids : list Z) : Z := 1 + foldr Z.max 0 ids.

(** Modelled from the spec: [Database.get_email_by_id] of the absent
    [database/db.py]: the mailbox of that id, [None] when there is none. *)
Definition get_email_by_id (d : db) (email_id : Z) : option email_row :=
  find (fun e => e_id e =? email_id) (emails d).

(** Modelled from the spec: [Database.get_mail_records] of the absent
    [database/db.py]: the stored messages of a mailbox. *)
Definition get_mail_records (d : db) (email_id : Z) : list mail_row :=
  filter (fun m => m_email_id m = email_id) (mail_records d).

(** Modelled from the spec: [Database.get_mail_count_by_email_id] of the
    absent [database/db.py]: how many messages the mailbox has stored. *)
Definition get_mail_count_by_email_id (d : db) (email_id : Z) : Z :=
  Z.of_nat (length (get_mail_records d email_id)).

(** The identity of a message: mailbox, sender, subject and time. *)
Definition same_mail (email_id : Z) (subject sender : str)
    (received_time : option str) (m : mail_row) : bool :=
  (m_email_id m =? email_id) && str_eqb (m_sender m) sender
  && str_eqb (m_subject m) subject
  && opt_str_eqb (m_received_time m) received_time.

(** Modelled from the spec: [Database.add_mail_record] of the absent
    [database/db.py].  "performs idempotent upsert keyed by ([email_id],
    [sender], [subject], [received_time])", "duplicate inserts become
    no-ops", and returns [(inserted, mail_id)]. *)
Definition add_mail_record (d : db) (email_id : Z) (subject sender : str)
    (received_time : option str) (content folder : str) (has_attachments : Z)
  : db * (bool * option Z) :=
  if existsb (same_mail email_id subject sender received_time) (mail_records d)
  then (d, (false, None))
  else
    let id := fresh_id (map m_id (mail_records d)) in
    let row := {| m_id := id; m_email_id := email_id; m_subject := subject;
                  m_sender := sender; m_received_time := received_time;
                  m_content := content; m_folder := folder;
                  m_has_attachments := has_attachments |} in
    ({| emails := emails d;
        mail_records := mail_records d ++ [row];
        subscriptions := subscriptions d |},
     (true, Some id)).

Definition set_check_time (now : str) (email_id : Z) (e : email_row) : email_row :=
  if e_id e =? email_id
  then {| e_id := e_id e; e_user_id := e_user_id e; e_email := e_email e;
          e_password := e_password e; e_client_id := e_client_id e;
          e_refresh_token := e_refresh_token e; e_mail_type := e_mail_type e;
          e_access_token := e_access_token e;
          e_last_check_time := Some now |}
  else e.

Definition set_token (token : str) (email_id : Z) (e : email_row) : email_row :=
  if e_id e =? email_id
  then {| e_id := e_id e; e_user_id := e_user_id e; e_email := e_email e;
          e_password := e_password e; e_client_id := e_client_id e;
          e_refresh_token := e_refresh_token e; e_mail_type := e_mail_type e;
          e_access_token := Some token;
          e_last_check_time := e_last_check_time e |}
  else e.

(** Modelled from the spec: [Database.update_email_token] of the absent
    [database/db.py]; it keeps the access token of a mailbox. *)
Definition update_email_token (d : db) (email_id : Z) (token : str) : db :=
  {| emails := map (set_token token email_id) (emails d);
     mail_records := mail_records d;
     subscriptions := subscriptions d |}.

(** Modelled from the spec: [Database.update_check_time] of the absent
    [database/db.py]: "[set_check_time(id)] sets [last_check_time = now()]";
    [now] is the text of the store's clock at the call. *)
Definition update_check_time (now : str) (d : db) (email_id : Z) : db :=
  {| emails := map (set_check_time now email_id) (emails d);
     mail_records := mail_records d;
     subscriptions := subscriptions d |}.

(** Modelled from the spec: [Database.add_email] of the absent
    [database/db.py]: a mailbox's address is "unique per user"; the call
    tells whether the row was added. *)
Definition add_email (d : db) (user_id : Z) (email password client_id refresh_token
    mail_type : str) : db * bool :=
  if existsb (fun e => (e_user_id e =? user_id) && str_eqb (e_email e) email) (emails d)
  then (d, false)
  else
    let row := {| e_id := fresh_id (map e_id (emails d)); e_user_id := user_id;
                  e_email := email; e_password := password;
                  e_client_id := Some client_id;
                  e_refresh_token := Some refresh_token;
                  e_mail_type := mail_type; e_access_token := None;
                  e_last_check_time := None |} in
    ({| emails := emails d ++ [row];
        mail_records := mail_records d;
        subscriptions := subscriptions d |}, true).

(** Modelled from the spec: [Database.get_all_emails] of the absent
    [database/db.py]: every mailbox, or those of one user. *)
Definition get_all_emails (d : db) (user_id : option Z) : list email_row :=
  match user_id with
  | None => emails d
  | Some u => filter (fun e => e_user_id e = u) (emails d)
  end.

(** Modelled from the spec: [Database.get_all_outlook_emails] of the absent
    [database/db.py]: the mailboxes of kind [outlook]. *)
Definition get_all_outlook_emails (d : db) : list email_row :=
  filter (fun e => str_eqb (e_mail_type e) (lit "outlook") = true) (emails d).

(** Modelled from the spec: [Database.get_subscription_by_email_id] of the
    absent [database/db.py]: the subscription recorded for a mailbox. *)
Definition get_subscription_by_email_id (d : db) (email_id : Z)
  : option subscription_row :=
  find (fun s => s_email_id s =? email_id) (subscriptions d).

(** Modelled from the spec: [Database.add_subscription] of the absent
    [database/db.py]: records a subscription of a mailbox. *)
Definition add_subscription (d : db) (email_id : Z) (subscription_id : option str)
    (resource expiration_time : str) : db :=
  {| emails := emails d;
     mail_records := mail_records d;
     subscriptions := subscriptions d ++
       [{| s_email_id := email_id; s_subscription_id := subscription_id;
           s_resource := resource; s_expiration_time := expiration_time |}] |}.

End Store.

(** ** Exceptions

    The outcome of a Python call: a value, or an exception that a
    [try ... except Exception] around it would catch. *)

Inductive outcome (A : Type) : Type :=
| Returns (a : A)
| Raises.
Arguments Returns {A} a.
Arguments Raises {A}.

(** ** [backend/utils/crypto.py] *)

Module Crypto.

(** What the module takes from outside: [cryptography.fernet], [hashlib],
    [base64], the codec of [str], and [print] on the [sys.stdout] of the
    process. *)
Record FernetLib : Type := {
  bytes : Type;
  fernet : Type;
  (** the clock and [os.urandom] at one encryption *)
  entropy : Type;
  (** [s.encode()]; [None] is a [UnicodeEncodeError] *)
  str_encode : str -> option bytes;
  (** [b.decode()]; [None] is a [UnicodeDecodeError] *)
  bytes_decode : bytes -> option str;
  sha256_digest : bytes -> bytes;
  urlsafe_b64encode : bytes -> bytes;
  (** [Fernet(key)]; [None] is the [ValueError] of a malformed key *)
  Fernet_new : bytes -> option fernet;
  fernet_encrypt : fernet -> entropy -> bytes -> option bytes;
  (** [f.decrypt(token)]; [None] is [InvalidToken] *)
  fernet_decrypt : fernet -> bytes -> option bytes;
  (** [print(line)]; [None] is the exception of a stdout that does not
      take the line, as the [UnicodeEncodeError] of an ASCII stdout on a
      line with a character outside ASCII *)
  print : str -> option unit;
  (** [print] of a line that starts with the given text and goes on with
      the text of the exception at hand, as in [print(f"...: {e}")]; the
      exceptions at hand are those of the calls above, of [sqlite3] and of
      [print] itself, whose texts are of ASCII, so that the start of the
      line decides whether the stdout takes it *)
  print_exception : str -> option unit;

  decode_encode : forall s b, str_encode s = Some b -> bytes_decode b = Some s;
  fernet_decrypt_encrypt : forall f r b t,
    fernet_encrypt f r b = Some t -> fernet_decrypt f t = Some b;
  (** a token is base64 text, and not empty *)
  fernet_token_text : forall f r b t,
    fernet_encrypt f r b = Some t ->
    exists s, bytes_decode t = Some s /\ str_encode s = Some t /\ truthy s = true;
}.

(** [os.environ], as far as the module reads it. *)
Record environ : Type := {
  ENCRYPTION_KEY : option str;
  JWT_SECRET_KEY : option str;
}.

Section WithLibrary.
Context (L : FernetLib) (env : environ).

(** The module's global [_fernet]. *)
Definition cache : Type := option (fernet L).

(** A computation that reads and sets [_fernet] and may raise. *)
Definition M (A : Type) : Type := cache -> cache * outcome A.

Definition ret {A} (a : A) : M A := fun c => (c, Returns a).
Definition raise {A} : M A := fun c => (c, Raises).
Definition bind {A B} (m : M A) (k : A -> M B) : M B :=
  fun c => match m c with
           | (c', Returns a) => k a c'
           | (c', Raises) => (c', Raises)
           end.
(** [try: body  except Exception: handler] *)
Definition try_except {A} (body handler : M A) : M A :=
  fun c => match body c with
           | (c', Returns a) => (c', Returns a)
           | (c', Raises) => handler c'
           end.
Definition lift {A} (o : option A) : M A :=
  match o with Some a => ret a | None => raise end.

Notation "x <- m ;; k" := (bind m (fun x => k))
  (at level 100, m at next level, right associativity).

Definition default_jwt_secret : str := lit "huohuo_email_secret_key".

(** The key derived from [JWT_SECRET_KEY] when [ENCRYPTION_KEY] is not set. *)
Definition derived_key : M (bytes L) :=
  jwt_bytes <- lift (str_encode L (default default_jwt_secret (JWT_SECRET_KEY env))) ;;
  ret (urlsafe_b64encode L (sha256_digest L jwt_bytes)).

Definition get_encryption_key : M (bytes L) :=
  match ENCRYPTION_KEY env with
  | Some key => if truthy key then lift (str_encode L key) else derived_key
  | None => derived_key
  end.

Definition get_fernet : M (fernet L) :=
  fun c => match c with
           | Some f => (c, Returns f)
           | None =>
               (key <- get_encryption_key ;;
                f <- lift (Fernet_new L key) ;;
                fun _ => (Some f, Returns f)) c
           end.

(** The body of the [try] of [encrypt]. *)
Definition encrypt_body (r : entropy L) (plaintext : str) : M str :=
  f <- get_fernet ;;
  data <- lift (str_encode L plaintext) ;;
  encrypted <- lift (fernet_encrypt L f r data) ;;
  lift (bytes_decode L encrypted).

(** The start of the line the handler of [encrypt] prints. *)
Definition encrypt_failed : str := [21152; 23494; 22833; 36133; 58; 32].

(** [encrypt]; the [print] of its handler stands outside every [try], and
    an exception of it leaves the function. *)
Definition encrypt (r : entropy L) (plaintext : str) : M str :=
  if negb (truthy plaintext) then ret plaintext
  else try_except (encrypt_body r plaintext)
         (_ <- lift (print_exception L encrypt_failed) ;; ret plaintext).

(** The body of the [try] of [decrypt]. *)
Definition decrypt_body (ciphertext : str) : M str :=
  f <- get_fernet ;;
  token <- lift (str_encode L ciphertext) ;;
  decrypted <- lift (fernet_decrypt L f token) ;;
  lift (bytes_decode L decrypted).

Definition decrypt (ciphertext : str) : M str :=
  if negb (truthy ciphertext) then ret ciphertext
  else try_except (decrypt_body ciphertext) (ret ciphertext).

Definition is_encrypted (text : str) : M bool :=
  if negb (truthy text) then ret false
  else ret (startswith (lit "gAAAAA") text).

(** The value a call returns, when it returns. *)
Definition value {A} (r : cache * outcome A) : option A :=
  match r with (_, Returns a) => Some a | (_, Raises) => None end.

(** [encrypt] takes its plaintext: the cipher ran and gave a token. *)
Definition accepted (c : cache) (r : entropy L) (plaintext : str) : Prop :=
  is_Some (value (encrypt_body r plaintext c)).


(** A text the configured key does not decrypt: what [decrypt] meets in a
    column written before encryption was introduced. *)
Definition not_ciphertext (c : cache) (s : str) : Prop :=
  value (decrypt_body s c) = None.

End WithLibrary.

Arguments value {L A} r.

(** A library to run the model with: bytes are code points, a key has 44
    characters, a token is the data behind the marker [gAAAAA]; the
    stdout is one of UTF-8, that takes every line, or one of ASCII. *)
Module Toy.

Definition toy_key (k : str) : option unit :=
  if (length k =? 44)%nat then Some tt else None.

Definition toy_b64 (b : str) : str := take 44 (b ++ replicate 44 61).

Definition toy_encrypt (f : unit) (r : unit) (b : str) : option str :=
  Some (lit "gAAAAA" ++ b).

Definition toy_decrypt (f : unit) (t : str) : option str :=
  if startswith (lit "gAAAAA") t then Some (drop 6 t) else None.

(** [print] on a stdout of ASCII. *)
Definition ascii_print (line : str) : option unit :=
  if forallb (fun c => c <? 128) line then Some tt else None.

Definition with_stdout (stdout : str -> option unit) : FernetLib.
Proof.
  refine {| bytes := str; fernet := unit; entropy := unit;
            str_encode := Some; bytes_decode := Some;
            sha256_digest := fun b => b; urlsafe_b64encode := toy_b64;
            Fernet_new := toy_key;
            fernet_encrypt := toy_encrypt; fernet_decrypt := toy_decrypt;
            print := stdout; print_exception := stdout |}.
  - intros s b [= ->]. reflexivity.
  - intros f r b t [= <-]. reflexivity.
  - intros f r b t [= <-]. exists (lit "gAAAAA" ++ b). repeat split; reflexivity.
Defined.

Definition lib : FernetLib := with_stdout (fun _ => Some tt).

(** The same library in a process whose stdout is of ASCII. *)
Definition ascii_lib : FernetLib := with_stdout ascii_print.

Definition env : environ := {| ENCRYPTION_KEY := None; JWT_SECRET_KEY := None |}.

(** An environment whose [ENCRYPTION_KEY] is not a key. *)
Definition bad_env : environ :=
  {| ENCRYPTION_KEY := Some (lit "short"); JWT_SECRET_KEY := None |}.

End Toy.

End Crypto.

(** ** The network and the trace of a run *)

Module Net.

(** A message of a Graph listing, as the JSON has it; [None] is an absent
    key. *)
Record raw_message : Type := {
  r_id : option str;
  r_subject : option str;
  r_from_name : option str;
  r_from_address : option str;
  r_receivedDateTime : option str;
  r_body_content : option str;
  r_hasAttachments : bool;
}.

(** The answer to [GET /me/mailFolders/<folder>/messages]. *)
Inductive list_response : Type :=
| ListOk (value : list raw_message)
| ListStatus (status_code : Z)
| ListFails.

(** The answer of the token endpoint: a JSON object, or no usable answer. *)
Inductive token_response : Type :=
| TokenJson (has_error : bool) (access_token : option str)
| TokenFails.

(** The answer to [POST /subscriptions]. *)
Record subscribe_response : Type := {
  status_code : Z;
  retry_after : option str;
  subscription_id : option str;
}.

Record network : Type := {
  token_endpoint : str -> str -> token_response;
  graph_messages : str -> str -> Z -> option str -> list_response;
  graph_subscribe : str -> str -> outcome subscribe_response;
}.

(** What a run does to the outside. *)
Inductive event : Type :=
| TokenRequest (refresh_token client_id : str)
| ListRequest (folder : str) (top : Z) (filter : option str)
| SubscribeRequest (client_state : str)
| Sleep (seconds : Z)
| Broadcast (user_id : Z) (mail_ids : list Z)
(** a message handed to the PlatformClassifier *)
| Classify (mail_id : Z).

End Net.

Import Net.

(** ** [backend/utils/email/graph_api.py] *)

Module GraphApi.

(** A time as the handler passes it around: [None], a text, or a
    [datetime]. *)
Inductive pytime : Type :=
| TNone
| TStr (s : str)
| TDatetime (t : datetime).

(** An element of the list [get_messages] returns. *)
Record message : Type := {
  g_subject : str;
  g_sender : str;
  g_received_time : pytime;
  g_content : str;
  g_has_attachments : bool;
}.

Definition no_subject : str := [40; 26080; 20027; 39064; 41].
Definition unknown_sender : str := [40; 26410; 30693; 21457; 20214; 20154; 41].

Definition endswith (suffix s : str) : bool := startswith (rev suffix) (rev s).

Section WithPython.
Context (P : Python) (net : network).

(** The text of [since] in the filter; [None] when [since] is not given
    or is empty, and no filter is sent. *)
Definition since_str (since : pytime) : option str :=
  match since with
  | TNone => None
  | TDatetime t => Some (dt_strftime_iso P (dt_wall t))
  | TStr s =>
      if truthy s then
        Some match dt_strptime P s with
             | Some dt => dt_strftime_iso P dt
             | None =>
                 let s1 := replace (lit " ") (lit "T") s in
                 if endswith (lit "Z") s1 then s1 else s1 ++ lit "Z"
             end
      else None
  end.

Definition filter_param (since : pytime) : option str :=
  match since_str since with
  | Some t => Some (lit "receivedDateTime ge " ++ t)
  | None => None
  end.

Definition parse_received (o : option str) : pytime :=
  match o with
  | None => TNone
  | Some s =>
      if truthy s then
        match dt_fromisoformat P (replace (lit "Z") (lit "+00:00") s) with
        | Some t => TDatetime t
        | None => TStr s
        end
      else TStr s
  end.

Definition parse_message (m : raw_message) : message :=
  {| g_subject := default no_subject (r_subject m);
     g_sender := default [] (r_from_name m) ++ lit " <"
                 ++ default [] (r_from_address m) ++ lit ">";
     g_received_time := parse_received (r_receivedDateTime m);
     g_content := default [] (r_body_content m);
     g_has_attachments := r_hasAttachments m |}.

(** [GraphAPIMailHandler.get_messages] *)
Definition get_messages (access_token folder : str) (limit : Z) (since : pytime)
  : list event * list message :=
  let flt := filter_param since in
  ([ListRequest folder limit flt],
   match graph_messages net access_token folder limit flt with
   | ListOk value => map parse_message value
   | ListStatus _ => []
   | ListFails => []
   end).

(** [GraphAPIMailHandler.get_new_access_token] *)
Definition get_new_access_token (refresh_token client_id : str)
  : list event * option str :=
  ([TokenRequest refresh_token client_id],
   match token_endpoint net refresh_token client_id with
   | TokenJson true _ => None
   | TokenJson false (Some t) => if truthy t then Some t else None
   | TokenJson false None => None
   | TokenFails => None
   end).

(** A record of [fetch_emails]. *)
Record mail_record : Type := {
  f_subject : str;
  f_sender : str;
  f_received_time : pytime;
  f_content : str;
  f_has_attachments : Z;
  f_folder : str;
}.

(** [GraphAPIMailHandler.fetch_emails]; the folder name is set by the
    caller and starts out as [INBOX], the default the caller reads. *)
Definition fetch_emails (access_token folder : str) (last_check_time : pytime)
  : list event * list mail_record :=
  let (tr, messages) := get_messages access_token folder 100 last_check_time in
  (tr, map (fun msg =>
              {| f_subject := g_subject msg; f_sender := g_sender msg;
                 f_received_time := g_received_time msg;
                 f_content := g_content msg;
                 f_has_attachments := if g_has_attachments msg then 1 else 0;
                 f_folder := lit "INBOX" |}) messages).

(** A [datetime] is written as [%Y-%m-%d %H:%M:%S] before it is stored. *)
Definition stored_time (t : pytime) : option str :=
  match t with
  | TNone => None
  | TStr s => Some s
  | TDatetime t => Some (dt_strftime_sql P (dt_wall t))
  end.

(** First synchronisation: the store holds no message of the mailbox.
    [count] is the outcome of [get_mail_count_by_email_id], [records] that
    of the [get_mail_records] the handler falls back on. *)
Definition is_first_sync (count : outcome Z)
    (records : outcome (list Store.mail_row)) : bool :=
  match count with
  | Returns n => n =? 0
  | Raises =>
      match records with
      | Returns l => match l with [] => true | _ => false end
      | Raises => false
      end
  end.

Record check_result : Type := {
  success : bool;
  total : Z;
  saved : Z;
}.

Definition set_folder (name : str) (r : mail_record) : mail_record :=
  {| f_subject := f_subject r; f_sender := f_sender r;
     f_received_time := f_received_time r; f_content := f_content r;
     f_has_attachments := f_has_attachments r; f_folder := name |}.

Definition folders_to_check : list (str * str) :=
  [(lit "inbox", lit "INBOX"); (lit "junkemail", lit "JUNK")].

(** The loop over the folders. *)
Fixpoint fetch_folders (access_token : str) (last_check_time : pytime)
    (folders : list (str * str)) : list event * list mail_record :=
  match folders with
  | [] => ([], [])
  | (folder_id, folder_name) :: rest =>
      let (tr, records) := fetch_emails access_token folder_id last_check_time in
      let (tr', more) := fetch_folders access_token last_check_time rest in
      (tr ++ tr', map (set_folder folder_name) records ++ more)
  end.

(** The loop that saves the records. *)
Fixpoint save_records (d : Store.db) (email_id : Z) (records : list mail_record)
    (saved_count : Z) : Store.db * Z :=
  match records with
  | [] => (d, saved_count)
  | r :: rest =>
      let (d', res) :=
        Store.add_mail_record d email_id (f_subject r) (f_sender r)
          (stored_time (f_received_time r)) (f_content r) (f_folder r)
          (f_has_attachments r) in
      save_records d' email_id rest (if fst res then saved_count + 1 else saved_count)
  end.

Definition time_of (o : option str) : pytime :=
  match o with Some s => TStr s | None => TNone end.

(** [GraphAPIMailHandler.check_mail]; [now] is the store's clock.  The
    progress callback only logs and is left out. *)
Definition check_mail (now : str) (email_info : Store.email_row) (d : Store.db)
  : Store.db * list event * check_result :=
  let email_id := Store.e_id email_info in
  let first := is_first_sync (Returns (Store.get_mail_count_by_email_id d email_id))
                             (Returns (Store.get_mail_records d email_id)) in
  let last_check_time :=
    if first then TNone else time_of (Store.e_last_check_time email_info) in
  let failed := {| success := false; total := 0; saved := 0 |} in
  match Store.e_refresh_token email_info, Store.e_client_id email_info with
  | Some refresh_token, Some client_id =>
      if truthy refresh_token && truthy client_id then
        let (tr1, tok) := get_new_access_token refresh_token client_id in
        match tok with
        | None => (d, tr1, failed)
        | Some access_token =>
            let d1 := Store.update_email_token d email_id access_token in
            let (tr2, all_mail_records) :=
              fetch_folders access_token last_check_time folders_to_check in
            let count := Z.of_nat (length all_mail_records) in
            if count =? 0 then
              (Store.update_check_time now d1 email_id, tr1 ++ tr2,
               {| success := true; total := 0; saved := 0 |})
            else
              let (d2, saved_count) := save_records d1 email_id all_mail_records 0 in
              (Store.update_check_time now d2 email_id, tr1 ++ tr2,
               {| success := true; total := count; saved := saved_count |})
        end
      else (d, [], failed)
  | _, _ => (d, [], failed)
  end.

End WithPython.
End GraphApi.

(** ** [backend/utils/email/graph_webhook.py] *)

Module Webhook.

Definition MAX_EXPIRATION_MINUTES : Z := 4230.

(** [str(n)] of an [int]. *)
Fixpoint digits_of (fuel : nat) (n : Z) (acc : str) : str :=
  match fuel with
  | O => acc
  | S fuel' =>
      let acc' := (48 + n mod 10) :: acc in
      if n <? 10 then acc' else digits_of fuel' (n / 10) acc'
  end.

Definition str_of_int (n : Z) : str :=
  if n <? 0
  then 45 :: digits_of (S (Z.to_nat (Z.log2 (- n)))) (- n) []
  else digits_of (S (Z.to_nat (Z.log2 n))) n [].

(** [f"email_{email_id}"] *)
Definition client_state_of (email_id : Z) : str := lit "email_" ++ str_of_int email_id.

(** *** [GraphWebhookManager] *)

Section Manager.
Context (P : Python) (net : network).

(** What [create_subscription] returns: [None], the subscription found in
    the store, or the one just created. *)
Inductive created : Type :=
| Existing (s : Store.subscription_row)
| Fresh (subscription_id : option str) (expiration_time : Z).

Definition inbox_resource : str := lit "me/mailFolders('Inbox')/messages".

(** [GraphWebhookManager.create_subscription]; [clock] is
    [datetime.now(timezone.utc)]. *)
Definition create_subscription (clock : Z) (d : Store.db) (email_info : Store.email_row)
  : Store.db * list event * option created :=
  let email_id := Store.e_id email_info in
  match Store.e_refresh_token email_info, Store.e_client_id email_info with
  | Some refresh_token, Some client_id =>
      if truthy refresh_token && truthy client_id then
        match Store.get_subscription_by_email_id d email_id with
        | Some existing => (d, [], Some (Existing existing))
        | None =>
            let (tr1, tok) := GraphApi.get_new_access_token net refresh_token client_id in
            match tok with
            | None => (d, tr1, None)
            | Some access_token =>
                let expiration_time := clock + MAX_EXPIRATION_MINUTES * 60 in
                let client_state := client_state_of email_id in
                let tr := tr1 ++ [SubscribeRequest client_state] in
                match graph_subscribe net access_token client_state with
                | Returns response =>
                    if status_code response =? 201 then
                      (Store.add_subscription d email_id (subscription_id response)
                         inbox_resource (dt_strftime_sql P expiration_time),
                       tr, Some (Fresh (subscription_id response) expiration_time))
                    else if status_code response =? 429 then
                      (* retry_after = response.headers.get('Retry-After', '60')
                         is logged, and None is returned *)
                      (d, tr, None)
                    else (d, tr, None)
                | Raises => (d, tr, None)
                end
            end
        end
      else (d, [], None)
  | _, _ => (d, [], None)
  end.

(** The tallies of a bulk creation. *)
Record tally : Type := {
  t_created : Z;
  t_failed : Z;
  t_skipped : Z;
}.

(** [time.sleep(seconds)] returns for these numbers of seconds, and
    raises for the others. *)
Definition sleep_returns (seconds : Z) : bool :=
  (0 <=? seconds) && (seconds <=? time_sleep_max P).

(** The loop of [create_subscriptions_for_all_outlook_emails] from the
    mailbox of index [i] on; [clock] advances with every [time.sleep].
    The tallies are [None] when an exception has ended the loop and the
    [except] of the function has returned [None]: the [ZeroDivisionError]
    of [(i + 1) % batch_size] with no batch size, or the exception of
    [time.sleep(delay_between_batches)]. *)
Fixpoint create_loop (batch_size delay_between_batches total : Z) (i : Z)
    (clock : Z) (d : Store.db) (emails : list Store.email_row) (t : tally)
  : Store.db * list event * option tally :=
  match emails with
  | [] => (d, [], Some t)
  | email_info :: rest =>
      match Store.get_subscription_by_email_id d (Store.e_id email_info) with
      | Some _ =>
          create_loop batch_size delay_between_batches total (i + 1) clock d rest
            {| t_created := t_created t; t_failed := t_failed t;
               t_skipped := t_skipped t + 1 |}
      | None =>
          let '(d1, tr, result) := create_subscription clock d email_info in
          let t1 :=
            match result with
            | Some _ => {| t_created := t_created t + 1; t_failed := t_failed t;
                           t_skipped := t_skipped t |}
            | None => {| t_created := t_created t; t_failed := t_failed t + 1;
                         t_skipped := t_skipped t |}
            end in
          if batch_size =? 0 then (d1, tr ++ [Sleep 2], None)
          else if ((i + 1) mod batch_size =? 0) && (i + 1 <? total) then
            if sleep_returns delay_between_batches then
              let '(d2, tr', t2) :=
                create_loop batch_size delay_between_batches total (i + 1)
                  (clock + 2 + delay_between_batches) d1 rest t1 in
              (d2, tr ++ [Sleep 2] ++ [Sleep delay_between_batches] ++ tr', t2)
            else (d1, tr ++ [Sleep 2], None)
          else
            let '(d2, tr', t2) :=
              create_loop batch_size delay_between_batches total (i + 1)
                (clock + 2) d1 rest t1 in
            (d2, tr ++ [Sleep 2] ++ tr', t2)
      end
  end.

(** [GraphWebhookManager.create_subscriptions_for_all_outlook_emails];
    the tallies it returns, or [None]. *)
Definition create_subscriptions_for_all_outlook_emails
    (batch_size delay_between_batches : Z) (clock : Z) (d : Store.db)
  : Store.db * list event * option tally :=
  let emails := Store.get_all_outlook_emails d in
  create_loop batch_size delay_between_batches (Z.of_nat (length emails)) 0 clock d
    emails {| t_created := 0; t_failed := 0; t_skipped := 0 |}.

End Manager.

(** *** [GraphWebhookHandler] *)

(** The handler's fields: the ids in [_processing_emails], and whether a
    WebSocket handler with [broadcast_to_user] is attached. *)
Record handler : Type := {
  _processing_emails : gset Z;
  ws_handler : bool;
}.

(** A change notification, as the JSON has it. *)
Record notification : Type := {
  changeType : option str;
  clientState : option str;
  resource : option str;
}.

Definition handle_validation (validation_token : str) : str := validation_token.

(** Under [_processing_lock]: skip when the mailbox is being processed,
    else enter it. *)
Definition enter (h : handler) (email_id : Z) : option handler :=
  if decide (email_id ∈ _processing_emails h) then None
  else Some {| _processing_emails := {[email_id]} ∪ _processing_emails h;
               ws_handler := ws_handler h |}.

(** Under [_processing_lock], in the [finally]. *)
Definition leave (h : handler) (email_id : Z) : handler :=
  {| _processing_emails := _processing_emails h ∖ {[email_id]};
     ws_handler := ws_handler h |}.

Section Handler.
Context (P : Python) (net : network).

(** The mailbox id of a [clientState]; [None] where the handler warns and
    returns. *)
Definition parse_client_state (client_state : str) : option Z :=
  if startswith (lit "email_") client_state
  then PyLib.py_int P (replace (lit "email_") [] client_state)
  else None.

(** The loop of [_fetch_new_mail] that stores the messages; [new_mails]
    lists the ids of the rows that were added. *)
Fixpoint save_messages (d : Store.db) (email_id : Z) (messages : list GraphApi.message)
    (saved_count : Z) (new_mails : list Z) : Store.db * Z * list Z :=
  match messages with
  | [] => (d, saved_count, new_mails)
  | msg :: rest =>
      let (d', res) :=
        Store.add_mail_record d email_id (GraphApi.g_subject msg) (GraphApi.g_sender msg)
          (GraphApi.stored_time P (GraphApi.g_received_time msg))
          (GraphApi.g_content msg) (lit "INBOX")
          (if GraphApi.g_has_attachments msg then 1 else 0) in
      match res with
      | (true, Some mail_id) =>
          if mail_id =? 0 then save_messages d' email_id rest saved_count new_mails
          else save_messages d' email_id rest (saved_count + 1) (new_mails ++ [mail_id])
      | _ => save_messages d' email_id rest saved_count new_mails
      end
  end.

(** [_broadcast_new_mails] *)
Definition _broadcast_new_mails (h : handler) (user_id : Z) (new_mails : list Z)
  : list event :=
  if negb (user_id =? 0) && ws_handler h then [Broadcast user_id new_mails] else [].

(** [GraphWebhookHandler._fetch_new_mail]; [now] is the store's clock. *)
Definition _fetch_new_mail (now : str) (h : handler) (d : Store.db)
    (email_info : Store.email_row) : Store.db * list event :=
  let email_id := Store.e_id email_info in
  let user_id := Store.e_user_id email_info in
  match Store.e_refresh_token email_info, Store.e_client_id email_info with
  | Some refresh_token, Some client_id =>
      if truthy refresh_token && truthy client_id then
        let (tr1, tok) := GraphApi.get_new_access_token net refresh_token client_id in
        match tok with
        | None => (d, tr1)
        | Some access_token =>
            let (tr2, messages) :=
              GraphApi.get_messages P net access_token (lit "inbox") 5 GraphApi.TNone in
            match messages with
            | [] => (d, tr1 ++ tr2)
            | _ :: _ =>
                let '(d1, saved_count, new_mails) :=
                  save_messages d email_id messages 0 [] in
                let d2 := Store.update_check_time now d1 email_id in
                let tr3 :=
                  if (0 <? saved_count) && ws_handler h && negb (bool_decide (new_mails = []))
                  then _broadcast_new_mails h user_id new_mails else [] in
                (d2, tr1 ++ tr2 ++ tr3)
            end
        end
      else (d, [])
  | _, _ => (d, [])
  end.

(** [GraphWebhookHandler._process_single_notification] *)
Definition _process_single_notification (now : str) (h : handler) (d : Store.db)
    (n : notification) : handler * Store.db * list event :=
  let client_state := default [] (clientState n) in
  match parse_client_state client_state with
  | None => (h, d, [])
  | Some email_id =>
      match Store.get_email_by_id d email_id with
      | None => (h, d, [])
      | Some email_info =>
          if Store.opt_str_eqb (changeType n) (Some (lit "created")) then
            match enter h email_id with
            | None => (h, d, [])
            | Some h1 =>
                let (d', tr) := _fetch_new_mail now h1 d email_info in
                (leave h1 email_id, d', tr)
            end
          else (h, d, [])
      end
  end.

(** [GraphWebhookHandler.handle_notification]: the notifications of one
    delivery, in order. *)
Fixpoint handle_notification (now : str) (h : handler) (d : Store.db)
    (value : list notification) : handler * Store.db * list event :=
  match value with
  | [] => (h, d, [])
  | n :: rest =>
      let '(h1, d1, tr) := _process_single_notification now h d n in
      let '(h2, d2, tr') := handle_notification now h1 d1 rest in
      (h2, d2, tr ++ tr')
  end.

End Handler.
End Webhook.

(** ** [backend/app.py] *)

Module App.

(** *** The webhook endpoint *)

Inductive method : Type := GET | HEAD | POST | PUT | DELETE | OPTIONS.

Record request : Type := {
  req_method : method;
  (** the query string, in order *)
  req_args : list (str * str);
  (** the notifications of the JSON body, [None] when it cannot be read *)
  req_json : option (list Webhook.notification);
}.

Record response : Type := {
  status : Z;
  content_type : str;
  body : str;
}.

Definition text_html : str := lit "text/html; charset=utf-8".
Definition text_plain : str := lit "text/plain".
Definition octet_stream : str := lit "application/octet-stream".

(** [request.args.get(key)]: the first value of the key. *)
Fixpoint args_get (key : str) (args : list (str * str)) : option str :=
  match args with
  | [] => None
  | (k, v) :: rest => if str_eqb k key then Some v else args_get key rest
  end.

(** [graph_webhook_endpoint]: the response, and the notifications handed
    to the thread it starts.  [handler_ready] tells that
    [graph_webhook_handler] is set. *)
Definition graph_webhook_endpoint (handler_ready : bool) (req : request)
  : response * option (list Webhook.notification) :=
  let accepted := {| status := 202; content_type := text_html; body := [] |} in
  match args_get (lit "validationToken") (req_args req) with
  | Some validation_token =>
      if truthy validation_token
      then ({| status := 200; content_type := text_plain;
               body := validation_token |}, None)
      else if handler_ready then (accepted, req_json req) else (accepted, None)
  | None => if handler_ready then (accepted, req_json req) else (accepted, None)
  end.

(** [serve_frontend]; [dist] gives the files of the front end's build by
    their path.  A file without an extension is sent as
    [application/octet-stream]; the page of a 404 is left empty. *)
Definition serve_frontend (dist : str -> option str) (path : str) : response :=
  let index :=
    match dist (lit "index.html") with
    | Some html => {| status := 200; content_type := text_html; body := html |}
    | None => {| status := 404; content_type := text_html; body := [] |}
    end in
  if negb (truthy path) || str_eqb path (lit "/") then index
  else match dist path with
       | Some file => {| status := 200; content_type := octet_stream; body := file |}
       | None => index
       end.

(** The rules that match the URL [/api/graph/webhook]:
    [@app.route('/api/graph/webhook', methods=['POST'])], and for the other
    methods the catch-all rules [/<path:path>] of [serve_frontend] ([GET],
    and [HEAD] with it) and of [handle_options]; a method that no rule
    takes is answered 405. *)
Definition webhook_url (handler_ready : bool) (dist : str -> option str)
    (req : request) : response :=
  match req_method req with
  | POST => fst (graph_webhook_endpoint handler_ready req)
  | GET | HEAD => serve_frontend dist (lit "api/graph/webhook")
  | OPTIONS => {| status := 200; content_type := text_html; body := [] |}
  | PUT | DELETE => {| status := 405; content_type := text_html; body := [] |}
  end.

(** *** Bulk import *)

Record failure : Type := {
  line : Z;
  content : str;
  reason : str;
}.

Record import_result : Type := {
  imp_total : Z;
  imp_success : Z;
  imp_failed_details : list failure;
}.

(** The reasons [import_emails] gives: four fields are needed, a field is
    empty, the address exists. *)
Definition reason_format : str :=
  [26684; 24335; 38169; 35823; 65292; 38656; 35201; 52; 20010; 23383; 27573].
Definition reason_blank : str := [26377; 31354; 30333; 23383; 27573].
Definition reason_exists : str := [37038; 31665; 22320; 22336; 24050; 23384; 22312].

(** ['\n'] *)
Definition newline : str := [10].

Section BulkImport.
Context (P : Python).

(** The loop of [import_emails], from the line of index [i] on. *)
Fixpoint import_lines (user_id : Z) (mail_type : str) (d : Store.db) (i : Z)
    (lines : list str) : Store.db * Z * list failure :=
  match lines with
  | [] => (d, 0, [])
  | raw :: rest =>
      let line := PyLib.strip P raw in
      if negb (truthy line) then import_lines user_id mail_type d (i + 1) rest
      else
        match split (lit "----") line with
        | [email; password; client_id; refresh_token] =>
            if truthy email && truthy password && truthy client_id && truthy refresh_token
            then
              let (d1, ok) :=
                Store.add_email d user_id email password client_id refresh_token mail_type in
              let '(d2, n, fails) := import_lines user_id mail_type d1 (i + 1) rest in
              if ok then (d2, n + 1, fails)
              else (d2, n, {| line := i + 1; content := line; reason := reason_exists |} :: fails)
            else
              let '(d2, n, fails) := import_lines user_id mail_type d (i + 1) rest in
              (d2, n, {| line := i + 1; content := line; reason := reason_blank |} :: fails)
        | _ =>
            let '(d2, n, fails) := import_lines user_id mail_type d (i + 1) rest in
            (d2, n, {| line := i + 1; content := line; reason := reason_format |} :: fails)
        end
  end.

(** [import_emails]; [None] is the answer 400 to an empty [data]. *)
Definition import_emails (user_id : Z) (d : Store.db) (data : option str)
    (mail_type : option str) : Store.db * option import_result :=
  match data with
  | Some text =>
      if truthy text then
        let lines := split newline (PyLib.strip P text) in
        let '(d', n, fails) :=
          import_lines user_id (default (lit "outlook") mail_type) d 0 lines in
        (d', Some {| imp_total := Z.of_nat (length lines); imp_success := n;
                     imp_failed_details := fails |})
      else (d, None)
  | None => (d, None)
  end.

End BulkImport.
(** *** Waiting for a verification code *)

(** [code_patterns] *)
Definition colon_or_space : Re.cls := Re.Cls [65306; 58] true false.
Definition group_digits : Re.re := Re.Grp (Re.Rep 4 8 Re.digit).

Definition code_patterns : list Re.re :=
  [ (* 验证码[：:\s]*(\d{4,8}) *)
    Re.Seq (Re.lits [39564; 35777; 30721])
      (Re.Seq (Re.Star colon_or_space) group_digits);
    (* code[：:\s]+is[：:\s]+(\d{4,8}) *)
    Re.Seq (Re.lits (lit "code"))
      (Re.Seq (Re.Plus colon_or_space)
         (Re.Seq (Re.lits (lit "is")) (Re.Seq (Re.Plus colon_or_space) group_digits)));
    (* code[：:\s]*(\d{4,8}) *)
    Re.Seq (Re.lits (lit "code")) (Re.Seq (Re.Star colon_or_space) group_digits);
    (* verification[：:\s]+code[：:\s]+is[：:\s]+(\d{4,8}) *)
    Re.Seq (Re.lits (lit "verification"))
      (Re.Seq (Re.Plus colon_or_space)
         (Re.Seq (Re.lits (lit "code"))
            (Re.Seq (Re.Plus colon_or_space)
               (Re.Seq (Re.lits (lit "is"))
                  (Re.Seq (Re.Plus colon_or_space) group_digits)))));
    (* verification[：:\s]*(\d{4,8}) *)
    Re.Seq (Re.lits (lit "verification")) (Re.Seq (Re.Star colon_or_space) group_digits);
    (* (\d{4,8})\s*(?:是您的|为您的|is your) *)
    Re.Seq group_digits
      (Re.Seq (Re.Star Re.space)
         (Re.Alt (Re.lits [26159; 24744; 30340])
            (Re.Alt (Re.lits [20026; 24744; 30340]) (Re.lits (lit "is your")))));
    (* \b(\d{4,8})\b *)
    Re.Seq Re.WordB (Re.Seq group_digits Re.WordB) ].

(** [code_keywords] *)
Definition code_keywords : list str :=
  [ [39564; 35777; 30721]; lit "verification"; lit "code"; lit "verify";
    [30830; 35748; 30721]; lit "OTP"; lit "pin" ].

Record code_result : Type := {
  cr_email : str;
  cr_code : str;
  cr_subject : str;
  cr_sender : str;
  cr_received_time : option str;
}.

(** The answers of [get_verification_code]: the code, 400 without an
    address, 404 without the mailbox, 404 at the end of the wait, and the
    500 of an exception that nothing handles. *)
Inductive code_response : Type :=
| Found (r : code_result)
| NoAddress
| NoMailbox
| TimedOut
| ServerError500.

(** [datetime.min], a naive one. *)
Definition datetime_min : datetime := naive 0.

(** [a < b] on two [datetime]s: their fields for two naive ones, their
    instants for two aware ones, and a [TypeError] for one of each. *)
Definition dt_lt (a b : datetime) : outcome bool :=
  match dt_utcoffset a, dt_utcoffset b with
  | None, None => Returns (dt_wall a <? dt_wall b)
  | Some oa, Some ob => Returns (dt_wall a - oa <? dt_wall b - ob)
  | _, _ => Raises
  end.

(** [t >= limit] for a naive [limit], as [datetime.now()] gives it. *)
Definition dt_ge_naive (t : datetime) (limit : Z) : outcome bool :=
  match dt_utcoffset t with
  | None => Returns (limit <=? dt_wall t)
  | Some _ => Raises
  end.

Section GetCode.
Context (P : Python).

(** The mail passes the keyword given with the request, or, without one,
    holds one of [code_keywords]. *)
Definition keyword_filter (keyword subject content : str) : bool :=
  if truthy keyword
  then PyLib.contains_ci P keyword subject || PyLib.contains_ci P keyword content
  else existsb (fun kw => PyLib.contains_ci P kw subject || PyLib.contains_ci P kw content)
         code_keywords.

(** A code of 4 to 8 digits: [code.isdigit() and 4 <= len(code) <= 8] *)
Definition code_ok (code : str) : bool :=
  PyLib.isdigit P code && (4 <=? length code)%nat && (length code <=? 8)%nat.

(** The loop over [code_patterns]. *)
Fixpoint first_code (patterns : list Re.re) (text_to_search : str) : option str :=
  match patterns with
  | [] => None
  | pattern :: rest =>
      match Re.findall P pattern text_to_search with
      | code :: _ => if code_ok code then Some code else first_code rest text_to_search
      | [] => first_code rest text_to_search
      end
  end.

Definition text_to_search (mail : Store.mail_row) : str :=
  Store.m_subject mail ++ lit " " ++ Store.m_content mail.

(** [extract_code_from_mail] *)
Definition extract_code_from_mail (email_address keyword : str) (mail : Store.mail_row)
  : option code_result :=
  if keyword_filter keyword (Store.m_subject mail) (Store.m_content mail) then
    match first_code code_patterns (text_to_search mail) with
    | Some code =>
        Some {| cr_email := email_address; cr_code := code;
                cr_subject := Store.m_subject mail; cr_sender := Store.m_sender mail;
                cr_received_time := Store.m_received_time mail |}
    | None => None
    end
  else None.

(** [datetime.fromisoformat(t.replace('Z', '+00:00').replace('+00:00', ''))] *)
Definition parse_iso (received_time : str) : option datetime :=
  dt_fromisoformat P
    (replace (lit "+00:00") [] (replace (lit "Z") (lit "+00:00") received_time)).

(** The time of a mail, in either format. *)
Definition parse_mail_time (received_time : str) : option datetime :=
  if contains (lit "T") received_time then parse_iso received_time
  else naive <$> dt_strptime P received_time.

(** [get_mail_time], the key of the sort. *)
Definition get_mail_time (mail : Store.mail_row) : datetime :=
  match Store.m_received_time mail with
  | Some received_time =>
      if truthy received_time
      then default datetime_min (parse_mail_time received_time)
      else datetime_min
  | None => datetime_min
  end.

(** [sorted(mail_records, key=get_mail_time, reverse=True)]: latest first,
    mails of one time in the order they had.  The call stands outside
    every [try], and the [TypeError] of a comparison leaves the endpoint.
    The comparisons of CPython's sort are others than those of this
    insertion, but every sort links each key to each other through the
    comparisons it makes: on a list that holds a naive and an aware key
    one of them raises, here as there, and on every other list the result
    is the one stable order. *)
Fixpoint insert_by_time (mail : Store.mail_row) (sorted : list Store.mail_row)
  : outcome (list Store.mail_row) :=
  match sorted with
  | [] => Returns [mail]
  | m :: rest =>
      match dt_lt (get_mail_time mail) (get_mail_time m) with
      | Returns true =>
          match insert_by_time mail rest with
          | Returns l => Returns (m :: l)
          | Raises => Raises
          end
      | Returns false => Returns (mail :: sorted)
      | Raises => Raises
      end
  end.

Fixpoint sorted_by_time (mail_records : list Store.mail_row)
  : outcome (list Store.mail_row) :=
  match mail_records with
  | [] => Returns []
  | mail :: rest =>
      match sorted_by_time rest with
      | Returns sorted => insert_by_time mail sorted
      | Raises => Raises
      end
  end.

(** The first loop: the mails of the last 30 seconds.  The [except] of
    its body takes the [ValueError] of a time that is not read and the
    [TypeError] of an aware time against [recent_limit], and the loop goes
    on with the next mail. *)
Fixpoint scan_recent (email_address keyword : str) (recent_limit : Z)
    (mails : list Store.mail_row) : option code_result :=
  match mails with
  | [] => None
  | mail :: rest =>
      let next := scan_recent email_address keyword recent_limit rest in
      match Store.m_received_time mail with
      | Some received_time =>
          if truthy received_time then
            match parse_mail_time received_time with
            | Some mail_time =>
                match dt_ge_naive mail_time recent_limit with
                | Returns true =>
                    match extract_code_from_mail email_address keyword mail with
                    | Some result => Some result
                    | None => next
                    end
                | Returns false => next
                | Raises => next
                end
            | None => next
            end
          else next
      | None => next
      end
  end.

(** The loop over the mails of a later reading of the store, with its
    bare [except]. *)
Fixpoint scan_new (email_address keyword : str) (start_time : Z)
    (mails : list Store.mail_row) : option code_result :=
  match mails with
  | [] => None
  | mail :: rest =>
      let next := scan_new email_address keyword start_time rest in
      match Store.m_received_time mail with
      | Some received_time =>
          if truthy received_time then
            match parse_iso received_time with
            | Some mail_time =>
                match dt_ge_naive mail_time (start_time - 10) with
                | Returns true =>
                    match extract_code_from_mail email_address keyword mail with
                    | Some result => Some result
                    | None => next
                    end
                | Returns false => next
                | Raises => next
                end
            | None => next
            end
          else next
      | None => next
      end
  end.

(** The wait: [polls] are the readings of the store, one for every 2
    seconds the loop sleeps before the time is up. *)
Fixpoint wait_loop (email_address keyword : str) (start_time : Z)
    (last_mail_count : nat) (polls : list (list Store.mail_row)) : option code_result :=
  match polls with
  | [] => None
  | mail_records :: later =>
      if (last_mail_count <? length mail_records)%nat then
        match scan_new email_address keyword start_time mail_records with
        | Some result => Some result
        | None => wait_loop email_address keyword start_time (length mail_records) later
        end
      else wait_loop email_address keyword start_time last_mail_count later
  end.

(** The mailbox of that address among those the caller may see. *)
Definition find_mailbox (emails : list Store.email_row) (email_address : str)
  : option Store.email_row :=
  find (fun e => str_eqb (u_lower P (Store.e_email e)) (u_lower P email_address)) emails.

(** [get_verification_code]; [start_time] is [datetime.now()] at the
    call, a naive time of the server's zone, [d] the store then, and
    [later] the store at each later reading. *)
Definition get_verification_code (is_admin : bool) (user_id : Z) (d : Store.db)
    (later : list Store.db) (start_time : Z) (email : option str) (keyword : str)
  : code_response :=
  match email with
  | None => NoAddress
  | Some email_address =>
      if negb (truthy email_address) then NoAddress
      else
        let emails := Store.get_all_emails d (if is_admin then None else Some user_id) in
        match find_mailbox emails email_address with
        | None => NoMailbox
        | Some email_info =>
            let mail_records := Store.get_mail_records d (Store.e_id email_info) in
            let recent_limit := start_time - 30 in
            match sorted_by_time mail_records with
            | Raises => ServerError500
            | Returns mail_records_sorted =>
                match scan_recent email_address keyword recent_limit
                        mail_records_sorted with
                | Some result => Found result
                | None =>
                    match wait_loop email_address keyword start_time
                            (length mail_records)
                            (map (fun d' =>
                                    Store.get_mail_records d' (Store.e_id email_info))
                               later) with
                    | Some result => Found result
                    | None => TimedOut
                    end
                end
            end
        end
  end.

End GetCode.

(** *** Pull checks and the batch processor *)

(** Modelled from the spec: [EmailBatchProcessor] of the absent
    [utils/email] package.  "[is_processing(email_id)] reflects the
    in-flight set"; "an entry is inserted before dispatch and removed when
    the job completes". *)
Record processor : Type := {
  in_flight : gset Z;
}.

(** Modelled from the spec: [EmailBatchProcessor.is_email_being_processed]
    of the absent [utils/email] package: "reflects the in-flight set". *)
Definition is_email_being_processed (p : processor) (email_id : Z) : bool :=
  bool_decide (email_id ∈ in_flight p).

(** The filter of [batch_check_emails]: the ids being processed, and the
    ids that are checked. *)
Definition batch_check_filter (p : processor) (email_ids : list Z) : list Z * list Z :=
  (filter (fun i => is_email_being_processed p i = true) email_ids,
   filter (fun i => is_email_being_processed p i = false) email_ids).

End App.

(** ** [backend/app.py]: the endpoints that start a pull check *)

Module Endpoints.
Import App.

(** [current_user], as far as the endpoints read it. *)
Record user : Type := {
  u_id : Z;
  is_admin : bool;
}.

(** The answers of [check_email] before the check runs: 404, 403, 409, or
    the mailbox handed to the thread pool.  What the check itself answers
    (its result, 408 after five minutes, 500) is not part of the guard. *)
Inductive check_answer : Type :=
| NotFound404
| Forbidden403
| Processing409
| CheckSubmitted (email_info : Store.email_row).

(** [check_email] *)
Definition check_email (p : processor) (d : Store.db) (current_user : user)
    (email_id : Z) : check_answer :=
  match Store.get_email_by_id d email_id with
  | None => NotFound404
  | Some email_info =>
      if negb (Store.e_user_id email_info =? u_id current_user) then Forbidden403
      else if is_email_being_processed p email_id then Processing409
      else CheckSubmitted email_info
  end.

(** The answers of [batch_check_emails]: 404, 409 with the ids being
    processed, or the ids handed to [check_emails] with the two counts of
    the answer. *)
Inductive batch_answer : Type :=
| NoMailbox404
| AllProcessing409 (processing_ids : list Z)
| Started (valid_ids : list Z) (skipped total : Z).

(** The ids the request stands for: those of the caller's mailboxes when
    none is given, else those given, cut down to the caller's own unless
    the caller is an administrator. *)
Definition requested_ids (d : Store.db) (current_user : user) (email_ids : list Z)
  : list Z :=
  match email_ids with
  | [] =>
      map Store.e_id
        (Store.get_all_emails d
           (if is_admin current_user then None else Some (u_id current_user)))
  | _ :: _ =>
      if is_admin current_user then email_ids
      else
        let owned_ids :=
          map Store.e_id (Store.get_all_emails d (Some (u_id current_user))) in
        filter (fun id => id ∈ owned_ids) email_ids
  end.

(** [batch_check_emails]; [email_ids] is [data.get('email_ids', [])], and
    [[]] without a body. *)
Definition batch_check_emails (p : processor) (d : Store.db) (current_user : user)
    (email_ids : list Z) : batch_answer :=
  match requested_ids d current_user email_ids with
  | [] => NoMailbox404
  | ids =>
      let (processing_ids, valid_ids) := batch_check_filter p ids in
      match valid_ids with
      | [] => AllProcessing409 processing_ids
      | _ :: _ =>
          Started valid_ids (Z.of_nat (length processing_ids)) (Z.of_nat (length ids))
      end
  end.

End Endpoints.

(** ** Jobs in flight

    The fetch jobs of the push path and the checks of the pull path run on
    threads of their own.  A state of the system holds the store, whose
    mailboxes no action here changes, the handler's [_processing_emails],
    the processor's in-flight set and the jobs that are running; an action is one atomic step of a request thread or of a
    job: the handler's steps are those it takes under [_processing_lock],
    the processor's are modelled from the spec. *)

Module Exclusion.

Inductive entry : Type := Push | Pull.

#[global] Instance entry_eq_dec : EqDecision entry.
Proof. solve_decision. Defined.

Record system : Type := {
  sys_db : Store.db;
  sys_handler : Webhook.handler;
  sys_processor : App.processor;
  sys_jobs : list (entry * Z);
}.

Definition initial (d : Store.db) (ws : bool) : system :=
  {| sys_db := d;
     sys_handler := {| Webhook._processing_emails := ∅; Webhook.ws_handler := ws |};
     sys_processor := {| App.in_flight := ∅ |};
     sys_jobs := [] |}.

Inductive action : Type :=
(** a [created] notification for an existing mailbox reaches
    [_process_single_notification] *)
| Notify (email_id : Z)
(** the [finally] of a push fetch *)
| PushDone (email_id : Z)
(** [POST /api/emails/<id>/check] of a user reaches [check_email] *)
| Check (current_user : Endpoints.user) (email_id : Z)
(** a pull check completes *)
| PullDone (email_id : Z).

(** Removes one occurrence of a job. *)
Fixpoint remove_job (j : entry * Z) (jobs : list (entry * Z)) : list (entry * Z) :=
  match jobs with
  | [] => []
  | j' :: rest => if decide (j' = j) then rest else j' :: remove_job j rest
  end.

Definition exec (s : system) (a : action) : system :=
  match a with
  | Notify email_id =>
      match Webhook.enter (sys_handler s) email_id with
      | Some h' => {| sys_db := sys_db s;
                      sys_handler := h'; sys_processor := sys_processor s;
                      sys_jobs := (Push, email_id) :: sys_jobs s |}
      | None => s
      end
  | PushDone email_id =>
      if bool_decide ((Push, email_id) ∈ sys_jobs s)
      then {| sys_db := sys_db s;
              sys_handler := Webhook.leave (sys_handler s) email_id;
              sys_processor := sys_processor s;
              sys_jobs := remove_job (Push, email_id) (sys_jobs s) |}
      else s
  | Check current_user email_id =>
      match Endpoints.check_email (sys_processor s) (sys_db s) current_user
              email_id with
      | Endpoints.CheckSubmitted _ =>
          {| sys_db := sys_db s;
             sys_handler := sys_handler s;
             sys_processor :=
               {| App.in_flight := {[email_id]} ∪ App.in_flight (sys_processor s) |};
             sys_jobs := (Pull, email_id) :: sys_jobs s |}
      | _ => s
      end
  | PullDone email_id =>
      if bool_decide ((Pull, email_id) ∈ sys_jobs s)
      then {| sys_db := sys_db s;
              sys_handler := sys_handler s;
              sys_processor :=
                {| App.in_flight := App.in_flight (sys_processor s) ∖ {[email_id]} |};
              sys_jobs := remove_job (Pull, email_id) (sys_jobs s) |}
      else s
  end.

Definition run (s : system) (acts : list action) : system := foldl exec s acts.

(** The jobs in flight for a mailbox, from either entry point. *)
Definition jobs_of (s : system) (email_id : Z) : list (entry * Z) :=
  filter (fun j => j.2 = email_id) (sys_jobs s).

(** The push jobs in flight for a mailbox. *)
Definition push_jobs_of (s : system) (email_id : Z) : list (entry * Z) :=
  filter (fun j => j = (Push, email_id)) (sys_jobs s).

End Exclusion.

(** ** [backend/migrate_encrypt.py] *)

Module Migrate.
Import Crypto.

(** A row of [SELECT id, email, password, client_id, refresh_token FROM
    emails]; [None] is [NULL]. *)
Record row : Type := {
  r_id : Z;
  r_email : str;
  r_password : option str;
  r_client_id : option str;
  r_refresh_token : option str;
}.

(** The lines the script prints, as far as they are fixed. *)
Definition connecting : str := [36830; 25509; 25968; 25454; 24211; 58; 32].
Definition found_head : str := [25214; 21040; 32].
Definition found_tail : str := [32; 20010; 37038; 31665; 35760; 24405].
Definition encrypted_line : str :=
  [10003; 32; 24050; 21152; 23494; 37038; 31665; 58; 32].
Definition skipped_line : str :=
  [45; 32; 36339; 36807; 37038; 31665; 32; 40; 24050; 21152; 23494; 25110; 26080;
   25935; 24863; 25968; 25454; 41; 58; 32].
Definition migration_done : str := [10; 36801; 31227; 23436; 25104; 33].
Definition encrypted_head : str := [32; 32; 45; 32; 24050; 21152; 23494; 58; 32].
Definition skipped_head : str := [32; 32; 45; 32; 24050; 36339; 36807; 58; 32].
Definition count_tail : str := [32; 20010; 37038; 31665].
Definition migration_failed : str := [36801; 31227; 22833; 36133; 58; 32].

Section WithLibrary.
Context (L : FernetLib) (env : environ) (db_path : str).

(** The state of a run: the global [_fernet], and how many times [encrypt]
    has been called; [rs] gives the clock and the random bytes of each
    call. *)
Definition state : Type := (cache L * nat)%type.

(** One of the three tests of the loop: [if v and not is_encrypted(v)],
    then [encrypt(v)].  The result is the value to write, if any; [Raises]
    stands for an exception, that leaves the loop for the handler of the
    script. *)
Definition migrate_field (rs : nat -> entropy L) (st : state) (v : option str)
  : state * outcome (option str) :=
  match v with
  | None => (st, Returns None)
  | Some s =>
      if truthy s then
        match is_encrypted L s (fst st) with
        | (c1, Returns true) => ((c1, snd st), Returns None)
        | (c1, Returns false) =>
            match encrypt L env (rs (snd st)) s c1 with
            | (c2, Returns t) => ((c2, S (snd st)), Returns (Some t))
            | (c2, Raises) => ((c2, S (snd st)), Raises)
            end
        | (c1, Raises) => ((c1, snd st), Raises)
        end
      else (st, Returns None)
  end.

(** The value of a column after the [UPDATE]. *)
Definition updated (old : option str) (new : option str) : option str :=
  match new with Some t => Some t | None => old end.

(** The body of the loop for one row: the row as it is afterwards, and
    whether [updates] was not empty; the line of the row is printed last.
    [id] is the key of the table, so that [UPDATE emails SET ... WHERE
    id = ?] writes the row at hand. *)
Definition migrate_row (rs : nat -> entropy L) (st : state) (e : row)
  : state * outcome (row * bool) :=
  match migrate_field rs st (r_password e) with
  | (st1, Returns p) =>
      match migrate_field rs st1 (r_client_id e) with
      | (st2, Returns c) =>
          match migrate_field rs st2 (r_refresh_token e) with
          | (st3, Returns t) =>
              let e' := {| r_id := r_id e; r_email := r_email e;
                           r_password := updated (r_password e) p;
                           r_client_id := updated (r_client_id e) c;
                           r_refresh_token := updated (r_refresh_token e) t |} in
              let has_updates :=
                match p, c, t with None, None, None => false | _, _, _ => true end in
              match print L ((if has_updates then encrypted_line else skipped_line)
                               ++ r_email e) with
              | Some _ => (st3, Returns (e', has_updates))
              | None => (st3, Raises)
              end
          | (st3, Raises) => (st3, Raises)
          end
      | (st2, Raises) => (st2, Raises)
      end
  | (st1, Raises) => (st1, Raises)
  end.

(** What a run that reached [conn.commit()] has written and counted. *)
Record report : Type := {
  rows_after : list row;
  encrypted_count : Z;
  skipped_count : Z;
}.

(** The loop over the rows. *)
Fixpoint migrate_rows (rs : nat -> entropy L) (st : state) (emails : list row)
    (done : list row) (encrypted skipped : Z) : state * outcome report :=
  match emails with
  | [] => (st, Returns {| rows_after := done; encrypted_count := encrypted;
                          skipped_count := skipped |})
  | e :: rest =>
      match migrate_row rs st e with
      | (st1, Returns (e', true)) =>
          migrate_rows rs st1 rest (done ++ [e']) (encrypted + 1) skipped
      | (st1, Returns (e', false)) =>
          migrate_rows rs st1 rest (done ++ [e']) encrypted (skipped + 1)
      | (st1, Raises) => (st1, Raises)
      end
  end.

(** The three lines printed after the commit. *)
Definition print_summary (r : report) : option unit :=
  match print L migration_done with
  | Some _ =>
      match print L (encrypted_head ++ Webhook.str_of_int (encrypted_count r)
                       ++ count_tail) with
      | Some _ =>
          print L (skipped_head ++ Webhook.str_of_int (skipped_count r) ++ count_tail)
      | None => None
      end
  | None => None
  end.

(** The handler of the script: the line of the failure, [conn.rollback()],
    [False].  When the line is not printed its exception leaves the
    function, and the [finally] closes the connection. *)
Definition handler : outcome bool :=
  match print_exception L migration_failed with
  | Some _ => Returns false
  | None => Raises
  end.

(** How a run ends: before the connection is made, with nothing committed
    (after [conn.rollback()], or with the transaction open when
    [conn.close()] is reached, which drops it), or after [conn.commit()];
    and what the function returns. *)
Inductive run : Type :=
| Unopened
| Uncommitted (returned : outcome bool)
| Committed (r : report) (returned : outcome bool).

(** [migrate_encrypt_data] on the rows of an existing database file,
    whose [emails] table holds [emails]; the calls of [sqlite3] are taken
    to succeed, so that the exceptions of a run are those of [encrypt] and
    of [print].  The first line is printed before the connection is made
    and outside the [try]; the lines of the count of rows and of each row
    are printed inside it, before [conn.commit()], and the three lines of
    the summary after it. *)
Definition migrate_encrypt_data (rs : nat -> entropy L) (c : cache L)
    (emails : list row) : cache L * run :=
  match print L (connecting ++ db_path) with
  | None => (c, Unopened)
  | Some _ =>
      match print L (found_head ++ Webhook.str_of_int (Z.of_nat (length emails))
                       ++ found_tail) with
      | None => (c, Uncommitted handler)
      | Some _ =>
          match migrate_rows rs (c, O) emails [] 0 0 with
          | (st, Returns r) =>
              match print_summary r with
              | Some _ => (fst st, Committed r (Returns true))
              | None => (fst st, Committed r handler)
              end
          | (st, Raises) => (fst st, Uncommitted handler)
          end
      end
  end.

(** The rows of [emails] once the connection is closed. *)
Definition table_after (emails : list row) (r : run) : list row :=
  match r with
  | Committed rep _ => rows_after rep
  | _ => emails
  end.

(** What the function returns, and whether it returns. *)
Definition returned (r : run) : outcome bool :=
  match r with
  | Unopened => Raises
  | Uncommitted o => o
  | Committed _ o => o
  end.

End WithLibrary.
End Migrate.

(** * Properties *)

(** ** The vault *)

Module CryptoProps.
Import Crypto.

Section WithLibrary.
Context (L : FernetLib) (env : environ).

Lemma get_fernet_sets_cache c c' f :
  get_fernet L env c = (c', Returns f) -> c' = Some f.
Proof.
  unfold get_fernet. destruct c as [g|].
  - intros [= <- <-]. reflexivity.
  - unfold bind, lift, ret, raise.
    destruct (get_encryption_key L env None) as [c1 [key|]]; [| discriminate].
    destruct (Fernet_new L key) as [g|]; [| discriminate].
    intros [= <- <-]. reflexivity.
Qed.

Lemma get_fernet_cached f : get_fernet L env (Some f) = (Some f, Returns f).
Proof. reflexivity. Qed.

(** What a successful run of the body of [encrypt] went through. *)
Lemma encrypt_body_returns r p c c' t :
  encrypt_body L env r p c = (c', Returns t) ->
  exists f data token,
    c' = Some f /\ str_encode L p = Some data /\
    fernet_encrypt L f r data = Some token /\ bytes_decode L token = Some t.
Proof.
  unfold encrypt_body, bind.
  destruct (get_fernet L env c) as [c1 [f|]] eqn:Hf; [| discriminate].
  apply get_fernet_sets_cache in Hf. subst c1.
  unfold lift at 1. destruct (str_encode L p) as [data|]; [| discriminate].
  unfold ret at 1, lift at 1.
  destruct (fernet_encrypt L f r data) as [token|] eqn:Htok; [| discriminate].
  unfold ret at 1, lift.
  destruct (bytes_decode L token) as [t'|] eqn:Hdec; [| discriminate].
  intros [= <- <-]. exists f, data, token. auto.
Qed.

Lemma decrypt_of_token f data token r t p :
  str_encode L p = Some data ->
  fernet_encrypt L f r data = Some token ->
  bytes_decode L token = Some t ->
  decrypt L env t (Some f) = (Some f, Returns p).
Proof.
  intros Hp Htok Hdec.
  destruct (fernet_token_text L f r data token Htok) as (s & Hs & Henc & Hne).
  assert (s = t) by congruence. subst s.
  unfold decrypt. rewrite Hne. simpl.
  unfold try_except, decrypt_body, bind. rewrite get_fernet_cached.
  rewrite Henc. simpl.
  rewrite (fernet_decrypt_encrypt L f r data token Htok). simpl.
  rewrite (decode_encode L p data Hp). reflexivity.
Qed.

Lemma encrypt_value r s c :
  value (encrypt L env r s c)
  = if truthy s then
      match value (encrypt_body L env r s c) with
      | Some t => Some t
      | None => match print_exception L encrypt_failed with
                | Some _ => Some s
                | None => None
                end
      end
    else Some s.
Proof.
  unfold encrypt. destruct (truthy s); simpl; [| reflexivity].
  unfold try_except. destruct (encrypt_body L env r s c) as [c' [t|]]; [reflexivity |].
  unfold bind, lift. simpl. destruct (print_exception L encrypt_failed); reflexivity.
Qed.

Lemma decrypt_value s c :
  value (decrypt L env s c)
  = Some (if truthy s then default s (value (decrypt_body L env s c)) else s).
Proof.
  unfold decrypt. destruct (truthy s); simpl; [| reflexivity].
  unfold try_except. destruct (decrypt_body L env s c) as [c' [t|]]; reflexivity.
Qed.

End WithLibrary.

(** [decrypt] of what [encrypt] returned, with the cache [encrypt] left. *)
Definition decrypt_encrypted (L : FernetLib) (env : environ) (c : cache L)
    (r : entropy L) (p : str) : option str :=
  match encrypt L env r p c with
  | (c', Returns t) => value (decrypt L env t c')
  | (_, Raises) => None
  end.

(** C8: [decrypt] returns unchanged every text the configured key does not
    decrypt, and gives back every plaintext that [encrypt] has taken. *)
Theorem decrypt_tolerant_and_inverse (L : FernetLib) (env : environ) (c : cache L)
    (r : entropy L) (s p : str) :
  (not_ciphertext L env c s -> value (decrypt L env s c) = Some s) /\
  (accepted L env c r p -> decrypt_encrypted L env c r p = Some p).
Proof.
  split.
  - unfold not_ciphertext. intros H. rewrite decrypt_value, H.
    destruct (truthy s); reflexivity.
  - unfold accepted, decrypt_encrypted. intros [t Ht].
    destruct (encrypt_body L env r p c) as [c' [t'|]] eqn:Hb; [| discriminate].
    simpl in Ht. injection Ht as ->.
    unfold encrypt. destruct (truthy p) eqn:Hp; simpl.
    + unfold try_except. rewrite Hb.
      destruct (encrypt_body_returns L env r p c c' t Hb)
        as (f & data & token & -> & Hd & Htok & Hdec).
      rewrite (decrypt_of_token L env f data token r t p Hd Htok Hdec).
      reflexivity.
    + unfold ret. destruct p; [reflexivity | discriminate].
Qed.

(** A legacy password is returned as it is, and a password the toy cipher
    has taken comes back. *)
Lemma decrypt_tolerant_and_inverse_witness :
  value (decrypt Toy.lib Toy.env (lit "hunter2") None) = Some (lit "hunter2") /\
  decrypt_encrypted Toy.lib Toy.env None tt (lit "hunter2") = Some (lit "hunter2").
Proof.
  destruct (decrypt_tolerant_and_inverse Toy.lib Toy.env None tt
              (lit "hunter2") (lit "hunter2")) as [H1 H2].
  split.
  - apply H1. reflexivity.
  - apply H2. eexists. reflexivity.
Defined.

(** C10: [decrypt] and [is_encrypted] return for every text, and
    [encrypt] for the empty one; but when the cipher fails, [encrypt]
    prints a line before it returns the plaintext, and raises what that
    [print] raises.  With an [ENCRYPTION_KEY] that is no key and a stdout
    of ASCII, [encrypt('hunter2')] raises. *)
Theorem encrypt_raises_with_its_print :
  (forall (L : FernetLib) (env : environ) (c : cache L) (r : entropy L) (s : str),
     (value (encrypt L env r s c) = None <->
      truthy s = true /\ value (encrypt_body L env r s c) = None /\
      print_exception L encrypt_failed = None) /\
     (value (encrypt_body L env r s c) = None ->
      print_exception L encrypt_failed <> None ->
      value (encrypt L env r s c) = Some s) /\
     is_Some (value (decrypt L env s c)) /\
     is_Some (value (is_encrypted L s c))) /\
  value (encrypt_body Toy.ascii_lib Toy.bad_env tt (lit "hunter2") None) = None /\
  encrypt Toy.ascii_lib Toy.bad_env tt (lit "hunter2") None = (None, Raises).
Proof.
  split; [| split; reflexivity].
  intros L env c r s. split; [| split; [| split]].
  - rewrite encrypt_value. destruct (truthy s).
    + destruct (value (encrypt_body L env r s c)) as [t|].
      * split; [discriminate | intros (_ & H & _); discriminate].
      * destruct (print_exception L encrypt_failed).
        -- split; [discriminate | intros (_ & _ & H); discriminate].
        -- split; [auto | reflexivity].
    + split; [discriminate | intros (H & _); discriminate].
  - intros Hb Hp. rewrite encrypt_value, Hb.
    destruct (print_exception L encrypt_failed); [| contradiction].
    destruct (truthy s); reflexivity.
  - rewrite decrypt_value. eexists. reflexivity.
  - unfold is_encrypted. destruct (truthy s); simpl; eexists; reflexivity.
Qed.

End CryptoProps.

(** ** The validation handshake *)

Module HandshakeProps.
Import App.

(** The handshake as the specification words it: whatever the method, a
    request with [validationToken=T] gets [200 text/plain] and the body
    [T]. *)
Definition handshake_for_any_method (handler_ready : bool) (dist : str -> option str)
    (req : request) : Prop :=
  forall T, args_get (lit "validationToken") (req_args req) = Some T ->
    webhook_url handler_ready dist req
    = {| status := 200; content_type := text_plain; body := T |}.

(** A build of the front end with its [index.html]. *)
Definition dist_with_index (path : str) : option str :=
  if str_eqb path (lit "index.html") then Some (lit "<html></html>") else None.

Definition get_with_token : request :=
  {| req_method := GET;
     req_args := [(lit "validationToken", lit "abc123")];
     req_json := None |}.

(** C6, as stated, fails: the rule of the endpoint takes [POST] only, and a
    [GET] with a validation token falls to [serve_frontend], which answers
    with the front end's page. *)
Lemma handshake_get_counterexample :
  ~ handshake_for_any_method true dist_with_index get_with_token.
Proof.
  intros H. specialize (H (lit "abc123") eq_refl). vm_compute in H. discriminate H.
Qed.

(** C6, amended: a [POST] to the webhook endpoint with a non-empty
    [validationToken=T] is answered with status 200, [Content-Type:
    text/plain] and the body [T]; no notification is processed. *)
Theorem handshake_post (handler_ready : bool) (dist : str -> option str)
    (req : request) (T : str) :
  req_method req = POST ->
  args_get (lit "validationToken") (req_args req) = Some T ->
  T <> [] ->
  webhook_url handler_ready dist req
  = {| status := 200; content_type := text_plain; body := T |}
  /\ snd (graph_webhook_endpoint handler_ready req) = None.
Proof.
  intros Hm Ha Hne. unfold webhook_url, graph_webhook_endpoint. rewrite Hm, Ha.
  destruct T as [| c T']; [congruence |]. simpl. split; reflexivity.
Qed.

Lemma handshake_post_witness :
  webhook_url true dist_with_index
    {| req_method := POST; req_args := [(lit "validationToken", lit "abc123")];
       req_json := None |}
  = {| status := 200; content_type := text_plain; body := lit "abc123" |}.
Proof.
  apply (handshake_post true dist_with_index
           {| req_method := POST; req_args := [(lit "validationToken", lit "abc123")];
              req_json := None |} (lit "abc123")).
  - reflexivity.
  - reflexivity.
  - vm_compute. discriminate.
Defined.

End HandshakeProps.

(** ** Strings *)

Module PyProps.

Lemma char_eqb_eq (a b : char) : char_eqb a b = true <-> a = b.
Proof. unfold char_eqb. apply Z.eqb_eq. Qed.

Lemma str_eqb_eq (a b : str) : str_eqb a b = true <-> a = b.
Proof.
  revert b. induction a as [| x a IH]; intros [| y b]; simpl; try (split; congruence).
  rewrite andb_true_iff, char_eqb_eq, IH. split.
  - intros [-> ->]. reflexivity.
  - intros [= -> ->]. auto.
Qed.

Lemma str_eqb_refl (a : str) : str_eqb a a = true.
Proof. apply str_eqb_eq. reflexivity. Qed.

Lemma truthy_true (s : str) : truthy s = true <-> s <> [].
Proof. destruct s; simpl; split; congruence. Qed.

Lemma truthy_false (s : str) : truthy s = false <-> s = [].
Proof. destruct s; simpl; split; congruence. Qed.

End PyProps.

(** ** Bulk import *)

Module ImportProps.
Import App PyProps.

(** What [import_emails] makes of a line. *)
Inductive line_class : Type :=
| Blank
| Malformed (why : str)
| Fields (email password client_id refresh_token : str).

(** The tests of the loop of [import_emails] on one line, in their order. *)
Definition classify (P : Python) (raw : str) : line_class :=
  let line := PyLib.strip P raw in
  if negb (truthy line) then Blank
  else match split (lit "----") line with
       | [email; password; client_id; refresh_token] =>
           if truthy email && truthy password && truthy client_id && truthy refresh_token
           then Fields email password client_id refresh_token
           else Malformed reason_blank
       | _ => Malformed reason_format
       end.

(** The store holds a mailbox of that address for the user. *)
Definition has_mailbox (d : Store.db) (user_id : Z) (email : str) : Prop :=
  exists row, In row (Store.emails d) /\
    Store.e_user_id row = user_id /\ Store.e_email row = email.

(** The report on the line of that number. *)
Definition reported (fails : list failure) (number : Z) (text why : str) : Prop :=
  In {| line := number; content := text; reason := why |} fails.

Definition unreported (fails : list failure) (number : Z) : Prop :=
  forall f, In f fails -> line f <> number.

Section WithPython.
Context (P : Python) (user_id : Z) (mail_type : str).

(** One turn of the loop. *)
Lemma import_lines_step d i raw rest :
  import_lines P user_id mail_type d i (raw :: rest)
  = match classify P raw with
    | Blank => import_lines P user_id mail_type d (i + 1) rest
    | Malformed why =>
        let '(d2, n, fails) := import_lines P user_id mail_type d (i + 1) rest in
        (d2, n, {| line := i + 1; content := PyLib.strip P raw; reason := why |} :: fails)
    | Fields email password client_id refresh_token =>
        let (d1, ok) :=
          Store.add_email d user_id email password client_id refresh_token mail_type in
        let '(d2, n, fails) := import_lines P user_id mail_type d1 (i + 1) rest in
        if ok then (d2, n + 1, fails)
        else (d2, n, {| line := i + 1; content := PyLib.strip P raw;
                        reason := reason_exists |} :: fails)
    end.
Proof.
  unfold classify. simpl.
  destruct (negb (truthy (PyLib.strip P raw))); [reflexivity |].
  destruct (split (lit "----") (PyLib.strip P raw)) as [| a [| b [| c [| e [| x l]]]]];
    try reflexivity.
  destruct (truthy a && truthy b && truthy c && truthy e); reflexivity.
Qed.

Lemma add_email_has d email password client_id refresh_token d1 ok :
  Store.add_email d user_id email password client_id refresh_token mail_type = (d1, ok) ->
  has_mailbox d1 user_id email /\
  (forall u e, has_mailbox d u e -> has_mailbox d1 u e).
Proof.
  unfold Store.add_email.
  destruct (existsb _ (Store.emails d)) eqn:Hex; intros [= <- <-].
  - split; [| auto]. apply existsb_exists in Hex as (row & Hin & Hrow).
    apply andb_true_iff in Hrow as [Hu He].
    exists row. repeat split; [assumption | lia | apply str_eqb_eq; assumption].
  - split.
    + eexists. split; [simpl; apply in_or_app; right; left; reflexivity |].
      split; reflexivity.
    + intros u e (row & Hin & Hrow). exists row. split; [| assumption].
      simpl. apply in_or_app. left. assumption.
Qed.

(** Mailboxes are only ever added. *)
Lemma import_lines_keeps lines : forall d i d' n fails u e,
  import_lines P user_id mail_type d i lines = (d', n, fails) ->
  has_mailbox d u e -> has_mailbox d' u e.
Proof.
  induction lines as [| raw rest IH]; intros d i d' n fails u e.
  - simpl. intros [= <- _ _]. auto.
  - rewrite import_lines_step. destruct (classify P raw) as [| why | a b c r].
    + apply IH.
    + destruct (import_lines P user_id mail_type d (i + 1) rest) as [[d2 n2] f2] eqn:Hrest.
      intros [= <- _ _]. eapply IH; eassumption.
    + destruct (Store.add_email d user_id a b c r mail_type) as [d1 ok] eqn:Hadd.
      destruct (import_lines P user_id mail_type d1 (i + 1) rest) as [[d2 n2] f2] eqn:Hrest.
      apply add_email_has in Hadd as [_ Hkeep].
      destruct ok; intros [= <- _ _] Hd; eapply IH; eauto.
Qed.

(** Every report is about a line that is not blank, and bears its number. *)
Lemma import_lines_reports lines : forall d i d' n fails f,
  import_lines P user_id mail_type d i lines = (d', n, fails) ->
  In f fails ->
  exists (k : nat) raw, lines !! k = Some raw /\ line f = i + Z.of_nat k + 1 /\
    content f = PyLib.strip P raw /\ classify P raw <> Blank.
Proof.
  induction lines as [| raw rest IH]; intros d i d' n fails f.
  - simpl. intros [= _ _ <-] [].
  - rewrite import_lines_step.
    assert (Hlater : forall d0 d2 n2 f2,
      import_lines P user_id mail_type d0 (i + 1) rest = (d2, n2, f2) -> In f f2 ->
      exists (k : nat) raw0, (raw :: rest) !! k = Some raw0 /\
        line f = i + Z.of_nat k + 1 /\ content f = PyLib.strip P raw0 /\
        classify P raw0 <> Blank).
    { intros d0 d2 n2 f2 Hrest Hin.
      destruct (IH _ _ _ _ _ _ Hrest Hin) as (k & raw0 & Hk & Hl & Hc & Hb).
      exists (S k), raw0. repeat split; try assumption. lia. }
    destruct (classify P raw) as [| why | a b c r] eqn:Hcl.
    + apply Hlater.
    + destruct (import_lines P user_id mail_type d (i + 1) rest) as [[d2 n2] f2] eqn:Hrest.
      intros [= _ _ <-] [<- | Hin]; [| eapply Hlater; eassumption].
      exists O, raw. simpl. repeat split; [lia | congruence].
    + destruct (Store.add_email d user_id a b c r mail_type) as [d1 ok] eqn:Hadd.
      destruct (import_lines P user_id mail_type d1 (i + 1) rest) as [[d2 n2] f2] eqn:Hrest.
      destruct ok; intros [= _ _ <-].
      * eapply Hlater; eassumption.
      * intros [<- | Hin]; [| eapply Hlater; eassumption].
        exists O, raw. simpl. repeat split; [lia | congruence].
Qed.

End WithPython.

(** The import as the specification words it for a mailbox that is not an
    Outlook one: the line [email----password----<kind>] is taken. *)
Definition short_line_accepted (P : Python) (user_id : Z) (d : Store.db)
    (email password kind : str) : Prop :=
  exists d' r,
    import_emails P user_id d
      (Some (email ++ lit "----" ++ password ++ lit "----" ++ kind)) (Some kind)
    = (d', Some r) /\ imp_success r = 1 /\ has_mailbox d' user_id email.

Definition empty_db : Store.db :=
  {| Store.emails := []; Store.mail_records := []; Store.subscriptions := [] |}.

(** C9, as stated, fails: a line of three fields is not imported; the loop
    wants four fields and reports the line. *)
Lemma import_short_line_counterexample :
  ~ short_line_accepted AsciiTable.python 1 empty_db (lit "a@qq.com") (lit "pw") (lit "qq").
Proof.
  intros (d' & r & H & Hs & _). vm_compute in H. injection H as <- <-.
  discriminate Hs.
Qed.

(** The loop, line by line: a blank line is not reported, a malformed one
    is, with its number, and the mailbox of a line of four fields is in
    the store afterwards. *)
Lemma import_lines_classes (P : Python) (user_id : Z) (mail_type : str)
    (lines : list str) : forall (d : Store.db) (i : Z) d' n fails (k : nat) raw,
  import_lines P user_id mail_type d i lines = (d', n, fails) ->
  lines !! k = Some raw ->
  match classify P raw with
  | Blank => unreported fails (i + Z.of_nat k + 1)
  | Malformed why =>
      reported fails (i + Z.of_nat k + 1) (PyLib.strip P raw) why /\
      (why = reason_format \/ why = reason_blank)
  | Fields email password client_id refresh_token =>
      has_mailbox d' user_id email
  end.
Proof.
  induction lines as [| raw0 rest IH]; intros d i d' n fails k raw Hrun Hk.
  - destruct k; discriminate Hk.
  - rewrite import_lines_step in Hrun. destruct k as [| k].
    + simpl in Hk. injection Hk as ->.
      destruct (classify P raw) as [| why | a b c r] eqn:Hcl.
      * intros f Hin Hline.
        destruct (import_lines_reports P user_id mail_type _ _ _ _ _ _ _ Hrun Hin)
          as (j & _ & _ & Hl & _). lia.
      * destruct (import_lines P user_id mail_type d (i + 1) rest) as [[d2 n2] f2].
        injection Hrun as _ _ <-. split.
        -- left. f_equal. lia.
        -- unfold classify in Hcl.
           destruct (negb (truthy (PyLib.strip P raw))); [discriminate |].
           destruct (split (lit "----") (PyLib.strip P raw))
             as [| a [| b [| c [| e [| x l]]]]]; try (left; congruence).
           destruct (truthy a && truthy b && truthy c && truthy e);
             [discriminate | right; congruence].
      * destruct (Store.add_email d user_id a b c r mail_type) as [d1 ok] eqn:Hadd.
        destruct (import_lines P user_id mail_type d1 (i + 1) rest) as [[d2 n2] f2] eqn:Hrest.
        apply add_email_has in Hadd as [Hhas _].
        assert (d' = d2) by (destruct ok; congruence). subst d'.
        eapply import_lines_keeps; eassumption.
    + simpl in Hk.
      assert (Hshift : i + 1 + Z.of_nat k + 1 = i + Z.of_nat (S k) + 1) by lia.
      destruct (classify P raw0) as [| why0 | a0 b0 c0 r0].
      * specialize (IH _ _ _ _ _ _ _ Hrun Hk). rewrite Hshift in IH. exact IH.
      * destruct (import_lines P user_id mail_type d (i + 1) rest) as [[d2 n2] f2] eqn:Hrest.
        injection Hrun as <- _ <-.
        specialize (IH _ _ _ _ _ _ _ Hrest Hk). rewrite Hshift in IH.
        destruct (classify P raw) as [| why | a b c r].
        -- intros f [<- | Hin]; [simpl; lia | apply IH; assumption].
        -- destruct IH as [Hrep Hwhy]. split; [right; exact Hrep | exact Hwhy].
        -- exact IH.
      * destruct (Store.add_email d user_id a0 b0 c0 r0 mail_type) as [d1 ok] eqn:Hadd.
        destruct (import_lines P user_id mail_type d1 (i + 1) rest) as [[d2 n2] f2] eqn:Hrest.
        specialize (IH _ _ _ _ _ _ _ Hrest Hk). rewrite Hshift in IH.
        destruct ok; injection Hrun as <- _ <-; [exact IH |].
        destruct (classify P raw) as [| why | a b c r].
        -- intros f [<- | Hin]; [simpl; lia | apply IH; assumption].
        -- destruct IH as [Hrep Hwhy]. split; [right; exact Hrep | exact Hwhy].
        -- exact IH.
Qed.

(** What the import hands to the store: the lines of four fields, in
    their order, each with the [mail_type] of the request. *)
Fixpoint handed_to_store (P : Python) (user_id : Z) (mail_type : str) (d : Store.db)
    (lines : list str) : Store.db :=
  match lines with
  | [] => d
  | raw :: rest =>
      match classify P raw with
      | Fields email password client_id refresh_token =>
          handed_to_store P user_id mail_type
            (Store.add_email d user_id email password client_id refresh_token
               mail_type).1 rest
      | _ => handed_to_store P user_id mail_type d rest
      end
  end.

Lemma import_lines_store (P : Python) (user_id : Z) (mail_type : str)
    (lines : list str) : forall (d : Store.db) (i : Z),
  (import_lines P user_id mail_type d i lines).1.1
  = handed_to_store P user_id mail_type d lines.
Proof.
  induction lines as [| raw rest IH]; intros d i; [reflexivity |].
  rewrite import_lines_step. cbn [handed_to_store].
  destruct (classify P raw) as [| why | a b c r].
  - apply IH.
  - rewrite <- (IH d (i + 1)).
    destruct (import_lines P user_id mail_type d (i + 1) rest) as [[d2 n2] f2].
    reflexivity.
  - destruct (Store.add_email d user_id a b c r mail_type) as [d1 ok]. cbn [fst].
    rewrite <- (IH d1 (i + 1)).
    destruct (import_lines P user_id mail_type d1 (i + 1) rest) as [[d2 n2] f2].
    destruct ok; reflexivity.
Qed.

(** C9, amended: [import_emails] of a text that is not empty strips the
    text and reads its lines, counted from 1.  A line that is blank once
    stripped is skipped without a report; a line of exactly four
    [----]-separated fields, none empty, is handed to the store with the
    [mail_type] of the request, [outlook] when the request names none, and
    the user has a mailbox of that address afterwards; every other line,
    the three-field [email----password----<kind>] among them, is reported
    with its number and a reason. *)
Theorem import_emails_by_class (P : Python) (user_id : Z) (d : Store.db) (text : str)
    (mail_type : option str) :
  text <> [] ->
  let lines := split newline (PyLib.strip P text) in
  let kind := default (lit "outlook") mail_type in
  exists d' r,
    import_emails P user_id d (Some text) mail_type = (d', Some r) /\
    imp_total r = Z.of_nat (length lines) /\
    d' = handed_to_store P user_id kind d lines /\
    forall (k : nat) raw, lines !! k = Some raw ->
      match classify P raw with
      | Blank => unreported (imp_failed_details r) (Z.of_nat k + 1)
      | Malformed why =>
          reported (imp_failed_details r) (Z.of_nat k + 1) (PyLib.strip P raw) why /\
          (why = reason_format \/ why = reason_blank)
      | Fields email password client_id refresh_token =>
          has_mailbox d' user_id email
      end.
Proof.
  intros Hne. cbv zeta. unfold import_emails. apply truthy_true in Hne. rewrite Hne.
  pose proof (import_lines_store P user_id (default (lit "outlook") mail_type)
                (split newline (PyLib.strip P text)) d 0) as Hstore.
  destruct (import_lines P user_id (default (lit "outlook") mail_type) d 0
              (split newline (PyLib.strip P text))) as [[d' n] fails] eqn:Hrun.
  cbn [fst] in Hstore.
  eexists _, _. split; [reflexivity |]. cbn [imp_total imp_failed_details].
  split; [reflexivity |]. split; [exact Hstore |].
  intros k raw Hk.
  pose proof (import_lines_classes P user_id _ _ d 0 d' n fails k raw Hrun Hk) as H.
  rewrite Z.add_0_l in H. exact H.
Qed.

(** Three lines: an Outlook line, a blank one and a three-field one. *)
Definition sample_lines : list str :=
  [ lit "a@outlook.com----pw----cid----tok"; lit "   "; lit "b@qq.com----pw----qq" ].

(** The three lines as the text of a request, with blanks around. *)
Definition sample_request : str :=
  lit "  a@outlook.com----pw----cid----tok" ++ newline ++ lit "   " ++ newline
  ++ lit "b@qq.com----pw----qq" ++ newline.

Lemma import_emails_by_class_witness :
  exists d' r,
    import_emails AsciiTable.python 1 empty_db (Some sample_request) None
    = (d', Some r) /\
    imp_total r = 3 /\
    map Store.e_mail_type (Store.emails d') = [lit "outlook"] /\
    reported (imp_failed_details r) 3 (lit "b@qq.com----pw----qq") reason_format.
Proof.
  assert (Hne : sample_request <> []) by discriminate.
  destruct (import_emails_by_class AsciiTable.python 1 empty_db sample_request None Hne)
    as (d' & r & Hrun & Htotal & Hstore & Hlines).
  exists d', r. split; [exact Hrun |]. split; [exact Htotal |].
  split; [rewrite Hstore; vm_compute; reflexivity |].
  exact (proj1 (Hlines 2%nat (lit "b@qq.com----pw----qq") eq_refl)).
Defined.

End ImportProps.

(** ** The window of a pull check *)

Module PullProps.
Import GraphApi.

Section WithPython.
Context (P : Python) (net : network).

Lemma fetch_folders_trace access_token since :
  fst (fetch_folders P net access_token since folders_to_check)
  = [ ListRequest (lit "inbox") 100 (filter_param P since);
      ListRequest (lit "junkemail") 100 (filter_param P since) ].
Proof. reflexivity. Qed.

(** The [since] the handler passes on. *)
Definition since_of (email_info : Store.email_row) (d : Store.db) : pytime :=
  if Store.get_mail_count_by_email_id d (Store.e_id email_info) =? 0
  then TNone else time_of (Store.e_last_check_time email_info).

(** The requests of a check: one for a token and, with the token, one
    listing for each of the two folders. *)
Lemma check_mail_trace now email_info d refresh_token client_id :
  Store.e_refresh_token email_info = Some refresh_token ->
  Store.e_client_id email_info = Some client_id ->
  refresh_token <> [] -> client_id <> [] ->
  (check_mail P net now email_info d).1.2
  = TokenRequest refresh_token client_id ::
    match snd (get_new_access_token net refresh_token client_id) with
    | Some _ =>
        [ ListRequest (lit "inbox") 100 (filter_param P (since_of email_info d));
          ListRequest (lit "junkemail") 100 (filter_param P (since_of email_info d)) ]
    | None => []
    end.
Proof.
  intros Hrt Hcid Hr Hc. unfold check_mail. rewrite Hrt, Hcid.
  apply PyProps.truthy_true in Hr, Hc. rewrite Hr, Hc. cbn [andb].
  destruct (get_new_access_token net refresh_token client_id) as [tr1 tok] eqn:Htok.
  unfold get_new_access_token in Htok. injection Htok as <- _. cbn [snd].
  destruct tok as [access_token |]; [| reflexivity].
  pose proof (fetch_folders_trace access_token (since_of email_info d)) as Htr.
  unfold since_of in Htr. unfold is_first_sync.
  destruct (fetch_folders P net access_token _ folders_to_check) as [tr2 records].
  cbn [fst] in Htr. subst tr2. cbv zeta.
  destruct (Z.of_nat (length records) =? 0); [reflexivity |].
  destruct (save_records P _ _ records 0). reflexivity.
Qed.

End WithPython.

(** The window as the specification words it: the listings of a check go
    without a filter when the mailbox has no stored message, and with one
    when it has. *)
Definition window_by_count (P : Python) (net : network) (now : str)
    (email_info : Store.email_row) (d : Store.db) : Prop :=
  forall folder top flt,
    In (ListRequest folder top flt) (check_mail P net now email_info d).1.2 ->
    if Store.get_mail_count_by_email_id d (Store.e_id email_info) =? 0
    then flt = None else flt <> None.

(** A mailbox whose one stored message was uploaded, and that has never
    been checked. *)
Definition unchecked_mailbox : Store.email_row :=
  {| Store.e_id := 1; Store.e_user_id := 1; Store.e_email := lit "a@outlook.com";
     Store.e_password := lit "pw"; Store.e_client_id := Some (lit "cid");
     Store.e_refresh_token := Some (lit "tok"); Store.e_mail_type := lit "outlook";
     Store.e_access_token := None; Store.e_last_check_time := None |}.

Definition uploaded_mail : Store.mail_row :=
  {| Store.m_id := 1; Store.m_email_id := 1; Store.m_subject := lit "hello";
     Store.m_sender := lit "b@example.com";
     Store.m_received_time := Some (lit "2026-01-05 18:58:09");
     Store.m_content := lit "hi"; Store.m_folder := lit "IMPORTED";
     Store.m_has_attachments := 0 |}.

Definition store_with_upload : Store.db :=
  {| Store.emails := [unchecked_mailbox]; Store.mail_records := [uploaded_mail];
     Store.subscriptions := [] |}.

(** A network that grants a token and lists nothing. *)
Definition quiet_net : network :=
  {| token_endpoint := fun _ _ => TokenJson false (Some (lit "access"));
     graph_messages := fun _ _ _ _ => ListOk [];
     graph_subscribe := fun _ _ => Raises |}.

(** C5, as stated, fails: with a stored message but no [last_check_time]
    there is nothing to filter by, and the listing is sent without a
    filter. *)
Lemma window_counterexample :
  ~ window_by_count AsciiTable.python quiet_net (lit "2026-01-06 00:00:00")
      unchecked_mailbox store_with_upload.
Proof.
  intros H.
  specialize (H (lit "inbox") 100 None). vm_compute in H.
  apply H; [right; left; reflexivity | reflexivity].
Qed.

(** C5, amended: the listings of a Graph pull check carry no filter when
    the mailbox has no stored message; when it has one, they carry the
    filter [receivedDateTime ge ...] built from [last_check_time] provided
    that [last_check_time] is set and not empty, and no filter otherwise. *)
Theorem window_by_count_and_check_time (P : Python) (net : network) (now : str)
    (email_info : Store.email_row) (d : Store.db) (refresh_token client_id : str)
    (folder : str) (top : Z) (flt : option str) :
  Store.e_refresh_token email_info = Some refresh_token ->
  Store.e_client_id email_info = Some client_id ->
  refresh_token <> [] -> client_id <> [] ->
  In (ListRequest folder top flt) (check_mail P net now email_info d).1.2 ->
  (Store.get_mail_count_by_email_id d (Store.e_id email_info) = 0 -> flt = None) /\
  (Store.get_mail_count_by_email_id d (Store.e_id email_info) <> 0 ->
   match Store.e_last_check_time email_info with
   | Some last_check_time =>
       if truthy last_check_time
       then exists since, since_str P (TStr last_check_time) = Some since /\
                          flt = Some (lit "receivedDateTime ge " ++ since)
       else flt = None
   | None => flt = None
   end).
Proof.
  intros Hrt Hcid Hr Hc Hin.
  rewrite (check_mail_trace P net now email_info d _ _ Hrt Hcid Hr Hc) in Hin.
  assert (Hflt : flt = filter_param P (since_of email_info d)).
  { destruct Hin as [Hin | Hin]; [discriminate |].
    destruct (get_new_access_token net refresh_token client_id).2; [| destruct Hin].
    destruct Hin as [[= _ _ <-] | [[= _ _ <-] | []]]; reflexivity. }
  subst flt. unfold since_of. split.
  - intros ->. reflexivity.
  - intros Hn. apply Z.eqb_neq in Hn. rewrite Hn.
    destruct (Store.e_last_check_time email_info) as [lct |]; [| reflexivity].
    unfold time_of, filter_param. simpl since_str.
    destruct (truthy lct); [| reflexivity].
    eexists. split; reflexivity.
Qed.

(** The same mailbox once checked: its listings carry the filter. *)
Definition checked_mailbox : Store.email_row :=
  {| Store.e_id := 1; Store.e_user_id := 1; Store.e_email := lit "a@outlook.com";
     Store.e_password := lit "pw"; Store.e_client_id := Some (lit "cid");
     Store.e_refresh_token := Some (lit "tok"); Store.e_mail_type := lit "outlook";
     Store.e_access_token := None;
     Store.e_last_check_time := Some (lit "2026-01-05 18:58:09") |}.

Lemma window_by_count_and_check_time_witness :
  exists since,
    since_str AsciiTable.python (TStr (lit "2026-01-05 18:58:09")) = Some since /\
    Some (lit "receivedDateTime ge 2026-01-05T18:58:09Z")
    = Some (lit "receivedDateTime ge " ++ since).
Proof.
  refine (proj2 (window_by_count_and_check_time AsciiTable.python quiet_net
            (lit "2026-01-06 00:00:00") checked_mailbox store_with_upload
            (lit "tok") (lit "cid") (lit "inbox") 100
            (Some (lit "receivedDateTime ge 2026-01-05T18:58:09Z"))
            eq_refl eq_refl _ _ _) _).
  - discriminate.
  - discriminate.
  - vm_compute. right. left. reflexivity.
  - vm_compute. discriminate.
Defined.

End PullProps.

(** ** Bulk creation of subscriptions *)

Module BulkProps.
Import Webhook.

Definition outlook_mailbox (id : Z) (address : string) : Store.email_row :=
  {| Store.e_id := id; Store.e_user_id := 1; Store.e_email := lit address;
     Store.e_password := lit "pw"; Store.e_client_id := Some (lit "cid");
     Store.e_refresh_token := Some (lit "tok"); Store.e_mail_type := lit "outlook";
     Store.e_access_token := None; Store.e_last_check_time := None |}.

Definition two_mailboxes : Store.db :=
  {| Store.emails := [outlook_mailbox 1 "a@outlook.com"; outlook_mailbox 2 "b@outlook.com"];
     Store.mail_records := []; Store.subscriptions := [] |}.

(** Graph throttles the subscription of mailbox 1 with [Retry-After: 30]
    and creates that of mailbox 2. *)
Definition throttling_net : network :=
  {| token_endpoint := fun _ _ => TokenJson false (Some (lit "access"));
     graph_messages := fun _ _ _ _ => ListOk [];
     graph_subscribe := fun _ client_state =>
       if str_eqb client_state (lit "email_1")
       then Returns {| status_code := 429; retry_after := Some (lit "30");
                       subscription_id := None |}
       else Returns {| status_code := 201; retry_after := None;
                       subscription_id := Some (lit "sub-2") |} |}.

(** [create_subscription] does not sleep. *)
Lemma create_subscription_no_sleep (P : Python) (net : network) (clock : Z)
    (d : Store.db) (e : Store.email_row) (seconds : Z) :
  ~ In (Sleep seconds) (create_subscription P net clock d e).1.2.
Proof.
  destruct (create_subscription P net clock d e) as [[d1 tr] result] eqn:Hc.
  simpl. intros Hin. unfold create_subscription in Hc.
  destruct (Store.e_refresh_token e) as [rt |]; [| injection Hc as _ <- _; destruct Hin].
  destruct (Store.e_client_id e) as [cid |]; [| injection Hc as _ <- _; destruct Hin].
  destruct (truthy rt && truthy cid); [| injection Hc as _ <- _; destruct Hin].
  destruct (Store.get_subscription_by_email_id d (Store.e_id e));
    [injection Hc as _ <- _; destruct Hin |].
  unfold GraphApi.get_new_access_token in Hc.
  destruct (match token_endpoint net rt cid with
            | TokenJson true _ => None
            | TokenJson false (Some t0) => if truthy t0 then Some t0 else None
            | TokenJson false None => None
            | TokenFails => None
            end) as [tok |].
  - destruct (graph_subscribe net tok _) as [resp |].
    + destruct (status_code resp =? 201); [| destruct (status_code resp =? 429)];
        injection Hc as _ <- _;
        destruct Hin as [Hin | [Hin | []]]; discriminate Hin.
    + injection Hc as _ <- _.
      destruct Hin as [Hin | [Hin | []]]; discriminate Hin.
  - injection Hc as _ <- _. destruct Hin as [Hin | []]. discriminate Hin.
Qed.

(** Every pause of the loop is the 2 seconds between two mailboxes or the
    pause between two batches: no answer of Graph changes a pause. *)
Lemma create_loop_sleeps (P : Python) (net : network) (batch_size delay total : Z)
    (emails : list Store.email_row) : forall i clock d t seconds,
  In (Sleep seconds) (create_loop P net batch_size delay total i clock d emails t).1.2 ->
  seconds = 2 \/ seconds = delay.
Proof.
  induction emails as [| e rest IH]; intros i clock d t seconds; simpl.
  - intros [].
  - destruct (Store.get_subscription_by_email_id d (Store.e_id e)).
    + apply IH.
    + pose proof (create_subscription_no_sleep P net clock d e seconds) as Hno.
      destruct (create_subscription P net clock d e) as [[d1 tr] result].
      simpl in Hno.
      destruct (batch_size =? 0).
      { simpl. rewrite in_app_iff. simpl.
        intros [Hin | [[= <-] | []]]; [contradiction | left; reflexivity]. }
      destruct (((i + 1) mod batch_size =? 0) && (i + 1 <? total)).
      * destruct (sleep_returns P delay).
        -- destruct (create_loop P net batch_size delay total (i + 1) _ d1 rest _)
             as [[d2 tr'] t2] eqn:Hl.
           simpl. rewrite in_app_iff. simpl.
           intros [Hin | [[= <-] | [[= <-] | Hin]]];
             [contradiction | left; reflexivity | right; reflexivity |].
           match type of Hl with
           | create_loop _ _ _ _ _ _ ?c _ _ ?t' = _ => apply (IH (i + 1) c d1 t' seconds)
           end.
           rewrite Hl. exact Hin.
        -- simpl. rewrite in_app_iff. simpl.
           intros [Hin | [[= <-] | []]]; [contradiction | left; reflexivity].
      * destruct (create_loop P net batch_size delay total (i + 1) _ d1 rest _)
          as [[d2 tr'] t2] eqn:Hl.
        simpl. rewrite in_app_iff. simpl.
        intros [Hin | [[= <-] | Hin]]; [contradiction | left; reflexivity |].
        match type of Hl with
        | create_loop _ _ _ _ _ _ ?c _ _ ?t' = _ => apply (IH (i + 1) c d1 t' seconds)
        end.
        rewrite Hl. exact Hin.
Qed.

(** C7, the code at a failing input: the subscription of mailbox 1 is
    throttled with [Retry-After: 30], and the loop asks for the
    subscription of mailbox 2 after the usual 2 seconds. *)
Theorem bulk_create_ignores_retry_after :
  create_subscriptions_for_all_outlook_emails AsciiTable.python throttling_net 50 60
    63903236289 two_mailboxes
  = ({| Store.emails := Store.emails two_mailboxes;
        Store.mail_records := [];
        Store.subscriptions :=
          [{| Store.s_email_id := 2; Store.s_subscription_id := Some (lit "sub-2");
              Store.s_resource := inbox_resource;
              Store.s_expiration_time := lit "2026-01-08 17:28:11" |}] |},
     [ TokenRequest (lit "tok") (lit "cid"); SubscribeRequest (lit "email_1"); Sleep 2;
       TokenRequest (lit "tok") (lit "cid"); SubscribeRequest (lit "email_2"); Sleep 2 ],
     Some {| t_created := 1; t_failed := 1; t_skipped := 0 |}).
Proof. vm_compute. reflexivity. Qed.

End BulkProps.

(** ** The store under a fetch *)

Module StoreProps.
Import Store PyProps.

Lemma fresh_id_positive (ids : list Z) : 0 < fresh_id ids.
Proof.
  unfold fresh_id. assert (0 <= foldr Z.max 0 ids); [| lia].
  induction ids as [| i ids IH]; simpl; lia.
Qed.

Lemma opt_str_eqb_eq (a b : option str) : opt_str_eqb a b = true <-> a = b.
Proof.
  destruct a as [a |], b as [b |]; simpl; try (split; congruence).
  rewrite str_eqb_eq. split; congruence.
Qed.

Lemma same_mail_refl email_id subject sender received_time content folder att id :
  same_mail email_id subject sender received_time
    {| m_id := id; m_email_id := email_id; m_subject := subject; m_sender := sender;
       m_received_time := received_time; m_content := content; m_folder := folder;
       m_has_attachments := att |} = true.
Proof.
  unfold same_mail. simpl. rewrite Z.eqb_refl, !str_eqb_refl. simpl.
  apply opt_str_eqb_eq. reflexivity.
Qed.

(** The rows a store has gained over another. *)
Definition new_rows (d d' : db) : list mail_row :=
  drop (length (mail_records d)) (mail_records d').

(** [d'] is [d] with the rows [rows] added. *)
Definition extends (d d' : db) (rows : list mail_row) : Prop :=
  mail_records d' = mail_records d ++ rows /\
  emails d' = emails d /\
  subscriptions d' = subscriptions d /\
  Forall (fun r => m_id r <> 0) rows.

Lemma extends_refl d : extends d d [].
Proof. unfold extends. rewrite !app_nil_r. repeat split. constructor. Qed.

Lemma extends_trans d1 d2 d3 r1 r2 :
  extends d1 d2 r1 -> extends d2 d3 r2 -> extends d1 d3 (r1 ++ r2).
Proof.
  intros (Hm1 & He1 & Hs1 & Hf1) (Hm2 & He2 & Hs2 & Hf2).
  unfold extends. rewrite Hm2, Hm1, He2, He1, Hs2, Hs1, !app_assoc.
  repeat split. apply Forall_app. split; assumption.
Qed.

Lemma extends_new_rows d d' rows : extends d d' rows -> new_rows d d' = rows.
Proof.
  intros (Hm & _). unfold new_rows. rewrite Hm. apply drop_app_length.
Qed.

(** [add_mail_record] either finds the message or adds one row. *)
Lemma add_mail_record_cases d email_id subject sender received_time content folder att :
  let r := add_mail_record d email_id subject sender received_time content folder att in
  (r = (d, (false, None)) \/
   exists row, r = (r.1, (true, Some (m_id row))) /\ extends d r.1 [row]) /\
  existsb (same_mail email_id subject sender received_time) (mail_records r.1) = true.
Proof.
  unfold add_mail_record.
  destruct (existsb _ (mail_records d)) eqn:Hex; simpl.
  - split; [left; reflexivity | exact Hex].
  - split.
    + right.
      match goal with |- context [mail_records d ++ [?r]] => exists r end.
      split; [reflexivity |].
      unfold extends. simpl. repeat split.
      constructor; [| constructor]. simpl.
      pose proof (fresh_id_positive (map m_id (mail_records d))). lia.
    + rewrite existsb_app. simpl. rewrite same_mail_refl.
      rewrite orb_true_r. reflexivity.
Qed.



End StoreProps.

(** ** The push path *)

Module PushProps.
Import Webhook GraphApi PyProps StoreProps.

(** The store holds the message for the mailbox. *)
Definition stored (P : Python) (d : Store.db) (email_id : Z) (msg : message) : Prop :=
  existsb (Store.same_mail email_id (g_subject msg) (g_sender msg)
             (stored_time P (g_received_time msg))) (Store.mail_records d) = true.

Lemma stored_extends P d d' rows email_id msg :
  extends d d' rows -> stored P d email_id msg -> stored P d' email_id msg.
Proof.
  intros (Hm & _) H. unfold stored in *. rewrite Hm, existsb_app, H. reflexivity.
Qed.

Section WithPython.
Context (P : Python) (net : network).

Lemma save_messages_spec email_id messages : forall d saved new d1 saved1 new1,
  save_messages P d email_id messages saved new = (d1, saved1, new1) ->
  exists rows, extends d d1 rows /\ new1 = new ++ map Store.m_id rows /\
    saved1 = saved + Z.of_nat (length rows) /\
    Forall (stored P d1 email_id) messages.
Proof.
  induction messages as [| msg rest IH]; intros d saved new d1 saved1 new1; simpl.
  - intros [= <- <- <-]. exists []. simpl. rewrite app_nil_r.
    split; [apply extends_refl |]. split; [reflexivity |]. split; [lia | constructor].
  - pose proof (add_mail_record_cases d email_id (g_subject msg) (g_sender msg)
                  (stored_time P (g_received_time msg)) (g_content msg) (lit "INBOX")
                  (if g_has_attachments msg then 1 else 0)) as Hcases.
    cbv zeta in Hcases.
    destruct (Store.add_mail_record d email_id _ _ _ _ _ _) as [d0 [ok mid]].
    simpl in Hcases. destruct Hcases as [[Hr | (row & Hr & Hext)] Hst].
    + injection Hr as -> -> ->. intros Hrun.
      destruct (IH _ _ _ _ _ _ Hrun) as (rows & Hext & Hnew & Hsaved & Hall).
      exists rows. split; [assumption |]. split; [assumption |].
      split; [assumption |].
      constructor; [| assumption]. eapply stored_extends; eassumption.
    + injection Hr as -> ->.
      assert (Hid : Store.m_id row <> 0).
      { destruct Hext as (_ & _ & _ & Hf). inversion Hf. assumption. }
      apply Z.eqb_neq in Hid. rewrite Hid. intros Hrun.
      destruct (IH _ _ _ _ _ _ Hrun) as (rows & Hext' & Hnew & Hsaved & Hall).
      exists (row :: rows). split; [| split; [| split]].
      * apply (extends_trans _ _ _ _ _ Hext Hext').
      * rewrite Hnew, <- app_assoc. reflexivity.
      * rewrite Hsaved. simpl length. lia.
      * constructor; [| assumption]. eapply stored_extends; eassumption.
Qed.





End WithPython.

Lemma leave_enter (h h1 : handler) (email_id : Z) :
  enter h email_id = Some h1 -> leave h1 email_id = h.
Proof.
  unfold enter, leave. destruct (decide (email_id ∈ _processing_emails h)) as [| Hn];
    [discriminate |].
  intros [= <-]. destruct h as [s ws]. simpl in *. f_equal.
  apply set_eq. intros x.
  rewrite elem_of_difference, elem_of_union, !elem_of_singleton.
  split; [intros [[-> | Hx] Hne]; [congruence | exact Hx] |].
  intros Hx. split; [right; exact Hx | intros ->; contradiction].
Qed.




(** A mailbox whose refresh token has been revoked. *)
Definition a_mailbox : Store.email_row :=
  {| Store.e_id := 1; Store.e_user_id := 7; Store.e_email := lit "a@outlook.com";
     Store.e_password := lit "pw"; Store.e_client_id := Some (lit "cid");
     Store.e_refresh_token := Some (lit "tok"); Store.e_mail_type := lit "outlook";
     Store.e_access_token := None; Store.e_last_check_time := None |}.

Definition a_store : Store.db :=
  {| Store.emails := [a_mailbox]; Store.mail_records := [];
     Store.subscriptions := [] |}.


Definition idle_handler : handler :=
  {| _processing_emails := ∅; ws_handler := true |}.

Definition created_for_1 : notification :=
  {| changeType := Some (lit "created"); clientState := Some (lit "email_1");
     resource := Some (lit "me/mailFolders('Inbox')/messages") |}.

(** Scenario S1: the push of a message with a code. *)
Definition code_message : raw_message :=
  {| r_id := Some (lit "AAMk1"); r_subject := Some (lit "Your code is 482917");
     r_from_name := Some (lit "Site"); r_from_address := Some (lit "no-reply@site.com");
     r_receivedDateTime := Some (lit "2026-01-05T18:58:09Z");
     r_body_content := Some (lit "Use 482917 to sign in.");
     r_hasAttachments := false |}.

Definition delivering_net : network :=
  {| token_endpoint := fun _ _ => TokenJson false (Some (lit "access"));
     graph_messages := fun _ _ _ _ => ListOk [code_message];
     graph_subscribe := fun _ _ => Raises |}.




End PushProps.

(** ** The router *)

Module RouterProps.
Import Webhook PyProps StoreProps.

Definition ascii_digit (c : char) : bool := (48 <=? c) && (c <=? 57).

(** The pattern [email_<integer>]: the prefix, then decimal digits, at
    least one. *)
Definition email_pattern (client_state : str) : bool :=
  startswith (lit "email_") client_state
  && truthy (drop 6 client_state)
  && forallb ascii_digit (drop 6 client_state).

(** The number a run of decimal digits writes. *)
Fixpoint decimal_value (digits : str) (acc : Z) : Z :=
  match digits with
  | [] => acc
  | c :: rest => decimal_value rest (10 * acc + (c - 48))
  end.

Lemma startswith_app (p s : str) : startswith p s = true -> s = p ++ drop (length p) s.
Proof.
  revert s. induction p as [| x p IH]; intros [| y s]; simpl; try congruence.
  rewrite andb_true_iff, char_eqb_eq. intros [-> H]. f_equal. apply IH. exact H.
Qed.

Lemma startswith_self_app (p s : str) : startswith p (p ++ s) = true.
Proof.
  induction p as [| x p IH]; simpl; [reflexivity |].
  unfold char_eqb. rewrite Z.eqb_refl. exact IH.
Qed.

Lemma startswith_head_ne (x c : char) (p s : str) :
  x <> c -> startswith (x :: p) (c :: s) = false.
Proof.
  intros H. simpl. unfold char_eqb. destruct (x =? c) eqn:E; [lia | reflexivity].
Qed.

Lemma replace_from_cons (old new : str) (c : char) (s : str) :
  replace_from old new O (c :: s)
  = if startswith old (c :: s)
    then new ++ replace_from old new (Nat.pred (length old)) s
    else c :: replace_from old new O s.
Proof. reflexivity. Qed.

Lemma replace_from_skip (old new pre s : str) :
  replace_from old new (length pre) (pre ++ s) = replace_from old new O s.
Proof.
  induction pre as [| x pre IH]; [reflexivity |]. exact IH.
Qed.

(** An occurrence at the head of the text is replaced. *)
Lemma replace_old_app (old new : str) (x : char) (s : str) :
  replace (x :: old) new ((x :: old) ++ s) = new ++ replace (x :: old) new s.
Proof.
  unfold replace. change ((x :: old) ++ s) with (x :: (old ++ s)).
  rewrite replace_from_cons.
  change (x :: (old ++ s)) with ((x :: old) ++ s). rewrite startswith_self_app.
  change (Nat.pred (length (x :: old))) with (length old).
  rewrite replace_from_skip. reflexivity.
Qed.

Lemma replace_digits (digits : str) :
  forallb ascii_digit digits = true -> replace (lit "email_") [] digits = digits.
Proof.
  unfold replace. change (lit "email_") with (101 :: lit "mail_").
  induction digits as [| c rest IH]; [reflexivity |].
  intros H. apply andb_true_iff in H as [Hc Hrest].
  unfold ascii_digit in Hc. apply andb_true_iff in Hc as [H1 H2].
  rewrite replace_from_cons, startswith_head_ne by lia.
  rewrite IH by assumption. reflexivity.
Qed.

Section WithPython.
Context (P : Python).

Lemma int_digit_ascii c : ascii_digit c = true -> PyLib.int_digit P c = Some (c - 48).
Proof.
  unfold ascii_digit, PyLib.int_digit. intros H. rewrite H.
  apply andb_true_iff in H as [H1 H2]. destruct (c <? 127) eqn:E; [reflexivity | lia].
Qed.

Lemma int_span_digits digits :
  forallb ascii_digit digits = true -> PyLib.int_span P digits = (digits, []).
Proof.
  induction digits as [| c rest IH]; simpl; [reflexivity |].
  rewrite andb_true_iff. intros [Hc Hrest]. unfold PyLib.int_token_char.
  rewrite (int_digit_ascii c Hc), (IH Hrest). reflexivity.
Qed.

Lemma int_digits_digits digits : forall prev acc n,
  forallb ascii_digit digits = true ->
  digits <> [] \/ prev = false ->
  PyLib.int_digits P digits prev acc n
  = Some (decimal_value digits acc, (n + length digits)%nat).
Proof.
  induction digits as [| c rest IH]; intros prev acc n; simpl.
  - intros _ [H | ->]; [congruence |]. rewrite Nat.add_0_r. reflexivity.
  - rewrite andb_true_iff. intros [Hc Hrest] _.
    rewrite (int_digit_ascii c Hc), (IH false _ _ Hrest) by (right; reflexivity).
    do 2 f_equal. lia.
Qed.

(** [int] reads a run of decimal digits as the number it writes. *)
Lemma py_int_digits digits :
  digits <> [] -> forallb ascii_digit digits = true ->
  PyLib.within_max_digits P (length digits) = true ->
  PyLib.py_int P digits = Some (decimal_value digits 0).
Proof.
  intros Hne Hall Hmax. unfold PyLib.py_int.
  destruct digits as [| c rest]; [congruence |].
  assert (Hc : ascii_digit c = true) by (simpl in Hall; apply andb_true_iff in Hall; tauto).
  unfold ascii_digit in Hc. apply andb_true_iff in Hc as [H1 H2].
  assert (Hsp : PyLib.int_space P c = false).
  { unfold PyLib.int_space. destruct (c <? 127) eqn:E; [| lia].
    destruct (9 <=? c) eqn:E1, (c <=? 13) eqn:E2, (c =? 32) eqn:E3; simpl; try reflexivity; lia. }
  simpl lstrip_by. rewrite Hsp. unfold PyLib.int_signed.
  destruct (c =? 45) eqn:E1; [lia |]. destruct (c =? 43) eqn:E2; [lia |].
  rewrite (int_span_digits _ Hall).
  rewrite (int_digits_digits _ true 0 O Hall) by (left; discriminate).
  change (0 + length (c :: rest))%nat with (length (c :: rest)).
  rewrite Hmax. reflexivity.
Qed.

(** A [clientState] of the pattern is taken, with the number it writes. *)
Lemma parse_client_state_pattern client_state :
  email_pattern client_state = true ->
  PyLib.within_max_digits P (length (drop 6 client_state)) = true ->
  parse_client_state P client_state = Some (decimal_value (drop 6 client_state) 0).
Proof.
  unfold email_pattern. rewrite !andb_true_iff. intros [[Hpre Hne] Hall] Hmax.
  unfold parse_client_state. rewrite Hpre.
  rewrite (startswith_app _ _ Hpre) at 1. change (length (lit "email_")) with 6%nat.
  assert (Hrep : replace (lit "email_") [] (lit "email_" ++ drop 6 client_state)
                 = drop 6 client_state).
  { rewrite <- (replace_digits _ Hall) at 2.
    change (lit "email_") with (101 :: lit "mail_").
    apply (replace_old_app (lit "mail_") [] 101). }
  rewrite Hrep. apply py_int_digits; [apply truthy_true; exact Hne | exact Hall | exact Hmax].
Qed.

End WithPython.

(** *** The [clientState] a subscription is created with *)

Lemma decimal_value_app (a b : str) (acc : Z) :
  decimal_value (a ++ b) acc = decimal_value b (decimal_value a acc).
Proof.
  revert acc. induction a as [| c a IH]; intros acc; simpl; [reflexivity | apply IH].
Qed.

(** The digits [str] writes for a number that is not negative. *)
Lemma digits_of_spec (fuel : nat) : forall n acc,
  (0 < fuel)%nat -> 0 <= n < 2 ^ Z.of_nat fuel ->
  exists digits,
    digits_of fuel n acc = digits ++ acc /\ digits <> [] /\
    forallb ascii_digit digits = true /\
    forall a, decimal_value digits a = a * 10 ^ Z.of_nat (length digits) + n.
Proof.
  induction fuel as [| fuel IH]; intros n acc Hfuel Hn.
  - lia.
  - simpl digits_of. destruct (n <? 10) eqn:Hlt.
    + exists [48 + n mod 10]. apply Z.ltb_lt in Hlt.
      rewrite Z.mod_small by lia. repeat split.
      * discriminate.
      * unfold ascii_digit. simpl.
        destruct (48 <=? 48 + n) eqn:E1, (48 + n <=? 57) eqn:E2; try reflexivity; lia.
      * intros a. simpl. lia.
    + apply Z.ltb_ge in Hlt.
      assert (Hdiv : 0 <= n / 10 < 2 ^ Z.of_nat fuel).
      { split; [apply Z.div_pos; lia |].
        rewrite Nat2Z.inj_succ, Z.pow_succ_r in Hn by lia.
        apply Z.div_lt_upper_bound; lia. }
      assert (Hone : 1 <= n / 10) by (apply Z.div_le_lower_bound; lia).
      assert (Hpos : (0 < fuel)%nat).
      { destruct fuel; [simpl in Hdiv; lia | lia]. }
      destruct (IH (n / 10) ((48 + n mod 10) :: acc) Hpos Hdiv)
        as (digits & Hd & Hne & Hall & Hval).
      exists (digits ++ [48 + n mod 10]). repeat split.
      * rewrite Hd, <- app_assoc. reflexivity.
      * destruct digits; discriminate.
      * rewrite forallb_app, Hall. unfold ascii_digit. simpl.
        pose proof (Z.mod_pos_bound n 10 ltac:(lia)) as Hm.
        destruct (48 <=? 48 + n mod 10) eqn:E1, (48 + n mod 10 <=? 57) eqn:E2;
          try reflexivity; lia.
      * intros a. rewrite decimal_value_app, Hval, length_app. simpl.
        rewrite Nat2Z.inj_add, Z.pow_add_r by lia.
        pose proof (Z.div_mod n 10 ltac:(lia)) as Hdm.
        change (Z.of_nat 1) with 1. rewrite Z.pow_1_r. lia.
Qed.

Lemma str_of_int_digits (n : Z) :
  0 <= n ->
  str_of_int n <> [] /\ forallb ascii_digit (str_of_int n) = true /\
  decimal_value (str_of_int n) 0 = n.
Proof.
  intros Hn. unfold str_of_int. destruct (n <? 0) eqn:Hneg; [lia |].
  assert (Hb : 0 <= n < 2 ^ Z.of_nat (S (Z.to_nat (Z.log2 n)))).
  { split; [exact Hn |]. rewrite Nat2Z.inj_succ, Z2Nat.id by apply Z.log2_nonneg.
    destruct (Z.eq_dec n 0) as [-> | Hne]; [reflexivity |].
    apply Z.log2_spec. lia. }
  destruct (digits_of_spec _ n [] (Nat.lt_0_succ _) Hb)
    as (digits & Hd & Hne & Hall & Hval).
  rewrite Hd, app_nil_r. repeat split; try assumption.
  rewrite Hval. lia.
Qed.

(** The [clientState] that [create_subscription] writes for a mailbox is
    read by the router as that mailbox. *)
Lemma client_state_roundtrip (P : Python) (email_id : Z) :
  0 <= email_id ->
  PyLib.within_max_digits P (length (str_of_int email_id)) = true ->
  parse_client_state P (client_state_of email_id) = Some email_id.
Proof.
  intros Hn Hmax. destruct (str_of_int_digits email_id Hn) as (Hne & Hall & Hval).
  assert (Hdrop : drop 6 (client_state_of email_id) = str_of_int email_id)
    by reflexivity.
  transitivity (Some (decimal_value (drop 6 (client_state_of email_id)) 0));
    [| rewrite Hdrop, Hval; reflexivity].
  apply parse_client_state_pattern.
  - unfold email_pattern. rewrite Hdrop, Hall.
    unfold client_state_of. rewrite startswith_self_app.
    apply truthy_true in Hne. rewrite Hne. reflexivity.
  - rewrite Hdrop. exact Hmax.
Qed.

(** The router as the specification words it: a [clientState] is taken
    exactly when it is of the pattern [email_<integer>]. *)
Definition takes_exactly_the_pattern (P : Python) (client_state : str) : Prop :=
  is_Some (parse_client_state P client_state) <-> email_pattern client_state = true.

(** C2, as stated, fails: [str.replace] deletes every [email_], so that
    [email_email_7] is read as mailbox 7 though it is not of the pattern. *)
Lemma client_state_counterexample :
  ~ takes_exactly_the_pattern AsciiTable.python (lit "email_email_7").
Proof.
  intros [H _]. assert (Hs : is_Some (parse_client_state AsciiTable.python (lit "email_email_7"))).
  { exists 7. reflexivity. }
  specialize (H Hs). vm_compute in H. discriminate H.
Qed.

(** C2, amended: every [clientState] of the pattern [email_<digits>]
    (within the digit limit of [int]) is taken, with the id the digits
    write; a [clientState] is taken exactly when it starts with [email_] and
    [int] reads what is left once every [email_] is deleted; a notification
    whose [clientState] is not taken, or whose mailbox does not exist, is
    discarded with no request and no change of the store or the handler;
    and so is every notification whose [changeType] is not [created]. *)
Theorem router_discards (P : Python) (net : network) (now : str) (h : handler)
    (d : Store.db) (n : notification) :
  let client_state := default [] (clientState n) in
  let run := _process_single_notification P net now h d n in
  (email_pattern client_state = true ->
   PyLib.within_max_digits P (length (drop 6 client_state)) = true ->
   parse_client_state P client_state = Some (decimal_value (drop 6 client_state) 0)) /\
  (forall email_id, parse_client_state P client_state = Some email_id <->
   startswith (lit "email_") client_state = true /\
   PyLib.py_int P (replace (lit "email_") [] client_state) = Some email_id) /\
  (parse_client_state P client_state = None -> run = (h, d, [])) /\
  (forall email_id, parse_client_state P client_state = Some email_id ->
   Store.get_email_by_id d email_id = None -> run = (h, d, [])) /\
  (changeType n <> Some (lit "created") -> run = (h, d, [])).
Proof.
  cbv zeta. split; [apply parse_client_state_pattern |].
  split.
  { intros email_id. unfold parse_client_state.
    destruct (startswith (lit "email_") (default [] (clientState n)));
      [tauto | split; [discriminate | intros [H _]; discriminate H]]. }
  unfold _process_single_notification. split; [| split].
  - intros ->. reflexivity.
  - intros email_id -> ->. reflexivity.
  - intros Hct.
    destruct (parse_client_state P (default [] (clientState n))) as [email_id |];
      [| reflexivity].
    destruct (Store.get_email_by_id d email_id); [| reflexivity].
    destruct (Store.opt_str_eqb (changeType n) (Some (lit "created"))) eqn:Heq;
      [| reflexivity].
    apply opt_str_eqb_eq in Heq. contradiction.
Qed.

Definition updated_for_1 : notification :=
  {| changeType := Some (lit "updated"); clientState := Some (lit "email_1");
     resource := None |}.

Lemma router_discards_witness :
  parse_client_state AsciiTable.python (lit "email_1") = Some 1 /\
  _process_single_notification AsciiTable.python PushProps.delivering_net
    (lit "2026-01-05 18:58:11") PushProps.idle_handler PushProps.a_store updated_for_1
  = (PushProps.idle_handler, PushProps.a_store, []).
Proof.
  pose proof (router_discards AsciiTable.python PushProps.delivering_net
                (lit "2026-01-05 18:58:11") PushProps.idle_handler PushProps.a_store
                updated_for_1) as H.
  cbv zeta in H. destruct H as (Hpat & _ & _ & _ & Hct). split.
  - apply Hpat; reflexivity.
  - apply Hct. discriminate.
Defined.

End RouterProps.

(** ** Jobs of one mailbox *)

Module ExclusionProps.
Import Exclusion.

(** How many times a job is in flight. *)
Definition count (j : entry * Z) (jobs : list (entry * Z)) : nat :=
  length (filter (fun x => x = j) jobs).

Lemma count_cons j x jobs :
  count j (x :: jobs) = ((if decide (x = j) then 1 else 0) + count j jobs)%nat.
Proof.
  unfold count. rewrite filter_cons. destruct (decide (x = j)); reflexivity.
Qed.

Lemma count_positive j jobs : j ∈ jobs -> (0 < count j jobs)%nat.
Proof.
  induction jobs as [| x jobs IH]; [intros H; inversion H |].
  rewrite count_cons. intros H. apply elem_of_cons in H as [Heq | H].
  - destruct (decide (x = j)); [lia | congruence].
  - specialize (IH H). lia.
Qed.

Lemma count_member j jobs : (0 < count j jobs)%nat -> j ∈ jobs.
Proof.
  unfold count. intros H.
  destruct (filter (fun x => x = j) jobs) as [| x l] eqn:Hf; [simpl in H; lia |].
  assert (Hx : x ∈ filter (fun x => x = j) jobs) by (rewrite Hf; apply list_elem_of_here).
  apply list_elem_of_filter in Hx as [-> Hx]. exact Hx.
Qed.

Lemma count_remove_same j jobs :
  j ∈ jobs -> (count j (remove_job j jobs) + 1 = count j jobs)%nat.
Proof.
  induction jobs as [| x jobs IH]; [intros H; inversion H |].
  intros H. simpl. rewrite count_cons. destruct (decide (x = j)) as [-> | Hne].
  - lia.
  - rewrite count_cons. destruct (decide (x = j)); [contradiction |].
    apply elem_of_cons in H as [Heq | H]; [congruence |]. exact (IH H).
Qed.

Lemma count_remove_other j j' jobs :
  j <> j' -> count j (remove_job j' jobs) = count j jobs.
Proof.
  intros Hne. induction jobs as [| x jobs IH]; [reflexivity |].
  simpl. destruct (decide (x = j')) as [-> | Hx].
  - rewrite count_cons. destruct (decide (j' = j)); [congruence | reflexivity].
  - rewrite !count_cons, IH. reflexivity.
Qed.

(** A push job is in flight for a mailbox exactly when the handler holds
    the mailbox in [_processing_emails], and then once. *)
Definition push_invariant (s : system) : Prop :=
  forall email_id,
    count (Push, email_id) (sys_jobs s)
    = if bool_decide (email_id ∈ Webhook._processing_emails (sys_handler s))
      then 1%nat else 0%nat.

Lemma push_invariant_initial d ws : push_invariant (initial d ws).
Proof.
  intros email_id. simpl. rewrite bool_decide_eq_false_2; [reflexivity |].
  apply not_elem_of_empty.
Qed.

Lemma push_invariant_exec s a : push_invariant s -> push_invariant (exec s a).
Proof.
  intros Hinv. destruct a as [id0 | id0 | u id0 | id0]; simpl.
  - unfold Webhook.enter.
    destruct (decide (id0 ∈ Webhook._processing_emails (sys_handler s))) as [Hin | Hout];
      [exact Hinv |].
    intros email_id. simpl. rewrite count_cons, Hinv.
    destruct (decide ((Push, id0) = (Push, email_id))) as [[= <-] | Hne].
    + rewrite (bool_decide_eq_false_2 _ Hout), bool_decide_eq_true_2; [reflexivity |].
      apply elem_of_union. left. apply elem_of_singleton. reflexivity.
    + simpl. apply (f_equal (fun b : bool => if b then 1%nat else 0%nat)).
      apply bool_decide_ext. rewrite elem_of_union, elem_of_singleton.
      split; [auto | intros [-> | H]; [congruence | exact H]].
  - destruct (bool_decide ((Push, id0) ∈ sys_jobs s)) eqn:Hjob; [| exact Hinv].
    apply bool_decide_eq_true in Hjob. intros email_id. simpl.
    destruct (decide (email_id = id0)) as [-> | Hne].
    + pose proof (count_remove_same _ _ Hjob) as Hrem.
      pose proof (count_positive _ _ Hjob) as Hpos. rewrite Hinv in Hrem, Hpos.
      destruct (bool_decide (id0 ∈ Webhook._processing_emails (sys_handler s))); [| lia].
      rewrite bool_decide_eq_false_2; [lia |].
      rewrite elem_of_difference, elem_of_singleton. tauto.
    + rewrite count_remove_other by congruence. rewrite Hinv.
      apply (f_equal (fun b : bool => if b then 1%nat else 0%nat)).
      apply bool_decide_ext. rewrite elem_of_difference, elem_of_singleton. tauto.
  - destruct (Endpoints.check_email (sys_processor s) (sys_db s) u id0);
      [exact Hinv | exact Hinv | exact Hinv |].
    intros email_id. simpl. rewrite count_cons.
    destruct (decide ((Pull, id0) = (Push, email_id))); [discriminate |]. apply Hinv.
  - destruct (bool_decide ((Pull, id0) ∈ sys_jobs s)); [| exact Hinv].
    intros email_id. simpl. rewrite count_remove_other by discriminate. apply Hinv.
Qed.

Lemma push_invariant_run acts : forall s, push_invariant s -> push_invariant (run s acts).
Proof.
  induction acts as [| a acts IH]; intros s Hinv; [exact Hinv |].
  simpl. apply IH. apply push_invariant_exec. exact Hinv.
Qed.

(** No action changes the store of the system. *)
Lemma sys_db_exec s a : sys_db (exec s a) = sys_db s.
Proof.
  destruct a as [id0 | id0 | u id0 | id0]; simpl.
  - destruct (Webhook.enter (sys_handler s) id0); reflexivity.
  - destruct (bool_decide ((Push, id0) ∈ sys_jobs s)); reflexivity.
  - destruct (Endpoints.check_email (sys_processor s) (sys_db s) u id0); reflexivity.
  - destruct (bool_decide ((Pull, id0) ∈ sys_jobs s)); reflexivity.
Qed.

Lemma sys_db_run acts : forall s, sys_db (run s acts) = sys_db s.
Proof.
  induction acts as [| a acts IH]; intros s; [reflexivity |].
  simpl. rewrite IH. apply sys_db_exec.
Qed.

(** What [check_email] answers while the processor reports the mailbox. *)
Lemma check_email_while_processed p d current_user email_id :
  App.is_email_being_processed p email_id = true ->
  Endpoints.check_email p d current_user email_id
  = match Store.get_email_by_id d email_id with
    | None => Endpoints.NotFound404
    | Some email_info =>
        if Store.e_user_id email_info =? Endpoints.u_id current_user
        then Endpoints.Processing409 else Endpoints.Forbidden403
    end.
Proof.
  intros Hp. unfold Endpoints.check_email. rewrite Hp.
  destruct (Store.get_email_by_id d email_id) as [email_info |]; [| reflexivity].
  destruct (Store.e_user_id email_info =? Endpoints.u_id current_user); reflexivity.
Qed.

(** The ids [batch_check_emails] hands to [check_emails] are not being
    processed. *)
Lemma batch_check_valid_ids p d current_user email_ids valid_ids skipped total :
  Endpoints.batch_check_emails p d current_user email_ids
  = Endpoints.Started valid_ids skipped total ->
  forall email_id, email_id ∈ valid_ids ->
                   App.is_email_being_processed p email_id = false.
Proof.
  unfold Endpoints.batch_check_emails, App.batch_check_filter.
  destruct (Endpoints.requested_ids d current_user email_ids) as [| i ids];
    [discriminate |].
  destruct (filter (fun i0 => App.is_email_being_processed p i0 = false) (i :: ids))
    as [| v valid] eqn:Hf; [discriminate |].
  intros [= <- _ _] email_id Hin. rewrite <- Hf in Hin.
  apply list_elem_of_filter in Hin as [Hv _]. exact Hv.
Qed.

(** Mutual exclusion as the specification words it: whatever the entry
    points, at most one job is in flight for a mailbox. *)
Definition one_job_per_mailbox (d : Store.db) (ws : bool) (acts : list action) : Prop :=
  forall email_id, (length (jobs_of (run (initial d ws) acts) email_id) <= 1)%nat.

(** The owner of mailbox 1 of [PushProps.a_store]. *)
Definition owner : Endpoints.user := {| Endpoints.u_id := 7; Endpoints.is_admin := false |}.

(** C4, as stated, fails: the handler looks only at its own
    [_processing_emails]; the notification for a mailbox that a pull check
    of its owner is working on starts a fetch of the same mailbox. *)
Lemma exclusion_counterexample :
  ~ one_job_per_mailbox PushProps.a_store true [Check owner 1; Notify 1].
Proof.
  intros H. specialize (H 1). vm_compute in H. lia.
Qed.

(** C4, amended: at no time do two push fetches of one mailbox run
    together: a [created] notification for a mailbox is dropped while a
    push fetch of it is in flight, and only then, whatever the pull path is
    doing.  While the batch processor reports a mailbox as being processed,
    a single check of it starts no job: [check_email] answers 404 for an
    unknown id, 403 for the mailbox of another user, and 409 for the
    caller's own; and [batch_check_emails] leaves the mailbox out of the
    ids it hands to [check_emails]. *)
Theorem exclusion_per_entry_point (d : Store.db) (ws : bool) (acts : list action)
    (email_id : Z) (current_user : Endpoints.user) (email_ids : list Z) :
  let s := run (initial d ws) acts in
  (length (push_jobs_of s email_id) <= 1)%nat /\
  ((Push, email_id) ∈ sys_jobs s -> exec s (Notify email_id) = s) /\
  ((Push, email_id) ∉ sys_jobs s ->
   sys_jobs (exec s (Notify email_id)) = (Push, email_id) :: sys_jobs s) /\
  (App.is_email_being_processed (sys_processor s) email_id = true ->
   Endpoints.check_email (sys_processor s) d current_user email_id
   = match Store.get_email_by_id d email_id with
     | None => Endpoints.NotFound404
     | Some email_info =>
         if Store.e_user_id email_info =? Endpoints.u_id current_user
         then Endpoints.Processing409 else Endpoints.Forbidden403
     end /\
   exec s (Check current_user email_id) = s /\
   forall valid_ids skipped total,
     Endpoints.batch_check_emails (sys_processor s) d current_user email_ids
     = Endpoints.Started valid_ids skipped total ->
     email_id ∉ valid_ids).
Proof.
  cbv zeta. pose proof (push_invariant_run acts _ (push_invariant_initial d ws)) as Hinv.
  pose proof (sys_db_run acts (initial d ws)) as Hdb. simpl in Hdb.
  set (s := run (initial d ws) acts) in *. split; [| split; [| split]].
  - change (length (push_jobs_of s email_id)) with (count (Push, email_id) (sys_jobs s)).
    rewrite Hinv. destruct (bool_decide _); lia.
  - intros Hjob. apply count_positive in Hjob. rewrite Hinv in Hjob.
    destruct (bool_decide (email_id ∈ Webhook._processing_emails (sys_handler s))) eqn:Hb;
      [| lia].
    apply bool_decide_eq_true in Hb. simpl. unfold Webhook.enter.
    destruct (decide (email_id ∈ Webhook._processing_emails (sys_handler s)));
      [reflexivity | contradiction].
  - intros Hjob. simpl. unfold Webhook.enter.
    destruct (decide (email_id ∈ Webhook._processing_emails (sys_handler s))) as [Hin |];
      [| reflexivity].
    exfalso. apply Hjob. apply count_member. rewrite Hinv.
    rewrite bool_decide_eq_true_2 by exact Hin. lia.
  - intros Hp.
    pose proof (check_email_while_processed _ d current_user _ Hp) as Hcheck.
    split; [exact Hcheck |]. split.
    + simpl. rewrite Hdb, Hcheck.
      destruct (Store.get_email_by_id d email_id) as [email_info |]; [| reflexivity].
      destruct (Store.e_user_id email_info =? Endpoints.u_id current_user); reflexivity.
    + intros valid_ids skipped total Hb Hin.
      pose proof (batch_check_valid_ids _ _ _ _ _ _ _ Hb _ Hin) as Hv. congruence.
Qed.

(** A second notification for mailbox 1 is dropped while its push fetch
    runs, and a second check of mailbox 1 by its owner gets 409 while the
    first one runs. *)
Lemma exclusion_per_entry_point_witness :
  exec (run (initial PushProps.a_store true) [Notify 1]) (Notify 1)
  = run (initial PushProps.a_store true) [Notify 1] /\
  Endpoints.check_email
    (sys_processor (run (initial PushProps.a_store true) [Check owner 1]))
    PushProps.a_store owner 1 = Endpoints.Processing409.
Proof.
  split.
  - apply (exclusion_per_entry_point PushProps.a_store true [Notify 1] 1 owner []).
    vm_compute. apply list_elem_of_here.
  - exact (proj1 (proj2 (proj2 (proj2
      (exclusion_per_entry_point PushProps.a_store true [Check owner 1] 1 owner [])))
      eq_refl)).
Defined.

End ExclusionProps.

(** ** What a pattern captures *)

Module ReProps.
Import Re.

(** The class is [\d]. *)
Definition is_digit_cls (k : cls) : bool :=
  match cls_chars k with
  | [] => negb (cls_space k) && cls_digit k
  | _ :: _ => false
  end.

(** Every group of the pattern is [(\d{4,8})]. *)
Fixpoint groups_are_digits (r : re) : bool :=
  match r with
  | Grp (Rep 4 8 k) => is_digit_cls k
  | Grp _ => false
  | Seq a b | Alt a b => groups_are_digits a && groups_are_digits b
  | _ => true
  end.

(** Every match of the pattern goes through its group. *)
Fixpoint sets_group (r : re) : bool :=
  match r with
  | Grp _ => true
  | Seq a b => sets_group a || sets_group b
  | Alt a b => sets_group a && sets_group b
  | _ => false
  end.

Section WithPython.
Context (P : Python).

(** 4 to 8 characters, all decimal digits. *)
Definition digits_4_8 (w : str) : Prop :=
  (4 <= length w <= 8)%nat /\ Forall (fun c => is_Some (u_decimal P c)) w.

(** The capture is of 4 to 8 digits; it may be missing unless [must]. *)
Definition capture_ok (must : bool) (cap : option str) : Prop :=
  match cap with
  | Some w => digits_4_8 w
  | None => must = false
  end.

Lemma capture_ok_weaken (m1 m2 : bool) cap :
  (m2 = true -> m1 = true) -> capture_ok m1 cap -> capture_ok m2 cap.
Proof.
  destruct cap; simpl; [auto |]. intros H ->. destruct m2; [| reflexivity].
  symmetry. apply H. reflexivity.
Qed.

Lemma in_digit_cls k c :
  is_digit_cls k = true -> in_cls P k c = true -> is_Some (u_decimal P c).
Proof.
  unfold is_digit_cls, in_cls. destruct (cls_chars k); [| discriminate].
  destruct (cls_space k); [discriminate |]. simpl.
  intros _ H. apply andb_true_iff in H as [_ H].
  apply bool_decide_eq_true in H. exact H.
Qed.

Section Backtrack.
Context {R : Type}.

Lemma star_inv k : forall s prev (cont : kont (R := R)) x,
  star P k prev s cont = Some x -> exists pv rest, cont pv rest = Some x.
Proof.
  induction s as [| c s IH]; intros prev cont x; simpl.
  - eauto.
  - destruct (in_cls P k c); [| eauto].
    destruct (star P k (Some c) s cont) as [y |] eqn:Hs; [| eauto].
    intros [= <-]. eapply IH. exact Hs.
Qed.

Lemma stop_at_inv lo prev s (cont : kont (R := R)) x :
  stop_at lo prev s cont = Some x -> lo = O /\ cont prev s = Some x.
Proof. destruct lo; simpl; [auto | discriminate]. Qed.

(** A repetition hands over what follows a run of [lo] to [hi] characters
    of the class. *)
Lemma rep_inv k : forall hi lo prev s (cont : kont (R := R)) x,
  rep P k lo hi prev s cont = Some x ->
  exists pre rest pv,
    s = pre ++ rest /\ Forall (fun c => in_cls P k c = true) pre /\
    (lo <= length pre <= hi)%nat /\ cont pv rest = Some x.
Proof.
  assert (Hstop : forall lo hi prev s (cont : kont (R := R)) x,
    stop_at lo prev s cont = Some x ->
    exists pre rest pv,
      s = pre ++ rest /\ Forall (fun c => in_cls P k c = true) pre /\
      (lo <= length pre <= hi)%nat /\ cont pv rest = Some x).
  { intros lo hi prev s cont x H. apply stop_at_inv in H as [-> H].
    exists [], s, prev. repeat split; [constructor | simpl; lia | simpl; lia | exact H]. }
  induction hi as [| hi IH]; intros lo prev s cont x; simpl.
  - apply Hstop.
  - destruct s as [| c s]; [apply Hstop |].
    destruct (in_cls P k c) eqn:Hc; [| apply Hstop].
    destruct (rep P k (Nat.pred lo) hi (Some c) s cont) as [y |] eqn:Hr; [| apply Hstop].
    intros [= <-]. destruct (IH _ _ _ _ _ Hr) as (pre & rest & pv & -> & Hall & Hlen & Hk).
    exists (c :: pre), rest, pv. repeat split.
    + constructor; assumption.
    + simpl. lia.
    + simpl. lia.
    + exact Hk.
Qed.

Lemma take_consumed (pre rest : str) :
  take (length (pre ++ rest) - length rest) (pre ++ rest) = pre.
Proof.
  rewrite length_app. replace (length pre + length rest - length rest)%nat
    with (length pre) by lia.
  apply take_app_length.
Qed.

End Backtrack.

(** Whatever way a match takes, the continuation is run with a capture of
    4 to 8 digits. *)
Lemma rmatch_capture (r : re) : forall (R : Type) prev s cap
    (cont : option char -> str -> option str -> option R) x must,
  groups_are_digits r = true -> capture_ok must cap ->
  rmatch P r prev s cap cont = Some x ->
  exists pv rest cap', capture_ok (must || sets_group r) cap' /\
                       cont pv rest cap' = Some x.
Proof.
  induction r as [p | k | k | lo hi k | | r IHr | a IHa b IHb | a IHa b IHb];
    intros R prev s cap cont x must Hg Hcap; cbn [rmatch sets_group].
  - destruct s as [| c s]; [discriminate |]. destruct (u_ci_eq P p c); [| discriminate].
    intros H. exists (Some c), s, cap. rewrite orb_false_r. auto.
  - intros H. apply star_inv in H as (pv & rest & H).
    exists pv, rest, cap. rewrite orb_false_r. auto.
  - destruct s as [| c s]; [discriminate |]. destruct (in_cls P k c); [| discriminate].
    intros H. apply star_inv in H as (pv & rest & H).
    exists pv, rest, cap. rewrite orb_false_r. auto.
  - intros H. apply rep_inv in H as (pre & rest & pv & _ & _ & _ & H).
    exists pv, rest, cap. rewrite orb_false_r. auto.
  - destruct (boundary P prev s); [| discriminate].
    intros H. exists prev, s, cap. rewrite orb_false_r. auto.
  - simpl in Hg. destruct r as [| | | lo hi k | | | |]; try discriminate.
    destruct lo as [| [| [| [| [| lo]]]]]; try discriminate.
    destruct hi as [| [| [| [| [| [| [| [| [| hi]]]]]]]]]; try discriminate.
    cbn [rmatch]. intros H.
    apply rep_inv in H as (pre & rest & pv & -> & Hall & Hlen & H).
    rewrite take_consumed in H. exists pv, rest, (Some pre).
    split; [| exact H]. simpl. split; [exact Hlen |].
    eapply Forall_impl; [exact Hall |]. intros c. apply in_digit_cls. exact Hg.
  - simpl in Hg. apply andb_true_iff in Hg as [Hga Hgb]. intros H.
    destruct (IHa _ _ _ _ _ _ _ Hga Hcap H) as (pv & rest & cap1 & Hcap1 & H1).
    destruct (IHb _ _ _ _ _ _ _ Hgb Hcap1 H1) as (pv' & rest' & cap2 & Hcap2 & H2).
    exists pv', rest', cap2. rewrite orb_assoc. auto.
  - simpl in Hg. apply andb_true_iff in Hg as [Hga Hgb].
    destruct (rmatch P a prev s cap cont) as [y |] eqn:Ha.
    + intros [= <-].
      destruct (IHa _ _ _ _ _ _ _ Hga Hcap Ha) as (pv & rest & cap1 & Hcap1 & H1).
      exists pv, rest, cap1. split; [| exact H1].
      eapply capture_ok_weaken; [| exact Hcap1].
      destruct must, (sets_group a), (sets_group b); simpl; congruence.
    + intros H.
      destruct (IHb _ _ _ _ _ _ _ Hgb Hcap H) as (pv & rest & cap1 & Hcap1 & H1).
      exists pv, rest, cap1. split; [| exact H1].
      eapply capture_ok_weaken; [| exact Hcap1].
      destruct must, (sets_group a), (sets_group b); simpl; congruence.
Qed.

Lemma match_here_capture r prev s g pv rest :
  groups_are_digits r = true -> sets_group r = true ->
  match_here P r prev s = Some (g, pv, rest) -> digits_4_8 g.
Proof.
  intros Hg Hs H. unfold match_here in H.
  apply (rmatch_capture r _ prev s None _ _ false Hg eq_refl) in H
    as (pv' & rest' & cap' & Hcap & H).
  rewrite Hs in Hcap. destruct cap' as [w |]; [| discriminate Hcap].
  simpl in H. injection H as <- _ _. exact Hcap.
Qed.

(** Every element of [findall] is the text of the group: 4 to 8 digits. *)
Lemma findall_digits r s :
  groups_are_digits r = true -> sets_group r = true ->
  Forall digits_4_8 (findall P r s).
Proof.
  intros Hg Hs. unfold findall. generalize (S (length s)) (@None char).
  intros fuel. revert s. induction fuel as [| fuel IH]; intros s prev; simpl.
  - constructor.
  - assert (Hstep : Forall digits_4_8
              match s with
              | [] => []
              | c :: s' => findall_from P fuel r (Some c) s'
              end).
    { destruct s; [constructor | apply IH]. }
    destruct (match_here P r prev s) as [[[g pv] rest] |] eqn:Hm; [| exact Hstep].
    constructor; [eapply match_here_capture; eassumption |].
    destruct (length rest <? length s)%nat; [apply IH | exact Hstep].
Qed.

End WithPython.
End ReProps.

(** ** Waiting for a code *)

Module CodeProps.
Import App PyProps ReProps.

Lemma code_patterns_capture :
  forallb (fun r => groups_are_digits r && sets_group r) code_patterns = true.
Proof. reflexivity. Qed.

Section WithPython.
Context (P : Python).

(** The test of [extract_code_from_mail], spelled out. *)
Lemma code_ok_spec code :
  code_ok P code = true <->
  PyLib.isdigit P code = true /\ (4 <= length code <= 8)%nat.
Proof.
  unfold code_ok. rewrite !andb_true_iff, !Nat.leb_le. tauto.
Qed.

(** What a group of a pattern has taken passes the test. *)
Lemma digits_code_ok w : digits_4_8 P w -> code_ok P w = true.
Proof.
  intros [Hlen Hall]. apply code_ok_spec. split; [| exact Hlen].
  unfold PyLib.isdigit. apply andb_true_iff. split.
  - destruct w; [simpl in Hlen; lia | reflexivity].
  - apply forallb_forall. intros c Hc. rewrite Forall_forall in Hall.
    destruct (Hall c (proj2 (list_elem_of_In _ _) Hc)) as [v Hv].
    exact (u_decimal_isdigit P c v Hv).
Qed.

Lemma first_code_sound patterns text code :
  first_code P patterns text = Some code -> code_ok P code = true.
Proof.
  induction patterns as [| p rest IH]; simpl; [discriminate |].
  destruct (Re.findall P p text) as [| g gs]; [exact IH |].
  destruct (code_ok P g) eqn:Hg; [| exact IH]. intros [= <-]. exact Hg.
Qed.

Lemma first_code_complete patterns text pattern :
  forallb (fun r => groups_are_digits r && sets_group r) patterns = true ->
  In pattern patterns -> Re.findall P pattern text <> [] ->
  is_Some (first_code P patterns text).
Proof.
  induction patterns as [| p rest IH]; simpl; [intros _ [] |].
  rewrite andb_true_iff. intros [Hp Hrest] Hin Hne.
  apply andb_true_iff in Hp as [Hg Hs].
  pose proof (findall_digits P p text Hg Hs) as Hall.
  destruct (Re.findall P p text) as [| g gs] eqn:Hf.
  - destruct Hin as [-> | Hin]; [congruence |]. apply IH; assumption.
  - inversion Hall as [| ? ? Hd _]; subst. rewrite (digits_code_ok g Hd). eauto.
Qed.

Lemma extract_sound email_address keyword mail result :
  extract_code_from_mail P email_address keyword mail = Some result ->
  code_ok P (cr_code result) = true.
Proof.
  unfold extract_code_from_mail.
  destruct (keyword_filter P keyword _ _); [| discriminate].
  destruct (first_code P code_patterns (text_to_search mail)) as [code |] eqn:Hc;
    [| discriminate].
  intros [= <-]. simpl. eapply first_code_sound. exact Hc.
Qed.

Lemma extract_complete email_address keyword mail pattern :
  keyword_filter P keyword (Store.m_subject mail) (Store.m_content mail) = true ->
  In pattern code_patterns -> Re.findall P pattern (text_to_search mail) <> [] ->
  is_Some (extract_code_from_mail P email_address keyword mail).
Proof.
  intros Hk Hin Hne. unfold extract_code_from_mail. rewrite Hk.
  destruct (first_code_complete code_patterns (text_to_search mail) pattern
              code_patterns_capture Hin Hne) as [code ->].
  eauto.
Qed.

Lemma scan_recent_sound email_address keyword recent_limit mails result :
  scan_recent P email_address keyword recent_limit mails = Some result ->
  code_ok P (cr_code result) = true.
Proof.
  induction mails as [| mail rest IH]; simpl; [discriminate |].
  destruct (Store.m_received_time mail) as [rt |]; [| exact IH].
  destruct (truthy rt); [| exact IH].
  destruct (parse_mail_time P rt) as [t |]; [| exact IH].
  destruct (dt_ge_naive t recent_limit) as [[|] |]; [| exact IH | exact IH].
  destruct (extract_code_from_mail P email_address keyword mail) as [r |] eqn:He;
    [| exact IH].
  intros [= <-]. eapply extract_sound. exact He.
Qed.

Lemma scan_new_sound email_address keyword start_time mails result :
  scan_new P email_address keyword start_time mails = Some result ->
  code_ok P (cr_code result) = true.
Proof.
  induction mails as [| mail rest IH]; simpl; [discriminate |].
  destruct (Store.m_received_time mail) as [rt |]; [| exact IH].
  destruct (truthy rt); [| exact IH].
  destruct (parse_iso P rt) as [t |]; [| exact IH].
  destruct (dt_ge_naive t (start_time - 10)) as [[|] |]; [| exact IH | exact IH].
  destruct (extract_code_from_mail P email_address keyword mail) as [r |] eqn:He;
    [| exact IH].
  intros [= <-]. eapply extract_sound. exact He.
Qed.

Lemma wait_loop_sound email_address keyword start_time polls : forall count result,
  wait_loop P email_address keyword start_time count polls = Some result ->
  code_ok P (cr_code result) = true.
Proof.
  induction polls as [| mails later IH]; intros count result; simpl; [discriminate |].
  destruct (count <? length mails)%nat; [| apply IH].
  destruct (scan_new P email_address keyword start_time mails) as [r |] eqn:Hs;
    [| apply IH].
  intros [= <-]. eapply scan_new_sound. exact Hs.
Qed.

(** A code that the endpoint returns has passed the test. *)
Lemma get_verification_code_sound (is_admin : bool) (user_id : Z) d later start_time
    email keyword result :
  get_verification_code P is_admin user_id d later start_time email keyword
  = Found result ->
  PyLib.isdigit P (cr_code result) = true /\ (4 <= length (cr_code result) <= 8)%nat.
Proof.
  unfold get_verification_code.
  destruct email as [email_address |]; [| discriminate].
  destruct (negb (truthy email_address)); [discriminate |].
  destruct (find_mailbox P _ email_address) as [email_info |]; [| discriminate].
  destruct (sorted_by_time P _) as [sorted |]; [| discriminate].
  destruct (scan_recent P email_address keyword (start_time - 30) _) as [r |] eqn:Hs.
  - intros [= <-]. apply code_ok_spec. eapply scan_recent_sound. exact Hs.
  - destruct (wait_loop P email_address keyword start_time _ _) as [r |] eqn:Hw;
      [| discriminate].
    intros [= <-]. apply code_ok_spec. eapply wait_loop_sound. exact Hw.
Qed.

(** A recent mail with a code, its time a naive one, ends the first
    loop. *)
Lemma scan_recent_complete email_address keyword recent_limit mails mail rt t :
  In mail mails ->
  Store.m_received_time mail = Some rt -> rt <> [] ->
  parse_mail_time P rt = Some (naive t) -> recent_limit <= t ->
  is_Some (extract_code_from_mail P email_address keyword mail) ->
  is_Some (scan_recent P email_address keyword recent_limit mails).
Proof.
  intros Hin Hrt Hne Ht Hle [r Hr].
  induction mails as [| m rest IH]; [destruct Hin |]. simpl.
  destruct Hin as [-> | Hin].
  - rewrite Hrt. apply truthy_true in Hne. rewrite Hne, Ht.
    unfold dt_ge_naive. simpl. apply Z.leb_le in Hle. rewrite Hle, Hr. eauto.
  - destruct (IH Hin) as [x Hx]. rewrite Hx.
    destruct (Store.m_received_time m) as [rt' |]; [| eauto].
    destruct (truthy rt'); [| eauto].
    destruct (parse_mail_time P rt') as [t' |]; [| eauto].
    destruct (dt_ge_naive t' recent_limit) as [[|] |]; [| eauto | eauto].
    destruct (extract_code_from_mail P email_address keyword m); eauto.
Qed.

Lemma insert_by_time_in mail x sorted l :
  insert_by_time P x sorted = Returns l ->
  (In mail l <-> mail = x \/ In mail sorted).
Proof.
  revert l. induction sorted as [| m rest IH]; intros l; simpl.
  - intros [= <-]. simpl. intuition congruence.
  - destruct (dt_lt (get_mail_time P x) (get_mail_time P m)) as [[|] |];
      [| intros [= <-]; simpl; intuition congruence | discriminate].
    destruct (insert_by_time P x rest) as [l' |]; [| discriminate].
    intros [= <-]. simpl. rewrite (IH l' eq_refl). intuition congruence.
Qed.

(** The sort keeps every mail. *)
Lemma sorted_by_time_in mail mails : forall l,
  sorted_by_time P mails = Returns l -> (In mail l <-> In mail mails).
Proof.
  induction mails as [| m rest IH]; intros l; simpl.
  - intros [= <-]. tauto.
  - destruct (sorted_by_time P rest) as [sorted |]; [| discriminate].
    intros Hi. rewrite (insert_by_time_in mail m sorted l Hi), (IH sorted eq_refl).
    intuition congruence.
Qed.

(** The keys of the sort are all naive. *)
Definition naive_times (mails : list Store.mail_row) : Prop :=
  Forall (fun m => dt_utcoffset (get_mail_time P m) = None) mails.

Lemma insert_by_time_naive x sorted :
  dt_utcoffset (get_mail_time P x) = None -> naive_times sorted ->
  exists l, insert_by_time P x sorted = Returns l /\ naive_times l.
Proof.
  intros Hx. induction sorted as [| m rest IH]; intros Hall; simpl.
  - eexists. split; [reflexivity |]. constructor; [exact Hx | constructor].
  - inversion Hall as [| ? ? Hm Hrest]; subst. unfold dt_lt. rewrite Hx, Hm.
    destruct (dt_wall (get_mail_time P x) <? dt_wall (get_mail_time P m)).
    + destruct (IH Hrest) as (l & -> & Hl). eexists. split; [reflexivity |].
      constructor; assumption.
    + eexists. split; [reflexivity |]. constructor; assumption.
Qed.

(** On naive keys the sort returns. *)
Lemma sorted_by_time_naive mails :
  naive_times mails -> exists l, sorted_by_time P mails = Returns l /\ naive_times l.
Proof.
  induction mails as [| m rest IH]; intros Hall; simpl.
  - eexists. split; [reflexivity | constructor].
  - inversion Hall as [| ? ? Hm Hrest]; subst.
    destruct (IH Hrest) as (sorted & -> & Hs). apply insert_by_time_naive; assumption.
Qed.

(** Whether a [datetime] is aware. *)
Definition aware (t : datetime) : bool :=
  match dt_utcoffset t with Some _ => true | None => false end.

Lemma insert_by_time_head x h s l :
  insert_by_time P x (h :: s) = Returns l ->
  aware (get_mail_time P x) = aware (get_mail_time P h).
Proof.
  cbn [insert_by_time]. unfold dt_lt, aware.
  destruct (dt_utcoffset (get_mail_time P x)), (dt_utcoffset (get_mail_time P h));
    try discriminate; reflexivity.
Qed.

(** Where the sort returns, the keys are all naive or all aware. *)
Lemma sorted_by_time_one_kind mails : forall l,
  sorted_by_time P mails = Returns l ->
  forall x y, In x mails -> In y mails ->
    aware (get_mail_time P x) = aware (get_mail_time P y).
Proof.
  induction mails as [| m rest IH]; intros l; simpl; [intros _ x y [] |].
  destruct (sorted_by_time P rest) as [s |] eqn:Hs; [| discriminate].
  intros Hi.
  assert (Hm : forall y, In y rest ->
                         aware (get_mail_time P m) = aware (get_mail_time P y)).
  { intros y Hy. destruct s as [| h s'].
    - apply (sorted_by_time_in y rest [] Hs) in Hy. destruct Hy.
    - rewrite (insert_by_time_head m h s' l Hi).
      apply (IH _ eq_refl); [| exact Hy].
      apply (sorted_by_time_in h rest (h :: s') Hs). left. reflexivity. }
  intros x y [<- | Hx] [<- | Hy].
  - reflexivity.
  - apply Hm. exact Hy.
  - symmetry. apply Hm. exact Hx.
  - apply (IH _ eq_refl); assumption.
Qed.

(** A mailbox that holds a message with a naive key and one with an aware
    key gets 500. *)
Lemma get_verification_code_mixed (is_admin : bool) (user_id : Z) d later start_time
    (email_address : str) keyword email_info x y :
  email_address <> [] ->
  find_mailbox P (Store.get_all_emails d (if is_admin then None else Some user_id))
    email_address = Some email_info ->
  In x (Store.get_mail_records d (Store.e_id email_info)) ->
  In y (Store.get_mail_records d (Store.e_id email_info)) ->
  dt_utcoffset (get_mail_time P x) = None ->
  dt_utcoffset (get_mail_time P y) <> None ->
  get_verification_code P is_admin user_id d later start_time (Some email_address)
    keyword = ServerError500.
Proof.
  intros Hne Hfind Hx Hy Hnaive Haware.
  unfold get_verification_code. apply truthy_true in Hne. rewrite Hne. simpl negb.
  cbv iota. rewrite Hfind.
  destruct (sorted_by_time P _) as [sorted |] eqn:Hsort; [| reflexivity].
  pose proof (sorted_by_time_one_kind _ _ Hsort x y Hx Hy) as Hk.
  unfold aware in Hk. rewrite Hnaive in Hk.
  destruct (dt_utcoffset (get_mail_time P y)); [discriminate | contradiction].
Qed.

(** Where the sort returns, a stored message of the last 30 seconds with
    a naive time, that passes the keyword filter and is matched by one of
    the patterns, gives a code. *)
Lemma get_verification_code_complete (is_admin : bool) (user_id : Z) d later
    start_time (email_address : str) keyword email_info mail received_time mail_time
    pattern sorted :
  email_address <> [] ->
  find_mailbox P (Store.get_all_emails d (if is_admin then None else Some user_id))
    email_address = Some email_info ->
  sorted_by_time P (Store.get_mail_records d (Store.e_id email_info)) = Returns sorted ->
  In mail (Store.get_mail_records d (Store.e_id email_info)) ->
  Store.m_received_time mail = Some received_time -> received_time <> [] ->
  parse_mail_time P received_time = Some (naive mail_time) ->
  start_time - 30 <= mail_time ->
  keyword_filter P keyword (Store.m_subject mail) (Store.m_content mail) = true ->
  In pattern code_patterns ->
  Re.findall P pattern (text_to_search mail) <> [] ->
  exists result,
    get_verification_code P is_admin user_id d later start_time (Some email_address)
      keyword = Found result.
Proof.
  intros Hne Hfind Hsort Hin Hrt Hrne Ht Hle Hk Hp Hm.
  unfold get_verification_code. apply truthy_true in Hne. rewrite Hne. simpl negb.
  cbv iota. rewrite Hfind, Hsort.
  destruct (scan_recent_complete email_address keyword (start_time - 30) sorted
              mail received_time mail_time
              (proj2 (sorted_by_time_in mail _ sorted Hsort) Hin) Hrt Hrne Ht Hle
              (extract_complete email_address keyword mail pattern Hk Hp Hm))
    as [r ->].
  eauto.
Qed.

End WithPython.

(** Scenario S1: the message with the code 482917 came in two seconds
    before the call. *)
Definition code_mail : Store.mail_row :=
  {| Store.m_id := 1; Store.m_email_id := 1; Store.m_subject := lit "Your code is 482917";
     Store.m_sender := lit "Site <no-reply@site.com>";
     Store.m_received_time := Some (lit "2026-01-05 18:58:09");
     Store.m_content := lit "Use 482917 to sign in."; Store.m_folder := lit "INBOX";
     Store.m_has_attachments := 0 |}.

Definition store_with_code : Store.db :=
  {| Store.emails := [PushProps.a_mailbox]; Store.mail_records := [code_mail];
     Store.subscriptions := [] |}.

(** An older message of the mailbox whose time was stored with its UTC
    offset. *)
Definition offset_mail : Store.mail_row :=
  {| Store.m_id := 2; Store.m_email_id := 1; Store.m_subject := lit "Welcome";
     Store.m_sender := lit "Site <hello@site.com>";
     Store.m_received_time := Some (lit "2026-01-05T10:00:00+08:00");
     Store.m_content := lit "Thanks for signing up."; Store.m_folder := lit "INBOX";
     Store.m_has_attachments := 0 |}.

Definition store_with_offset : Store.db :=
  {| Store.emails := [PushProps.a_mailbox]; Store.mail_records := [code_mail; offset_mail];
     Store.subscriptions := [] |}.

(** C3: a code that [get_verification_code] returns is a string of digits
    of length 4 to 8; but a code is not returned for every recent message
    that has one.  The mailbox of the failing input holds the message of
    scenario S1, received two seconds before the call, and a message whose
    stored time carries a UTC offset: the keys of the sort are a naive and
    an aware [datetime], their comparison raises [TypeError] outside every
    [try], and the endpoint answers 500, as it does for every mailbox
    that holds a message with a naive key and one with an aware key.
    And the 30 seconds are counted from [datetime.now()], the time of the
    server's zone, against the stored text, which the push path writes
    from the UTC time of Graph: on a server 8 hours ahead of UTC the
    message of scenario S1 alone, two seconds old, is not found, and the
    endpoint answers 404 at the end of the wait. *)
Theorem code_wait_fails_on_mixed_times :
  (forall (P : Python) (is_admin : bool) (user_id : Z) (d : Store.db)
          (later : list Store.db) (start_time : Z) (email : option str)
          (keyword : str) (result : code_result),
     get_verification_code P is_admin user_id d later start_time email keyword
     = Found result ->
     PyLib.isdigit P (cr_code result) = true /\
     (4 <= length (cr_code result) <= 8)%nat) /\
  (forall (P : Python) (is_admin : bool) (user_id : Z) (d : Store.db)
          (later : list Store.db) (start_time : Z) (email_address keyword : str)
          (email_info : Store.email_row) (x y : Store.mail_row),
     email_address <> [] ->
     find_mailbox P (Store.get_all_emails d (if is_admin then None else Some user_id))
       email_address = Some email_info ->
     In x (Store.get_mail_records d (Store.e_id email_info)) ->
     In y (Store.get_mail_records d (Store.e_id email_info)) ->
     dt_utcoffset (get_mail_time P x) = None ->
     dt_utcoffset (get_mail_time P y) <> None ->
     get_verification_code P is_admin user_id d later start_time (Some email_address)
       keyword = ServerError500) /\
  (In code_mail (Store.get_mail_records store_with_offset 1) /\
   parse_mail_time AsciiTable.python (lit "2026-01-05 18:58:09")
   = Some (naive 63903236289) /\
   63903236291 - 30 <= 63903236289 /\
   keyword_filter AsciiTable.python [] (Store.m_subject code_mail)
     (Store.m_content code_mail) = true /\
   Re.findall AsciiTable.python (nth 6 code_patterns Re.WordB) (text_to_search code_mail)
   = [lit "482917"; lit "482917"]) /\
  get_mail_time AsciiTable.python offset_mail
  = {| dt_wall := 63903204000; dt_utcoffset := Some 28800 |} /\
  get_verification_code AsciiTable.python false 7 store_with_offset [] 63903236291
    (Some (lit "a@outlook.com")) [] = ServerError500 /\
  map Store.m_received_time
    (Store.mail_records
       (Webhook._process_single_notification AsciiTable.python PushProps.delivering_net
          (lit "2026-01-05 18:58:11") PushProps.idle_handler PushProps.a_store
          PushProps.created_for_1).1.2)
  = [Some (lit "2026-01-05 18:58:09")] /\
  get_verification_code AsciiTable.python false 7 store_with_code
    [store_with_code; store_with_code] (63903236291 + 8 * 3600)
    (Some (lit "a@outlook.com")) [] = TimedOut.
Proof.
  split; [| split; [| split; [| split; [| split; [| split]]]]].
  - intros P is_admin user_id d later start_time email keyword result.
    apply get_verification_code_sound.
  - intros P is_admin user_id d later start_time email_address keyword email_info x y.
    apply get_verification_code_mixed.
  - split; [vm_compute; left; reflexivity |].
    split; [vm_compute; reflexivity |]. split; [lia |].
    split; vm_compute; reflexivity.
  - vm_compute. reflexivity.
  - vm_compute. reflexivity.
  - vm_compute. reflexivity.
  - vm_compute. reflexivity.
Qed.

End CodeProps.

(** ** The model on sample inputs

    Runs of the model on ASCII inputs, with the values CPython gives. *)

Module Samples.

Definition A : Python := AsciiTable.python.

(** ['a-----b'.split('----')] and [''.split('----')] *)
Example split_five_dashes :
  split (lit "----") (lit "a-----b") = [lit "a"; lit "-b"].
Proof. reflexivity. Qed.

Example split_empty : split (lit "----") [] = [[]].
Proof. reflexivity. Qed.

(** ['eemail_mail_7'.replace('email_', '')] *)
Example replace_leaves_new_occurrence :
  replace (lit "email_") [] (lit "eemail_mail_7") = lit "email_7".
Proof. reflexivity. Qed.

(** [int] on what is left of a [clientState]: blanks, a sign and single
    underscores between digits are read; a trailing or doubled underscore
    and an empty text are not. *)
Example client_states :
  map (fun s => Webhook.parse_client_state A (lit s))
    ["email_7"; "email_ 7"; "email_+7"; "email_1_0"; "email_-3"; "email_7 ";
     "email_7_"; "email__7"; "email_email_7"; "email_"; "email_12x"; "xemail_1"]%string
  = [Some 7; Some 7; Some 7; Some 10; Some (-3); Some 7;
     None; None; Some 7; None; None; None].
Proof. vm_compute. reflexivity. Qed.

Example client_state_of_42 : Webhook.client_state_of 42 = lit "email_42".
Proof. reflexivity. Qed.

(** [re.findall(p, 'Code:12345 and 9999 is your pin', re.IGNORECASE)] for
    the seven patterns. *)
Example findall_by_pattern :
  map (fun p => Re.findall A p (lit "Code:12345 and 9999 is your pin")) App.code_patterns
  = [ []; []; [lit "12345"]; []; []; [lit "9999"]; [lit "12345"; lit "9999"] ].
Proof. vm_compute. reflexivity. Qed.

(** Of a number of nine digits the third pattern takes the first eight;
    a number of eleven digits is no code. *)
Example findall_long_numbers :
  Re.findall A (nth 2 App.code_patterns Re.WordB) (lit "code 123456789") = [lit "12345678"]
  /\ map (fun p => Re.findall A p (lit "x 12345678901 pin")) App.code_patterns
     = [ []; []; []; []; []; []; [] ].
Proof. split; vm_compute; reflexivity. Qed.

(** Scenario S1: the code of the message that was pushed. *)
Example code_of_pushed_message :
  App.get_verification_code A false 7 CodeProps.store_with_code [] 63903236291
    (Some (lit "a@outlook.com")) []
  = App.Found {| App.cr_email := lit "a@outlook.com"; App.cr_code := lit "482917";
                 App.cr_subject := lit "Your code is 482917";
                 App.cr_sender := lit "Site <no-reply@site.com>";
                 App.cr_received_time := Some (lit "2026-01-05 18:58:09") |}.
Proof. vm_compute. reflexivity. Qed.

(** Scenarios S1 and S2: the push stores the message once; the same push
    again adds nothing and publishes nothing. *)
Example push_twice :
  let '(h1, d1, tr1) :=
    Webhook._process_single_notification A PushProps.delivering_net
      (lit "2026-01-05 18:58:11") PushProps.idle_handler PushProps.a_store
      PushProps.created_for_1 in
  let '(h2, d2, tr2) :=
    Webhook._process_single_notification A PushProps.delivering_net
      (lit "2026-01-05 18:58:12") h1 d1 PushProps.created_for_1 in
  length (Store.mail_records d1) = 1%nat /\ length (Store.mail_records d2) = 1%nat /\
  tr2 = [ TokenRequest (lit "tok") (lit "cid"); ListRequest (lit "inbox") 5 None ].
Proof. vm_compute. repeat split. Qed.

End Samples.

(** * Further properties *)

(** ** The migration of plaintext credentials *)

Module MigrateProps.
Import Crypto Migrate PyProps.

(** The stdout of the process takes every line. *)
Definition takes_every_line (L : FernetLib) : Prop :=
  (forall line, print L line = Some tt) /\
  (forall head, print_exception L head = Some tt).

Section WithLibrary.
Context (L : FernetLib) (env : environ).

(** A cipher that has been built stays. *)
Definition cache_grows (c c' : cache L) : Prop :=
  forall f, c = Some f -> c' = Some f.

Lemma cache_grows_refl c : cache_grows c c.
Proof. intros f H. exact H. Qed.

Lemma cache_grows_trans c1 c2 c3 :
  cache_grows c1 c2 -> cache_grows c2 c3 -> cache_grows c1 c3.
Proof. intros H12 H23 f H. apply H23, H12, H. Qed.

Lemma get_fernet_grows c : cache_grows c (get_fernet L env c).1.
Proof.
  intros f ->. reflexivity.
Qed.

Lemma encrypt_body_grows r s c : cache_grows c (encrypt_body L env r s c).1.
Proof.
  intros f ->. unfold encrypt_body, bind. rewrite CryptoProps.get_fernet_cached.
  unfold lift, ret, raise.
  destruct (str_encode L s) as [data |]; [| reflexivity].
  destruct (fernet_encrypt L f r data) as [token |]; [| reflexivity].
  destruct (bytes_decode L token); reflexivity.
Qed.

(** What [encrypt] returns is the plaintext itself, or a token that the
    cipher now in the cache decrypts to the plaintext; it raises only
    what its [print] raises. *)
Lemma encrypt_cases r s c :
  exists c' o, encrypt L env r s c = (c', o) /\ cache_grows c c' /\
    match o with
    | Returns t =>
        t = s \/ exists f, c' = Some f /\ decrypt L env t (Some f) = (Some f, Returns s)
    | Raises => ~ takes_every_line L
    end.
Proof.
  unfold encrypt. destruct (truthy s); simpl.
  - unfold try_except. pose proof (encrypt_body_grows r s c) as Hg.
    destruct (encrypt_body L env r s c) as [c' [t |]] eqn:Hb.
    + exists c', (Returns t). split; [reflexivity |]. split; [exact Hg |]. right.
      destruct (CryptoProps.encrypt_body_returns L env r s c c' t Hb)
        as (f & data & token & -> & Hd & Htok & Hdec).
      exists f. split; [reflexivity |].
      exact (CryptoProps.decrypt_of_token L env f data token r t s Hd Htok Hdec).
    + unfold bind, lift. destruct (print_exception L encrypt_failed) as [[] |] eqn:Hp.
      * exists c', (Returns s). split; [reflexivity |]. split; [exact Hg |].
        left. reflexivity.
      * exists c', Raises. split; [reflexivity |]. split; [exact Hg |].
        intros [_ Hall]. rewrite Hall in Hp. discriminate Hp.
  - exists c, (Returns s). split; [reflexivity |].
    split; [apply cache_grows_refl | left; reflexivity].
Qed.

(** A credential is kept: the column holds what it held, or a token that
    the cipher of the cache decrypts to what it held. *)
Definition kept (c : cache L) (old new : option str) : Prop :=
  new = old \/
  exists p t f, old = Some p /\ new = Some t /\ c = Some f /\
                decrypt L env t (Some f) = (Some f, Returns p).

Lemma kept_grows c c' old new : cache_grows c c' -> kept c old new -> kept c' old new.
Proof.
  intros Hg [H | (p & t & f & Ho & Hn & Hc & Hd)]; [left; exact H |].
  right. exists p, t, f. repeat split; try assumption. apply Hg. exact Hc.
Qed.

Lemma migrate_field_spec rs st v :
  exists st' o, migrate_field L env rs st v = (st', o) /\
    cache_grows (fst st) (fst st') /\
    match o with
    | Returns new => kept (fst st') v (updated v new) /\ (new = None -> st' = st)
    | Raises => ~ takes_every_line L
    end.
Proof.
  assert (Hnone : exists st' o, (st, Returns (@None str)) = (st', o) /\
    cache_grows (fst st) (fst st') /\
    match o with
    | Returns new => kept (fst st') v (updated v new) /\ (new = None -> st' = st)
    | Raises => ~ takes_every_line L
    end).
  { exists st, (Returns None). split; [reflexivity |].
    split; [apply cache_grows_refl |]. split; [left; reflexivity | reflexivity]. }
  assert (Hsome : forall s, v = Some s -> exists st' o,
    match encrypt L env (rs (snd st)) s (fst st) with
    | (c2, Returns t) => ((c2, S (snd st)), Returns (Some t))
    | (c2, Raises) => ((c2, S (snd st)), Raises)
    end = (st', o) /\
    cache_grows (fst st) (fst st') /\
    match o with
    | Returns new => kept (fst st') v (updated v new) /\ (new = None -> st' = st)
    | Raises => ~ takes_every_line L
    end).
  { intros s ->.
    destruct (encrypt_cases (rs (snd st)) s (fst st)) as (c2 & [t |] & -> & Hg & Ht).
    - exists (c2, S (snd st)), (Returns (Some t)). simpl.
      split; [reflexivity |]. split; [exact Hg |]. split; [| discriminate].
      destruct Ht as [-> | (f & -> & Hd)]; [left; reflexivity |].
      right. exists s, t, f. auto.
    - exists (c2, S (snd st)), Raises. simpl. auto. }
  unfold migrate_field. destruct v as [s |]; [| exact Hnone].
  destruct (truthy s); [| exact Hnone].
  unfold is_encrypted. destruct (negb (truthy s)); unfold ret.
  - apply Hsome. reflexivity.
  - destruct (startswith (lit "gAAAAA") s).
    + destruct st. exact Hnone.
    + apply Hsome. reflexivity.
Qed.

(** A row after the run: its id and address are those it had, and its
    three credentials are kept. *)
Definition row_kept (c : cache L) (e e' : row) : Prop :=
  r_id e' = r_id e /\ r_email e' = r_email e /\
  kept c (r_password e) (r_password e') /\
  kept c (r_client_id e) (r_client_id e') /\
  kept c (r_refresh_token e) (r_refresh_token e').

Lemma row_kept_refl c e : row_kept c e e.
Proof. repeat split; left; reflexivity. Qed.

Lemma row_kept_grows c c' e e' : cache_grows c c' -> row_kept c e e' -> row_kept c' e e'.
Proof.
  intros Hg (Hi & He & Hp & Hc & Ht).
  repeat split; try assumption; eapply kept_grows; eassumption.
Qed.

Lemma rows_kept_refl c emails : Forall2 (row_kept c) emails emails.
Proof. induction emails; constructor; [apply row_kept_refl | assumption]. Qed.

Lemma migrate_row_spec rs st e :
  exists st' o, migrate_row L env rs st e = (st', o) /\
    cache_grows (fst st) (fst st') /\
    match o with
    | Returns (e', changed) =>
        row_kept (fst st') e e' /\ (changed = false -> st' = st /\ e' = e)
    | Raises => ~ takes_every_line L
    end.
Proof.
  unfold migrate_row.
  destruct (migrate_field_spec rs st (r_password e)) as (st1 & [p |] & -> & Hg1 & H1);
    [| exists st1, Raises; auto].
  destruct H1 as [Hk1 Hn1].
  destruct (migrate_field_spec rs st1 (r_client_id e)) as (st2 & [c |] & -> & Hg2 & H2);
    [| exists st2, Raises; split; [reflexivity |]; split; [| exact H2];
       eapply cache_grows_trans; eassumption].
  destruct H2 as [Hk2 Hn2].
  destruct (migrate_field_spec rs st2 (r_refresh_token e))
    as (st3 & [t |] & -> & Hg3 & H3);
    [| exists st3, Raises; split; [reflexivity |]; split; [| exact H3];
       eapply cache_grows_trans; [| exact Hg3]; eapply cache_grows_trans; eassumption].
  destruct H3 as [Hk3 Hn3].
  assert (Hg : cache_grows (fst st) (fst st3)).
  { eapply cache_grows_trans; [| exact Hg3]. eapply cache_grows_trans; eassumption. }
  cbv zeta.
  destruct (print L _) as [[] |] eqn:Hp.
  - eexists _, (Returns (_, _)). split; [reflexivity |]. split; [exact Hg |]. split.
    + repeat split; simpl.
      * eapply kept_grows; [| exact Hk1]. eapply cache_grows_trans; eassumption.
      * eapply kept_grows; [| exact Hk2]. exact Hg3.
      * exact Hk3.
    + destruct p; [discriminate |]. destruct c; [discriminate |].
      destruct t; [discriminate |]. intros _.
      rewrite (Hn3 eq_refl), (Hn2 eq_refl), (Hn1 eq_refl). split; [reflexivity |].
      destruct e. reflexivity.
  - exists st3, Raises. split; [reflexivity |]. split; [exact Hg |].
    intros [Hall _]. rewrite Hall in Hp. discriminate Hp.
Qed.

Lemma migrate_rows_spec rs emails : forall st done encrypted skipped,
  exists st' o,
    migrate_rows L env rs st emails done encrypted skipped = (st', o) /\
    cache_grows (fst st) (fst st') /\
    match o with
    | Returns r =>
        exists new, rows_after r = done ++ new /\
          Forall2 (row_kept (fst st')) emails new /\
          encrypted_count r + skipped_count r
          = encrypted + skipped + Z.of_nat (length emails) /\
          0 <= encrypted_count r - encrypted /\ 0 <= skipped_count r - skipped
    | Raises => ~ takes_every_line L
    end.
Proof.
  induction emails as [| e rest IH]; intros st done encrypted skipped; simpl.
  - eexists _, (Returns _). split; [reflexivity |]. split; [apply cache_grows_refl |].
    exists []. simpl. rewrite app_nil_r.
    repeat split; [constructor | lia | lia | lia].
  - destruct (migrate_row_spec rs st e) as (st1 & [[e' changed] |] & -> & Hg & H1);
      [| exists st1, Raises; auto].
    destruct H1 as [Hk _].
    assert (Hnext : forall encrypted' skipped',
      encrypted' + skipped' = encrypted + skipped + 1 ->
      encrypted <= encrypted' -> skipped <= skipped' ->
      exists st' o,
        migrate_rows L env rs st1 rest (done ++ [e']) encrypted' skipped' = (st', o) /\
        cache_grows (fst st) (fst st') /\
        match o with
        | Returns r =>
            exists new, rows_after r = done ++ new /\
              Forall2 (row_kept (fst st')) (e :: rest) new /\
              encrypted_count r + skipped_count r
              = encrypted + skipped + Z.of_nat (S (length rest)) /\
              0 <= encrypted_count r - encrypted /\ 0 <= skipped_count r - skipped
        | Raises => ~ takes_every_line L
        end).
    { intros encrypted' skipped' Hsum He Hs.
      destruct (IH st1 (done ++ [e']) encrypted' skipped') as (st' & o & -> & Hg' & H).
      exists st', o. split; [reflexivity |].
      split; [eapply cache_grows_trans; eassumption |].
      destruct o as [r |]; [| exact H].
      destruct H as (new & Hrows & Hall & Hsum' & He' & Hs').
      exists (e' :: new). rewrite Hrows, <- app_assoc. split; [reflexivity |].
      split; [constructor; [eapply row_kept_grows; eassumption | exact Hall] |].
      repeat split; lia. }
    destruct changed; apply Hnext; lia.
Qed.

(** On a stdout that takes every line the loop runs to its end. *)
Lemma migrate_rows_prints rs emails : forall st done encrypted skipped,
  takes_every_line L ->
  exists st' r, migrate_rows L env rs st emails done encrypted skipped = (st', Returns r).
Proof.
  intros st done encrypted skipped Hall.
  destruct (migrate_rows_spec rs emails st done encrypted skipped)
    as (st' & [r |] & Hr & _ & H); [eauto | contradiction].
Qed.

End WithLibrary.

(** What a run leaves, whatever the cipher and the stdout do: a cache
    that keeps a cipher it had, and a table whose rows keep their
    credentials; and on a stdout that takes every line the run commits,
    with its counts. *)
Lemma migrate_encrypt_data_spec (L : FernetLib) (env : environ) (db_path : str)
    (rs : nat -> entropy L) (c : cache L) (emails : list row) :
  let res := migrate_encrypt_data L env db_path rs c emails in
  cache_grows L c res.1 /\
  Forall2 (row_kept L env res.1) emails (table_after emails res.2) /\
  (takes_every_line L ->
   exists r, res.2 = Committed r (Returns true) /\
     encrypted_count r + skipped_count r = Z.of_nat (length emails) /\
     0 <= encrypted_count r /\ 0 <= skipped_count r).
Proof.
  cbv zeta. unfold migrate_encrypt_data.
  destruct (print L (connecting ++ db_path)) as [[] |] eqn:Hp1.
  2: { simpl. split; [apply cache_grows_refl |]. split; [apply rows_kept_refl |].
       intros [Hall _]. rewrite Hall in Hp1. discriminate Hp1. }
  destruct (print L (found_head ++ _ ++ found_tail)) as [[] |] eqn:Hp2.
  2: { simpl. split; [apply cache_grows_refl |]. split; [apply rows_kept_refl |].
       intros [Hall _]. rewrite Hall in Hp2. discriminate Hp2. }
  destruct (migrate_rows_spec L env rs emails (c, O) [] 0 0)
    as (st' & [r |] & -> & Hg & H).
  - destruct H as (new & Hrows & Hkept & Hsum & He & Hs). simpl in Hrows, Hg.
    destruct (print_summary L r) as [[] |] eqn:Hp3; simpl.
    + split; [exact Hg |]. rewrite Hrows. split; [exact Hkept |].
      intros _. exists r. repeat split; lia.
    + split; [exact Hg |]. rewrite Hrows. split; [exact Hkept |].
      intros [Hall _]. unfold print_summary in Hp3. rewrite !Hall in Hp3.
      discriminate Hp3.
  - simpl in *. split; [exact Hg |]. split; [apply rows_kept_refl |].
    intros Hall. contradiction.
Qed.

(** X1: On a stdout that takes every line the run commits whatever the
    cipher does and returns [True]; it counts every row once, as encrypted
    or as skipped, and keeps the rows in their order. *)
Theorem migration_commits_and_counts (L : FernetLib) (env : environ) (db_path : str)
    (rs : nat -> entropy L) (c : cache L) (emails : list row) :
  takes_every_line L ->
  exists r,
    (migrate_encrypt_data L env db_path rs c emails).2 = Committed r (Returns true) /\
    encrypted_count r + skipped_count r = Z.of_nat (length emails) /\
    0 <= encrypted_count r /\ 0 <= skipped_count r /\
    map r_id (rows_after r) = map r_id emails /\
    map r_email (rows_after r) = map r_email emails.
Proof.
  intros Hall.
  destruct (migrate_encrypt_data_spec L env db_path rs c emails) as (_ & Hkept & Hc).
  destruct (Hc Hall) as (r & Hr & Hsum & He & Hs). rewrite Hr in Hkept. simpl in Hkept.
  exists r. split; [exact Hr |]. repeat split; try assumption.
  - clear -Hkept. induction Hkept as [| e e' l l' (Hi & _) _ IH]; simpl; [reflexivity |].
    rewrite Hi, IH. reflexivity.
  - clear -Hkept.
    induction Hkept as [| e e' l l' (_ & Ha & _) _ IH]; simpl; [reflexivity |].
    rewrite Ha, IH. reflexivity.
Qed.

Lemma toy_takes_every_line : takes_every_line Toy.lib.
Proof. split; reflexivity. Qed.

(** A legacy row under the toy cipher. *)
Definition legacy_row : row :=
  {| r_id := 1; r_email := lit "a@outlook.com"; r_password := Some (lit "hunter2");
     r_client_id := Some []; r_refresh_token := None |}.

Definition db_file : str := lit "/app/data/huohuo_email.db".

Lemma migration_commits_and_counts_witness :
  exists r,
    (migrate_encrypt_data Toy.lib Toy.env db_file (fun _ => tt) None [legacy_row]).2
    = Committed r (Returns true) /\
    encrypted_count r + skipped_count r = 1.
Proof.
  destruct (migration_commits_and_counts Toy.lib Toy.env db_file (fun _ => tt) None
              [legacy_row] toy_takes_every_line) as (r & Hr & Hsum & _).
  exists r. split; [exact Hr | exact Hsum].
Defined.

(** A column after the run, read through [decrypt], gives what the column
    held before. *)
Definition readable (L : FernetLib) (env : environ) (c : cache L)
    (old new : option str) : Prop :=
  new = old \/
  exists p t, old = Some p /\ new = Some t /\ value (decrypt L env t c) = Some p.

(** X2: No credential is lost in the migration, however the run ends: every
    password, client id and refresh token of the table after the run is
    the one the row had, or a token that [decrypt] turns back into it; on
    a stdout that takes every line the table is the one the run has
    committed. *)
Theorem migration_keeps_credentials (L : FernetLib) (env : environ) (db_path : str)
    (rs : nat -> entropy L) (c : cache L) (emails : list row) (i : nat) (e : row) :
  emails !! i = Some e ->
  exists e',
    table_after emails (migrate_encrypt_data L env db_path rs c emails).2 !! i = Some e' /\
    (let c' := (migrate_encrypt_data L env db_path rs c emails).1 in
     readable L env c' (r_password e) (r_password e') /\
     readable L env c' (r_client_id e) (r_client_id e') /\
     readable L env c' (r_refresh_token e) (r_refresh_token e')) /\
    (takes_every_line L ->
     exists r,
       (migrate_encrypt_data L env db_path rs c emails).2 = Committed r (Returns true) /\
       rows_after r !! i = Some e').
Proof.
  intros Hi.
  destruct (migrate_encrypt_data_spec L env db_path rs c emails) as (_ & Hkept & Hcommit).
  destruct (Forall2_lookup_l _ _ _ _ _ Hkept Hi) as (e' & He' & Hk).
  exists e'. split; [exact He' |]. cbv zeta. split.
  - set (c' := (migrate_encrypt_data L env db_path rs c emails).1) in *.
    assert (Hread : forall v v', kept L env c' v v' -> readable L env c' v v').
    { intros v v' [H | (p & t & f & Ho & Hn & Hc & Hd)]; [left; exact H |].
      right. exists p, t. rewrite Hc, Hd. auto. }
    destruct Hk as (_ & _ & Hp & Hc & Ht). auto.
  - intros Hall. destruct (Hcommit Hall) as (r & Hr & _).
    exists r. split; [exact Hr |]. rewrite Hr in He'. exact He'.
Qed.

Lemma migration_keeps_credentials_witness :
  exists e',
    table_after [legacy_row]
      (migrate_encrypt_data Toy.lib Toy.env db_file (fun _ => tt) None [legacy_row]).2
    !! O = Some e' /\
    readable Toy.lib Toy.env (Some tt) (Some (lit "hunter2")) (r_password e').
Proof.
  destruct (migration_keeps_credentials Toy.lib Toy.env db_file (fun _ => tt) None
              [legacy_row] O legacy_row eq_refl) as (e' & He & (Hp & _) & _).
  exists e'. split; [exact He | exact Hp].
Defined.

(** A credential that needs no encryption: [NULL], empty, or marked as a
    token. *)
Definition settled (v : option str) : bool :=
  match v with
  | None => true
  | Some s => negb (truthy s) || startswith (lit "gAAAAA") s
  end.

Definition settled_row (e : row) : bool :=
  settled (r_password e) && settled (r_client_id e) && settled (r_refresh_token e).

Lemma migrate_field_settled L env rs st v :
  settled v = true -> migrate_field L env rs st v = (st, Returns None).
Proof.
  unfold settled, migrate_field. destruct v as [s |]; [| reflexivity].
  destruct (truthy s) eqn:Hs; [| reflexivity]. cbn [negb orb].
  intros Hmark. unfold is_encrypted, ret. rewrite Hs. cbn [negb]. rewrite Hmark.
  destruct st. reflexivity.
Qed.

(** The loop on settled rows: no cipher is built, and every row is
    skipped, as far as the lines of the rows are printed. *)
Lemma migrate_rows_settled L env rs st emails :
  forallb settled_row emails = true ->
  forall done skipped, exists o,
    migrate_rows L env rs st emails done 0 skipped = (st, o) /\
    (o = Raises \/
     o = Returns {| rows_after := done ++ emails; encrypted_count := 0;
                    skipped_count := skipped + Z.of_nat (length emails) |}).
Proof.
  induction emails as [| e rest IH]; intros Hall done skipped; simpl.
  - eexists. split; [reflexivity |]. right. rewrite app_nil_r, Z.add_0_r. reflexivity.
  - simpl in Hall. apply andb_true_iff in Hall as [He Hrest].
    unfold settled_row in He. apply andb_true_iff in He as [He Ht].
    apply andb_true_iff in He as [Hp Hc].
    unfold migrate_row. rewrite !migrate_field_settled by assumption. cbv zeta.
    destruct (print L _) as [[] |]; [| eexists; split; [reflexivity | left; reflexivity]].
    destruct (IH Hrest (done ++ [{| r_id := r_id e; r_email := r_email e;
                                    r_password := updated (r_password e) None;
                                    r_client_id := updated (r_client_id e) None;
                                    r_refresh_token := updated (r_refresh_token e) None |}])
                (skipped + 1)) as (o & -> & Ho).
    exists o. split; [reflexivity |]. destruct Ho as [-> | ->]; [left; reflexivity |].
    right. do 2 f_equal.
    + rewrite <- app_assoc. destruct e. reflexivity.
    + lia.
Qed.

(** X3: A table that has been migrated is left as it is, and the cipher is
    not even built; on a stdout that takes every line the run commits with
    every row skipped. *)
Theorem migration_of_migrated_table (L : FernetLib) (env : environ) (db_path : str)
    (rs : nat -> entropy L) (c : cache L) (emails : list row) :
  forallb settled_row emails = true ->
  (migrate_encrypt_data L env db_path rs c emails).1 = c /\
  table_after emails (migrate_encrypt_data L env db_path rs c emails).2 = emails /\
  (takes_every_line L ->
   migrate_encrypt_data L env db_path rs c emails
   = (c, Committed {| rows_after := emails; encrypted_count := 0;
                      skipped_count := Z.of_nat (length emails) |} (Returns true))).
Proof.
  intros Hall.
  destruct (migrate_rows_settled L env rs (c, O) emails Hall [] 0) as (o & Ho & Hcases).
  pose proof (migrate_rows_spec L env rs emails (c, O) [] 0 0) as Hspec.
  unfold migrate_encrypt_data. rewrite Ho in *.
  destruct (print L (connecting ++ db_path)) as [[] |] eqn:Hp1.
  2: { repeat split. intros [Hpr _]. rewrite Hpr in Hp1. discriminate Hp1. }
  destruct (print L (found_head ++ _ ++ found_tail)) as [[] |] eqn:Hp2.
  2: { repeat split. intros [Hpr _]. rewrite Hpr in Hp2. discriminate Hp2. }
  destruct Hcases as [-> | ->].
  - repeat split. intros Hpr.
    destruct Hspec as (st' & o' & [= <- <-] & _ & Hno). contradiction.
  - simpl. destruct (print_summary L _) as [[] |] eqn:Hp3; simpl.
    + repeat split.
    + repeat split. intros [Hpr _]. unfold print_summary in Hp3.
      rewrite !Hpr in Hp3. discriminate Hp3.
Qed.

Lemma migration_of_migrated_table_witness :
  migrate_encrypt_data Toy.lib Toy.env db_file (fun _ => tt) None
    [{| r_id := 1; r_email := lit "a@outlook.com";
        r_password := Some (lit "gAAAAAhunter2"); r_client_id := Some [];
        r_refresh_token := None |}]
  = (None, Committed {| rows_after :=
                          [{| r_id := 1; r_email := lit "a@outlook.com";
                              r_password := Some (lit "gAAAAAhunter2");
                              r_client_id := Some []; r_refresh_token := None |}];
                        encrypted_count := 0; skipped_count := 1 |} (Returns true)).
Proof.
  refine (proj2 (proj2 (migration_of_migrated_table Toy.lib Toy.env db_file (fun _ => tt)
                          None _ _)) toy_takes_every_line).
  reflexivity.
Defined.

(** The cipher cannot be built: [Fernet(key)] or the key itself raises. *)
Definition no_cipher (L : FernetLib) (env : environ) : Prop :=
  value (get_fernet L env None) = None.

Lemma get_fernet_raises L env : no_cipher L env -> get_fernet L env None = (None, Raises).
Proof.
  unfold no_cipher, get_fernet, bind.
  destruct (get_encryption_key L env None) as [c1 [key |]] eqn:Hk.
  - assert (c1 = None) as ->.
    { revert Hk. unfold get_encryption_key, derived_key, bind, lift, ret, raise.
      destruct (ENCRYPTION_KEY env) as [k |]; [destruct (truthy k) |];
        repeat match goal with
               | |- context [match ?o with Some _ => _ | None => _ end] => destruct o
               end; congruence. }
    unfold lift, ret, raise. destruct (Fernet_new L key); [discriminate | reflexivity].
  - assert (c1 = None) as ->; [| reflexivity].
    revert Hk. unfold get_encryption_key, derived_key, bind, lift, ret, raise.
    destruct (ENCRYPTION_KEY env) as [k |]; [destruct (truthy k) |];
      repeat match goal with
             | |- context [match ?o with Some _ => _ | None => _ end] => destruct o
             end; congruence.
Qed.

(** What the handler of [encrypt] ends with: the text, or the exception
    of its [print]. *)
Definition handed_back (L : FernetLib) (s : str) : outcome str :=
  match print_exception L encrypt_failed with
  | Some _ => Returns s
  | None => Raises
  end.

Lemma encrypt_without_cipher L env r s :
  no_cipher L env ->
  encrypt L env r s None = (None, if truthy s then handed_back L s else Returns s).
Proof.
  intros H. apply get_fernet_raises in H.
  unfold encrypt, handed_back. destruct (truthy s); [| reflexivity]. cbn [negb].
  unfold try_except, encrypt_body, bind. rewrite H. unfold lift.
  destruct (print_exception L encrypt_failed); reflexivity.
Qed.

(** X5: Without a cipher [decrypt] gives the text back, and [encrypt] gives
    it back once its handler has printed its line: it raises what that
    [print] raises.  Both leave [_fernet] unset, so that the next call
    tries again. *)
Theorem vault_without_cipher (L : FernetLib) (env : environ) (r : entropy L) (s : str) :
  no_cipher L env ->
  encrypt L env r s None = (None, if truthy s then handed_back L s else Returns s) /\
  decrypt L env s None = (None, Returns s).
Proof.
  intros H. split; [apply encrypt_without_cipher; exact H |].
  apply get_fernet_raises in H. unfold decrypt.
  destruct (negb (truthy s)); [reflexivity |].
  unfold try_except, decrypt_body, bind. rewrite H. reflexivity.
Qed.

Lemma vault_without_cipher_witness :
  (encrypt Toy.lib Toy.bad_env tt (lit "hunter2") None = (None, Returns (lit "hunter2")) /\
   decrypt Toy.lib Toy.bad_env (lit "hunter2") None = (None, Returns (lit "hunter2"))) /\
  encrypt Toy.ascii_lib Toy.bad_env tt (lit "hunter2") None = (None, Raises).
Proof.
  split.
  - apply (vault_without_cipher Toy.lib Toy.bad_env tt (lit "hunter2")). reflexivity.
  - refine (proj1 (vault_without_cipher Toy.ascii_lib Toy.bad_env tt (lit "hunter2") _)).
    reflexivity.
Defined.

Lemma migrate_field_without_cipher L env rs n v :
  no_cipher L env ->
  migrate_field L env rs (None, n) v
  = if settled v then ((None, n), Returns None)
    else ((None, S n),
          match print_exception L encrypt_failed with
          | Some _ => Returns v
          | None => Raises
          end).
Proof.
  intros H. destruct (settled v) eqn:Hv; [apply migrate_field_settled, Hv |].
  unfold settled in Hv. destruct v as [s |]; [| discriminate].
  apply orb_false_iff in Hv as [Hs Hmark]. apply negb_false_iff in Hs.
  unfold migrate_field, is_encrypted, ret. rewrite Hs. cbn [negb fst snd].
  rewrite Hmark. rewrite (encrypt_without_cipher L env (rs n) s H), Hs.
  unfold handed_back. destruct (print_exception L encrypt_failed); reflexivity.
Qed.

Lemma migrate_row_without_cipher L env rs n e :
  no_cipher L env ->
  exists n' o, migrate_row L env rs (None, n) e = ((None, n'), o) /\
    (o = Raises \/ o = Returns (e, negb (settled_row e))).
Proof.
  intros H. unfold migrate_row, settled_row.
  rewrite (migrate_field_without_cipher L env rs n (r_password e) H).
  destruct (print_exception L encrypt_failed) as [[] |] eqn:Hpe.
  - destruct (settled (r_password e)) eqn:Hp;
      rewrite (migrate_field_without_cipher L env rs _ (r_client_id e) H), ?Hpe;
      destruct (settled (r_client_id e)) eqn:Hc;
      rewrite (migrate_field_without_cipher L env rs _ (r_refresh_token e) H), ?Hpe;
      destruct (settled (r_refresh_token e)) eqn:Ht;
      cbv beta iota zeta; destruct (print L _) as [[] |];
      eexists _, _; (split; [reflexivity |]);
      try (left; reflexivity); right;
      destruct e as [i a [p |] [c |] [t |]]; simpl in *;
      try discriminate; reflexivity.
  - destruct (settled (r_password e)) eqn:Hp;
      [| eexists _, _; split; [reflexivity | left; reflexivity]].
    rewrite (migrate_field_without_cipher L env rs _ (r_client_id e) H), Hpe.
    destruct (settled (r_client_id e)) eqn:Hc;
      [| eexists _, _; split; [reflexivity | left; reflexivity]].
    rewrite (migrate_field_without_cipher L env rs _ (r_refresh_token e) H), Hpe.
    destruct (settled (r_refresh_token e)) eqn:Ht;
      [| eexists _, _; split; [reflexivity | left; reflexivity]].
    cbv beta iota zeta. destruct (print L _) as [[] |];
      eexists _, _; (split; [reflexivity |]); [right | left; reflexivity].
    destruct e as [i a [p |] [c |] [t |]]; reflexivity.
Qed.

Lemma migrate_rows_without_cipher L env rs emails :
  no_cipher L env ->
  forall n done encrypted skipped, exists n' o,
    migrate_rows L env rs (None, n) emails done encrypted skipped = ((None, n'), o) /\
    (o = Raises \/
     o = Returns {| rows_after := done ++ emails;
                    encrypted_count := encrypted +
                      Z.of_nat (length (filter (fun e => settled_row e = false) emails));
                    skipped_count := skipped +
                      Z.of_nat (length (filter (fun e => settled_row e = true) emails)) |}).
Proof.
  intros H. induction emails as [| e rest IH]; intros n done encrypted skipped.
  - exists n. eexists. split; [reflexivity |]. right. simpl.
    rewrite app_nil_r, !Z.add_0_r. reflexivity.
  - cbn [migrate_rows].
    destruct (migrate_row_without_cipher L env rs n e H) as (n1 & o1 & -> & [-> | ->]).
    { exists n1, Raises. split; [reflexivity | left; reflexivity]. }
    rewrite !filter_cons. destruct (settled_row e) eqn:He; cbn [negb].
    + destruct (IH n1 (done ++ [e]) encrypted (skipped + 1)) as (n' & o & -> & Ho).
      exists n', o. split; [reflexivity |].
      destruct Ho as [-> | ->]; [left; reflexivity | right].
      rewrite <- app_assoc.
      destruct (decide (true = false)) as [Hd |]; [discriminate Hd |].
      destruct (decide (true = true)) as [| Hd]; [| contradiction Hd; reflexivity].
      do 2 f_equal. cbn [length]. lia.
    + destruct (IH n1 (done ++ [e]) (encrypted + 1) skipped) as (n' & o & -> & Ho).
      exists n', o. split; [reflexivity |].
      destruct Ho as [-> | ->]; [left; reflexivity | right].
      rewrite <- app_assoc.
      destruct (decide (false = false)) as [| Hd]; [| contradiction Hd; reflexivity].
      destruct (decide (false = true)) as [Hd |]; [discriminate Hd |].
      do 2 f_equal. cbn [length]. lia.
Qed.

(** X4: Without a cipher the table is left as it was, however the run
    ends; and on a stdout that takes every line the script still commits
    and reports as encrypted every row that had a credential to encrypt. *)
Theorem migration_without_cipher (L : FernetLib) (env : environ) (db_path : str)
    (rs : nat -> entropy L) (emails : list row) :
  no_cipher L env ->
  table_after emails (migrate_encrypt_data L env db_path rs None emails).2 = emails /\
  (takes_every_line L ->
   (migrate_encrypt_data L env db_path rs None emails).2
   = Committed
       {| rows_after := emails;
          encrypted_count :=
            Z.of_nat (length (filter (fun e => settled_row e = false) emails));
          skipped_count :=
            Z.of_nat (length (filter (fun e => settled_row e = true) emails)) |}
       (Returns true)).
Proof.
  intros H.
  destruct (migrate_rows_without_cipher L env rs emails H O [] 0 0)
    as (n' & o & Ho & Hcases).
  pose proof (migrate_rows_spec L env rs emails (None, O) [] 0 0) as Hspec.
  unfold migrate_encrypt_data. unfold cache in *. rewrite Ho in *.
  destruct (print L (connecting ++ db_path)) as [[] |] eqn:Hp1.
  2: { split; [reflexivity |]. intros [Hpr _]. rewrite Hpr in Hp1. discriminate Hp1. }
  destruct (print L (found_head ++ _ ++ found_tail)) as [[] |] eqn:Hp2.
  2: { split; [reflexivity |]. intros [Hpr _]. rewrite Hpr in Hp2. discriminate Hp2. }
  destruct Hcases as [-> | ->].
  - split; [reflexivity |]. intros Hpr.
    destruct Hspec as (st' & o' & [= <- <-] & _ & Hno). contradiction.
  - simpl. destruct (print_summary L _) as [[] |] eqn:Hp3; simpl.
    + split; reflexivity.
    + split; [reflexivity |]. intros [Hpr _]. unfold print_summary in Hp3.
      rewrite !Hpr in Hp3. discriminate Hp3.
Qed.

Lemma migration_without_cipher_witness :
  table_after [legacy_row]
    (migrate_encrypt_data Toy.ascii_lib Toy.bad_env db_file (fun _ => tt) None
       [legacy_row]).2 = [legacy_row] /\
  (migrate_encrypt_data Toy.lib Toy.bad_env db_file (fun _ => tt) None [legacy_row]).2
  = Committed {| rows_after := [legacy_row]; encrypted_count := 1; skipped_count := 0 |}
      (Returns true).
Proof.
  split.
  - refine (proj1 (migration_without_cipher Toy.ascii_lib Toy.bad_env db_file
                     (fun _ => tt) [legacy_row] _)).
    reflexivity.
  - refine (proj2 (migration_without_cipher Toy.lib Toy.bad_env db_file
                     (fun _ => tt) [legacy_row] _) toy_takes_every_line).
    reflexivity.
Defined.

(** X6: The key is read when the cipher is built and never again: once a call
    has built it, what [encrypt] and [decrypt] return does not depend on
    the environment any more. *)
Theorem key_read_once (L : FernetLib) (env env' : environ) (c : cache L)
    (r r' : entropy L) (p s : str) :
  truthy p = true -> accepted L env c r p ->
  let c' := (encrypt L env r p c).1 in
  encrypt L env' r' s c' = encrypt L env r' s c' /\
  decrypt L env' s c' = decrypt L env s c'.
Proof.
  unfold accepted. intros Hp [t Ht].
  destruct (encrypt_body L env r p c) as [c1 [t' |]] eqn:Hb; [| discriminate].
  destruct (CryptoProps.encrypt_body_returns L env r p c c1 t' Hb)
    as (f & data & token & -> & Hd & Htok & Hdec).
  assert (Hc : (encrypt L env r p c).1 = Some f).
  { unfold encrypt. rewrite Hp. cbn [negb]. unfold try_except. rewrite Hb.
    reflexivity. }
  cbv zeta. rewrite Hc. unfold encrypt, decrypt.
  destruct (negb (truthy s)); [split; reflexivity |].
  unfold try_except, encrypt_body, decrypt_body, bind.
  rewrite !CryptoProps.get_fernet_cached. split; reflexivity.
Qed.

(** A key given after the first use is not taken. *)
Definition other_env : environ :=
  {| ENCRYPTION_KEY := Some (lit "0123456789012345678901234567890123456789012=");
     JWT_SECRET_KEY := None |}.

Lemma key_read_once_witness :
  decrypt Toy.lib other_env (lit "gAAAAAhunter2") (Some tt)
  = decrypt Toy.lib Toy.env (lit "gAAAAAhunter2") (Some tt).
Proof.
  apply (key_read_once Toy.lib Toy.env other_env None tt tt (lit "hunter2")
           (lit "gAAAAAhunter2")); [reflexivity |].
  eexists. reflexivity.
Defined.

End MigrateProps.

(** ** [GraphAPIMailHandler.check_mail]: what a pull check leaves behind *)

Module CheckProps.
Import GraphApi PyProps StoreProps.

Definition INBOX : str := lit "INBOX".
Definition JUNK : str := lit "JUNK".

(** [add_mail_record] finds the message, or adds one row that holds what
    was passed. *)
Lemma add_mail_record_row d email_id subject sender received_time content folder att :
  let r := Store.add_mail_record d email_id subject sender received_time content
             folder att in
  (r = (d, (false, None)) \/
   exists row, r.2.1 = true /\ extends d r.1 [row] /\
     Store.m_email_id row = email_id /\ Store.m_folder row = folder) /\
  existsb (Store.same_mail email_id subject sender received_time)
    (Store.mail_records r.1) = true.
Proof.
  unfold Store.add_mail_record.
  destruct (existsb _ (Store.mail_records d)) eqn:Hex; cbn [fst snd].
  - split; [left; reflexivity | exact Hex].
  - split.
    + right.
      match goal with |- context [Store.mail_records d ++ [?r]] => exists r end.
      split; [reflexivity |]. split; [| split; reflexivity].
      unfold extends. cbn. repeat split.
      constructor; [| constructor]. cbn.
      pose proof (fresh_id_positive (map Store.m_id (Store.mail_records d))). lia.
    + cbn [Store.mail_records]. rewrite existsb_app. cbn [existsb].
      rewrite same_mail_refl, orb_true_r. reflexivity.
Qed.

Section WithPython.
Context (P : Python) (net : network).

(** The store holds the record for the mailbox. *)
Definition kept_record (d : Store.db) (email_id : Z) (r : mail_record) : Prop :=
  existsb (Store.same_mail email_id (f_subject r) (f_sender r)
             (stored_time P (f_received_time r))) (Store.mail_records d) = true.

Lemma kept_record_extends d d' rows email_id r :
  extends d d' rows -> kept_record d email_id r -> kept_record d' email_id r.
Proof.
  intros (Hm & _) H. unfold kept_record in *. rewrite Hm, existsb_app, H. reflexivity.
Qed.

(** A row added for a mailbox, in a folder one of the records names. *)
Definition row_of (email_id : Z) (records : list mail_record) (row : Store.mail_row)
  : Prop :=
  Store.m_email_id row = email_id /\
  exists r, r ∈ records /\ Store.m_folder row = f_folder r.

Lemma save_records_spec email_id records : forall d saved d1 saved1,
  save_records P d email_id records saved = (d1, saved1) ->
  exists rows, extends d d1 rows /\
    saved1 = saved + Z.of_nat (length rows) /\
    (length rows <= length records)%nat /\
    Forall (row_of email_id records) rows /\
    Forall (kept_record d1 email_id) records.
Proof.
  induction records as [| r rest IH]; intros d saved d1 saved1; simpl.
  - intros [= <- <-]. exists []. split; [apply extends_refl |].
    repeat split; [simpl; lia | simpl; lia | constructor | constructor].
  - pose proof (add_mail_record_row d email_id (f_subject r) (f_sender r)
                  (stored_time P (f_received_time r)) (f_content r) (f_folder r)
                  (f_has_attachments r)) as Hcases.
    cbv zeta in Hcases.
    destruct (Store.add_mail_record d email_id _ _ _ _ _ _) as [d0 [ok mid]].
    cbn [fst snd] in *. destruct Hcases as [[Hr | (row & Hok & Hext & Hid & Hf)] Hst].
    + injection Hr as -> -> ->. intros Hrun.
      destruct (IH _ _ _ _ Hrun) as (rows & Hext & Hsaved & Hlen & Hrows & Hall).
      exists rows. split; [assumption |]. split; [assumption |].
      split; [lia |]. split.
      * eapply Forall_impl; [exact Hrows |].
        intros row (Hid & r' & Hin & Hf). split; [exact Hid |].
        exists r'. split; [right; exact Hin | exact Hf].
      * constructor; [| assumption]. eapply kept_record_extends; eassumption.
    + subst ok. intros Hrun.
      destruct (IH _ _ _ _ Hrun) as (rows & Hext' & Hsaved & Hlen & Hrows & Hall).
      exists (row :: rows). split; [apply (extends_trans _ _ _ _ _ Hext Hext') |].
      split; [rewrite Hsaved; simpl length; lia |].
      split; [simpl; lia |]. split.
      * constructor.
        -- split; [exact Hid |]. exists r. split; [left | exact Hf].
        -- eapply Forall_impl; [exact Hrows |].
           intros row' (Hid' & r' & Hin & Hf'). split; [exact Hid' |].
           exists r'. split; [right; exact Hin | exact Hf'].
      * constructor; [| assumption]. eapply kept_record_extends; eassumption.
Qed.

(** The messages the two listings of a check give. *)
Definition listed (access_token : str) (since : pytime) : list message :=
  (get_messages P net access_token (lit "inbox") 100 since).2
  ++ (get_messages P net access_token (lit "junkemail") 100 since).2.

Definition record_of (folder : str) (msg : message) : mail_record :=
  {| f_subject := g_subject msg; f_sender := g_sender msg;
     f_received_time := g_received_time msg; f_content := g_content msg;
     f_has_attachments := if g_has_attachments msg then 1 else 0;
     f_folder := folder |}.

Lemma fetch_folders_records access_token since :
  (fetch_folders P net access_token since folders_to_check).2
  = map (record_of INBOX)
      (get_messages P net access_token (lit "inbox") 100 since).2
    ++ map (record_of JUNK)
         (get_messages P net access_token (lit "junkemail") 100 since).2.
Proof.
  unfold folders_to_check, fetch_folders, fetch_emails.
  destruct (get_messages P net access_token (lit "inbox") 100 since) as [tr1 l1].
  destruct (get_messages P net access_token (lit "junkemail") 100 since) as [tr2 l2].
  cbn [fst snd]. rewrite app_nil_r, !map_map. reflexivity.
Qed.

(** What a successful check has done. *)
Record done (now : str) (email_info : Store.email_row) (d : Store.db)
    (r : Store.db * list event * check_result) (access_token : str)
    (rows : list Store.mail_row) : Prop := {
  done_token : exists refresh_token client_id,
    Store.e_refresh_token email_info = Some refresh_token /\
    Store.e_client_id email_info = Some client_id /\
    (get_new_access_token net refresh_token client_id).2 = Some access_token;
  done_store : exists d2,
    extends (Store.update_email_token d (Store.e_id email_info) access_token) d2 rows /\
    r.1.1 = Store.update_check_time now d2 (Store.e_id email_info) /\
    Forall (kept_record d2 (Store.e_id email_info))
      (fetch_folders P net access_token (PullProps.since_of email_info d)
         folders_to_check).2;
  done_rows :
    Forall (row_of (Store.e_id email_info)
              (fetch_folders P net access_token (PullProps.since_of email_info d)
                 folders_to_check).2) rows;
  done_result :
    r.2 = {| success := true;
             total := Z.of_nat (length (listed access_token
                                          (PullProps.since_of email_info d)));
             saved := Z.of_nat (length rows) |};
  done_saved :
    (length rows <= length (listed access_token (PullProps.since_of email_info d)))%nat;
}.

(** A check ends in one of three ways. *)
Lemma check_mail_cases now email_info d :
  let r := check_mail P net now email_info d in
  r = (d, [], {| success := false; total := 0; saved := 0 |}) \/
  (exists refresh_token client_id,
     r = (d, [TokenRequest refresh_token client_id],
          {| success := false; total := 0; saved := 0 |})) \/
  exists access_token rows, done now email_info d r access_token rows.
Proof.
  cbv zeta. unfold check_mail.
  destruct (Store.e_refresh_token email_info) as [refresh_token |] eqn:Hrt;
    [| left; reflexivity].
  destruct (Store.e_client_id email_info) as [client_id |] eqn:Hcid;
    [| left; reflexivity].
  destruct (truthy refresh_token && truthy client_id); [| left; reflexivity].
  right.
  destruct (get_new_access_token net refresh_token client_id) as [tr1 tok] eqn:Htok.
  assert (Htr : tr1 = [TokenRequest refresh_token client_id]).
  { unfold get_new_access_token in Htok. injection Htok as <- _. reflexivity. }
  destruct tok as [access_token |]; [| left; exists refresh_token, client_id; subst tr1;
                                       reflexivity].
  right. exists access_token.
  unfold is_first_sync. fold (PullProps.since_of email_info d).
  pose proof (fetch_folders_records access_token (PullProps.since_of email_info d))
    as Hrec.
  assert (Hlen : length (fetch_folders P net access_token
                           (PullProps.since_of email_info d) folders_to_check).2
                 = length (listed access_token (PullProps.since_of email_info d))).
  { rewrite Hrec. unfold listed. rewrite !length_app, !length_map. reflexivity. }
  destruct (fetch_folders P net access_token (PullProps.since_of email_info d)
              folders_to_check) as [tr2 records] eqn:Hff.
  cbn [snd] in Hrec, Hlen.
  destruct (Z.of_nat (length records) =? 0) eqn:Hz.
  - exists []. apply Z.eqb_eq in Hz.
    assert (records = []) as Hnil by (destruct records; [reflexivity | simpl in Hz; lia]).
    split.
    + exists refresh_token, client_id. rewrite Htok. auto.
    + eexists. split; [apply extends_refl |]. split; [reflexivity |].
      rewrite Hff, Hnil. constructor.
    + constructor.
    + cbn [snd]. rewrite <- Hlen, Hnil. reflexivity.
    + simpl. lia.
  - destruct (save_records P _ (Store.e_id email_info) records 0) as [d2 saved_count]
      eqn:Hsave.
    destruct (save_records_spec _ _ _ _ _ _ Hsave)
      as (rows & Hext & -> & Hle & Hrows & Hall).
    exists rows. split.
    + exists refresh_token, client_id. rewrite Htok. auto.
    + exists d2. rewrite Hff. auto.
    + rewrite Hff. exact Hrows.
    + cbn [snd]. rewrite <- Hlen, Z.add_0_l. reflexivity.
    + rewrite <- Hlen. exact Hle.
Qed.

End WithPython.

Import PullProps.

(** X7: A check that reports a failure has sent no listing request and has
    left the store as it was. *)
Theorem failed_check_changes_nothing (P : Python) (net : network) (now : str)
    (email_info : Store.email_row) (d : Store.db) :
  success (check_mail P net now email_info d).2 = false ->
  (check_mail P net now email_info d).1.1 = d /\
  forall folder top flt,
    ListRequest folder top flt ∉ (check_mail P net now email_info d).1.2.
Proof.
  intros Hf.
  destruct (check_mail_cases P net now email_info d)
    as [Hr | [(rt & cid & Hr) | (tok & rows & H)]].
  - rewrite Hr. split; [reflexivity |]. intros folder top flt Hin.
    cbn in Hin. inversion Hin.
  - rewrite Hr. split; [reflexivity |]. intros folder top flt Hin. cbn in Hin.
    apply list_elem_of_singleton in Hin. discriminate.
  - destruct H as [_ _ _ Hres _]. rewrite Hres in Hf. discriminate.
Qed.

(** A mailbox whose refresh token has been revoked. *)
Definition refusing_net : network :=
  {| token_endpoint := fun _ _ => TokenJson true None;
     graph_messages := fun _ _ _ _ => ListOk [];
     graph_subscribe := fun _ _ => Raises |}.

Lemma failed_check_changes_nothing_witness :
  (check_mail AsciiTable.python refusing_net (lit "2026-01-06 00:00:00")
     checked_mailbox store_with_upload).1.1 = store_with_upload.
Proof.
  apply (failed_check_changes_nothing AsciiTable.python refusing_net
           (lit "2026-01-06 00:00:00") checked_mailbox store_with_upload).
  reflexivity.
Defined.

(** X8: A successful check only adds: the stored messages are kept, the rows
    added belong to the mailbox checked and lie in INBOX or JUNK, [saved]
    counts them and never exceeds [total], the number of messages the two
    listings gave. *)
Theorem check_adds_rows_of_the_mailbox (P : Python) (net : network) (now : str)
    (email_info : Store.email_row) (d : Store.db) :
  let r := check_mail P net now email_info d in
  success r.2 = true ->
  exists rows,
    Store.mail_records r.1.1 = Store.mail_records d ++ rows /\
    Store.subscriptions r.1.1 = Store.subscriptions d /\
    saved r.2 = Z.of_nat (length rows) /\
    saved r.2 <= total r.2 /\
    Forall (fun row => Store.m_email_id row = Store.e_id email_info /\
                       (Store.m_folder row = INBOX \/ Store.m_folder row = JUNK)) rows.
Proof.
  cbv zeta. intros Hs.
  destruct (check_mail_cases P net now email_info d)
    as [Hr | [(rt & cid & Hr) | (tok & rows & H)]];
    [rewrite Hr in Hs; discriminate | rewrite Hr in Hs; discriminate |].
  destruct H as [_ (d2 & (Hm & _ & Hsub & _) & Hd & _) Hrows Hres Hle].
  exists rows. rewrite Hd, Hres. cbn [Store.mail_records
    Store.subscriptions Store.update_check_time saved total].
  split; [exact Hm |]. split; [exact Hsub |].
  split; [reflexivity |]. split; [lia |].
  eapply Forall_impl; [exact Hrows |].
  intros row (Hid & r & Hin & Hf). split; [exact Hid |]. rewrite Hf.
  rewrite fetch_folders_records in Hin. apply elem_of_app in Hin as [Hin | Hin];
    apply list_elem_of_fmap in Hin as (msg & -> & _); [left | right]; reflexivity.
Qed.

(** A network that grants a token and lists one message in each folder. *)
Definition a_message : raw_message :=
  {| Net.r_id := Some (lit "AAMk1"); r_subject := Some (lit "Your code is 482913");
     r_from_name := Some (lit "Shop"); r_from_address := Some (lit "no-reply@shop.test");
     r_receivedDateTime := Some (lit "2026-01-05T18:58:09Z");
     r_body_content := Some (lit "482913"); r_hasAttachments := false |}.

Definition listing_net : network :=
  {| token_endpoint := fun _ _ => TokenJson false (Some (lit "access"));
     graph_messages := fun _ _ _ _ => ListOk [a_message];
     graph_subscribe := fun _ _ => Raises |}.

Lemma check_adds_rows_of_the_mailbox_witness :
  exists rows,
    Store.mail_records
      (check_mail AsciiTable.python listing_net (lit "2026-01-06 00:00:00")
         checked_mailbox store_with_upload).1.1
    = [uploaded_mail] ++ rows /\
    saved (check_mail AsciiTable.python listing_net (lit "2026-01-06 00:00:00")
             checked_mailbox store_with_upload).2 = Z.of_nat (length rows).
Proof.
  destruct (check_adds_rows_of_the_mailbox AsciiTable.python listing_net
              (lit "2026-01-06 00:00:00") checked_mailbox store_with_upload eq_refl)
    as (rows & Hm & _ & Hs & _).
  exists rows. split; [exact Hm | exact Hs].
Defined.



(** What a check does to a row of [emails]. *)
Definition checked_row (now : str) (email_id : Z) (e e' : Store.email_row) : Prop :=
  Store.e_id e' = Store.e_id e /\ Store.e_user_id e' = Store.e_user_id e /\
  Store.e_email e' = Store.e_email e /\ Store.e_password e' = Store.e_password e /\
  Store.e_client_id e' = Store.e_client_id e /\
  Store.e_refresh_token e' = Store.e_refresh_token e /\
  Store.e_mail_type e' = Store.e_mail_type e /\
  if Store.e_id e =? email_id
  then Store.e_last_check_time e' = Some now /\ is_Some (Store.e_access_token e')
  else e' = e.

(** X10: A successful check moves [last_check_time] of the mailbox checked to
    the time of the check and keeps its new access token; no credential
    changes, and every other mailbox is left as it was. *)
Theorem check_marks_the_mailbox (P : Python) (net : network) (now : str)
    (email_info : Store.email_row) (d : Store.db) :
  success (check_mail P net now email_info d).2 = true ->
  Forall2 (checked_row now (Store.e_id email_info)) (Store.emails d)
    (Store.emails (check_mail P net now email_info d).1.1).
Proof.
  intros Hs.
  destruct (check_mail_cases P net now email_info d)
    as [Hr | [(rt & cid & Hr) | (tok & rows & H)]];
    [rewrite Hr in Hs; discriminate | rewrite Hr in Hs; discriminate |].
  destruct H as [_ (d2 & (_ & He & _) & Hd & _) _ _ _].
  rewrite Hd. cbn [Store.emails Store.update_check_time]. rewrite He.
  cbn [Store.emails Store.update_email_token].
  induction (Store.emails d) as [| e es IH]; [constructor |].
  cbn [map]. constructor; [| exact IH].
  unfold checked_row, Store.set_check_time, Store.set_token.
  destruct (Store.e_id e =? Store.e_id email_info) eqn:Hid; cbn.
  - rewrite Hid. cbn. repeat split; eauto.
  - rewrite Hid. repeat split.
Qed.

Lemma check_marks_the_mailbox_witness :
  Forall2 (checked_row (lit "2026-01-06 00:00:00") 1) [unchecked_mailbox]
    (Store.emails
       (check_mail AsciiTable.python listing_net (lit "2026-01-06 00:00:00")
          checked_mailbox store_with_upload).1.1).
Proof.
  exact (check_marks_the_mailbox AsciiTable.python listing_net
           (lit "2026-01-06 00:00:00") checked_mailbox store_with_upload eq_refl).
Defined.

End CheckProps.

(** ** [GraphWebhookManager]: the subscriptions of the store *)

Module SubscriptionProps.
Import Webhook PyProps.

Lemma find_snoc_none {A} (f : A -> bool) (l : list A) (x : A) :
  find f l = None -> find f (l ++ [x]) = if f x then Some x else None.
Proof.
  induction l as [| y l IH]; cbn; [reflexivity |].
  destruct (f y); [discriminate | exact IH].
Qed.

Section WithPython.
Context (P : Python) (net : network).

(** The five ways a call of [create_subscription] ends. *)
Inductive attempt (d : Store.db) (email_info : Store.email_row)
  : Store.db * list event * option created -> Prop :=
| NotTried : attempt d email_info (d, [], None)
| Found s :
    Store.get_subscription_by_email_id d (Store.e_id email_info) = Some s ->
    attempt d email_info (d, [], Some (Existing s))
| NoToken refresh_token client_id :
    attempt d email_info (d, [TokenRequest refresh_token client_id], None)
| Refused refresh_token client_id :
    attempt d email_info
      (d, [TokenRequest refresh_token client_id;
           SubscribeRequest (client_state_of (Store.e_id email_info))], None)
| Made refresh_token client_id subscription_id expiration_time text :
    Store.get_subscription_by_email_id d (Store.e_id email_info) = None ->
    attempt d email_info
      (Store.add_subscription d (Store.e_id email_info) subscription_id
         inbox_resource text,
       [TokenRequest refresh_token client_id;
        SubscribeRequest (client_state_of (Store.e_id email_info))],
       Some (Fresh subscription_id expiration_time)).

Lemma create_subscription_attempt clock d email_info :
  attempt d email_info (create_subscription P net clock d email_info).
Proof.
  unfold create_subscription.
  destruct (Store.e_refresh_token email_info) as [rt |]; [| constructor].
  destruct (Store.e_client_id email_info) as [cid |]; [| constructor].
  destruct (truthy rt && truthy cid); [| constructor].
  destruct (Store.get_subscription_by_email_id d (Store.e_id email_info)) as [s |] eqn:Hs.
  { constructor. exact Hs. }
  destruct (GraphApi.get_new_access_token net rt cid) as [tr1 tok] eqn:Htok.
  assert (tr1 = [TokenRequest rt cid]) as ->.
  { unfold GraphApi.get_new_access_token in Htok. injection Htok as <- _. reflexivity. }
  destruct tok as [access_token |]; [| constructor].
  cbv zeta. cbn [app].
  destruct (graph_subscribe net access_token _) as [response |]; [| constructor].
  destruct (status_code response =? 201); [econstructor; exact Hs |].
  destruct (status_code response =? 429); constructor.
Qed.

(** A call that returns a subscription has found it or has made it. *)
Lemma attempt_success d email_info r :
  attempt d email_info r -> is_Some r.2 ->
  is_Some (Store.get_subscription_by_email_id r.1.1 (Store.e_id email_info)).
Proof.
  intros [| s Hs | | | rt cid sid exp text Hnone] [c Hc]; try discriminate.
  - cbn. rewrite Hs. eexists. reflexivity.
  - cbn. unfold Store.get_subscription_by_email_id, Store.add_subscription.
    cbn [Store.subscriptions].
    unfold Store.get_subscription_by_email_id in Hnone.
    rewrite (find_snoc_none _ _ _ Hnone).
    cbn. rewrite Z.eqb_refl. eexists. reflexivity.
Qed.

End WithPython.

(** No mailbox has two subscriptions on record. *)
Definition one_per_mailbox (d : Store.db) : Prop :=
  NoDup (map Store.s_email_id (Store.subscriptions d)).

Lemma no_subscription_of d email_id :
  Store.get_subscription_by_email_id d email_id = None ->
  email_id ∉ map Store.s_email_id (Store.subscriptions d).
Proof.
  unfold Store.get_subscription_by_email_id.
  induction (Store.subscriptions d) as [| s l IH]; cbn.
  - intros _ H. inversion H.
  - destruct (Store.s_email_id s =? email_id) eqn:He; [discriminate |].
    intros Hf Hin. apply elem_of_cons in Hin as [Heq | Hin]; [| exact (IH Hf Hin)].
    apply Z.eqb_neq in He. congruence.
Qed.

Lemma attempt_one_per_mailbox d email_info r :
  attempt d email_info r -> one_per_mailbox d -> one_per_mailbox r.1.1.
Proof.
  intros [| s Hs | | | rt cid sid exp text Hnone] Hd; try exact Hd.
  unfold one_per_mailbox. cbn. rewrite map_app. cbn.
  apply NoDup_app. split; [exact Hd |]. split.
  - intros x Hx Hin. apply list_elem_of_singleton in Hin as ->.
    exact (no_subscription_of _ _ Hnone Hx).
  - apply NoDup_singleton.
Qed.

(** X12: [create_subscription] writes to [subscriptions] only, records at most
    one row, and never a second one for a mailbox; when it returns a
    subscription, the store holds one for the mailbox. *)
Theorem create_subscription_one_per_mailbox (P : Python) (net : network) (clock : Z)
    (d : Store.db) (email_info : Store.email_row) :
  one_per_mailbox d ->
  let r := create_subscription P net clock d email_info in
  one_per_mailbox r.1.1 /\
  Store.emails r.1.1 = Store.emails d /\
  Store.mail_records r.1.1 = Store.mail_records d /\
  (is_Some r.2 ->
   is_Some (Store.get_subscription_by_email_id r.1.1 (Store.e_id email_info))).
Proof.
  intros Hd. cbv zeta.
  pose proof (create_subscription_attempt P net clock d email_info) as Ha.
  split; [exact (attempt_one_per_mailbox _ _ _ Ha Hd) |].
  split; [destruct Ha; reflexivity |].
  split; [destruct Ha; reflexivity |].
  exact (attempt_success _ _ _ Ha).
Qed.

(** A network that grants tokens and subscriptions. *)
Definition granting_net : network :=
  {| token_endpoint := fun _ _ => TokenJson false (Some (lit "access"));
     graph_messages := fun _ _ _ _ => ListOk [];
     graph_subscribe := fun _ _ =>
       Returns {| status_code := 201; retry_after := None;
                  subscription_id := Some (lit "sub") |} |}.

Lemma create_subscription_one_per_mailbox_witness :
  one_per_mailbox
    (create_subscription AsciiTable.python granting_net 63903236289
       BulkProps.two_mailboxes (BulkProps.outlook_mailbox 1 "a@outlook.com")).1.1.
Proof.
  apply (create_subscription_one_per_mailbox AsciiTable.python granting_net 63903236289
           BulkProps.two_mailboxes (BulkProps.outlook_mailbox 1 "a@outlook.com")).
  apply NoDup_nil_2.
Defined.

(** X13: Once [create_subscription] has returned a subscription for a mailbox,
    a further call for it sends nothing, changes nothing and returns the
    subscription of the store, whatever the network and the clock. *)
Theorem create_subscription_again (P : Python) (net net' : network) (clock clock' : Z)
    (d : Store.db) (email_info : Store.email_row) :
  let r := create_subscription P net clock d email_info in
  is_Some r.2 ->
  exists s,
    Store.s_email_id s = Store.e_id email_info /\
    create_subscription P net' clock' r.1.1 email_info
    = (r.1.1, [], Some (Existing s)).
Proof.
  cbv zeta. intros Hsome.
  pose proof (create_subscription_attempt P net clock d email_info) as Ha.
  destruct (attempt_success _ _ _ Ha Hsome) as [s Hs].
  exists s. split.
  - unfold Store.get_subscription_by_email_id in Hs.
    apply find_some in Hs as [_ Hs]. lia.
  - assert (Hcred : exists rt cid,
              Store.e_refresh_token email_info = Some rt /\
              Store.e_client_id email_info = Some cid /\
              truthy rt && truthy cid = true).
    { revert Hsome. unfold create_subscription.
      destruct (Store.e_refresh_token email_info) as [rt |]; [| intros [? [=]]].
      destruct (Store.e_client_id email_info) as [cid |]; [| intros [? [=]]].
      destruct (truthy rt && truthy cid) eqn:Ht; [| intros [? [=]]].
      intros _. exists rt, cid. auto. }
    destruct Hcred as (rt & cid & Hrt & Hcid & Ht).
    revert Hs. generalize (create_subscription P net clock d email_info).1.1.
    intros d1 Hs. unfold create_subscription. rewrite Hrt, Hcid, Ht, Hs. reflexivity.
Qed.

Lemma create_subscription_again_witness :
  exists s,
    Store.s_email_id s = 1 /\
    create_subscription AsciiTable.python BulkProps.throttling_net 0
      (create_subscription AsciiTable.python granting_net 63903236289
         BulkProps.two_mailboxes (BulkProps.outlook_mailbox 1 "a@outlook.com")).1.1
      (BulkProps.outlook_mailbox 1 "a@outlook.com")
    = ((create_subscription AsciiTable.python granting_net 63903236289
          BulkProps.two_mailboxes (BulkProps.outlook_mailbox 1 "a@outlook.com")).1.1,
       [], Some (Existing s)).
Proof.
  apply (create_subscription_again AsciiTable.python granting_net
           BulkProps.throttling_net 63903236289 0 BulkProps.two_mailboxes
           (BulkProps.outlook_mailbox 1 "a@outlook.com")).
  eexists. reflexivity.
Defined.

(** Every request for a subscription is followed at once by the pause of
    2 seconds. *)
Fixpoint paced (tr : list event) : bool :=
  match tr with
  | [] => true
  | SubscribeRequest _ :: rest =>
      match rest with
      | Sleep seconds :: _ => (seconds =? 2) && paced rest
      | _ => false
      end
  | _ :: rest => paced rest
  end.

Definition tally_sum (t : tally) : Z := t_created t + t_failed t + t_skipped t.

(** What one turn of the loop does for a mailbox without a subscription:
    [t1] are the tallies after the call. *)
Lemma create_subscription_step (P : Python) (net : network) (clock : Z) (d : Store.db)
    (e : Store.email_row) (t : tally) :
  Store.get_subscription_by_email_id d (Store.e_id e) = None ->
  let r := create_subscription P net clock d e in
  let t1 :=
    match r.2 with
    | Some _ => {| t_created := t_created t + 1; t_failed := t_failed t;
                   t_skipped := t_skipped t |}
    | None => {| t_created := t_created t; t_failed := t_failed t + 1;
                 t_skipped := t_skipped t |}
    end in
  exists new,
    Store.subscriptions r.1.1 = Store.subscriptions d ++ new /\
    Store.emails r.1.1 = Store.emails d /\
    Store.mail_records r.1.1 = Store.mail_records d /\
    (one_per_mailbox d -> one_per_mailbox r.1.1) /\
    Forall (fun s => Store.s_email_id s = Store.e_id e) new /\
    t_created t1 = t_created t + Z.of_nat (length new) /\
    t_failed t1 >= t_failed t /\ t_skipped t1 = t_skipped t /\
    tally_sum t1 = tally_sum t + 1 /\
    forall rest, paced rest = true -> paced (r.1.2 ++ [Sleep 2] ++ rest) = true.
Proof.
  intros Hs. cbv zeta.
  pose proof (create_subscription_attempt P net clock d e) as Ha.
  pose proof (attempt_one_per_mailbox _ _ _ Ha) as Hone.
  destruct (create_subscription P net clock d e) as [[d1 tr] result].
  inversion Ha as [| s0 Hs0 | rt cid | rt cid | rt cid sid exp text Hnone];
    subst; cbn [fst snd] in *; [| congruence | | |].
  - exists []. rewrite app_nil_r. unfold tally_sum. cbn.
    repeat split; try lia; auto.
  - exists []. rewrite app_nil_r. unfold tally_sum. cbn.
    repeat split; try lia; auto.
  - exists []. rewrite app_nil_r. unfold tally_sum. cbn.
    repeat split; try lia; auto.
  - eexists [_]. unfold tally_sum. cbn.
    repeat split; try lia; auto.
Qed.

(** The loop, from any point on. *)
Lemma create_loop_spec (P : Python) (net : network) (batch_size delay total : Z)
    (emails : list Store.email_row) : forall i clock d t,
  let r := create_loop P net batch_size delay total i clock d emails t in
  exists new,
    Store.subscriptions r.1.1 = Store.subscriptions d ++ new /\
    Store.emails r.1.1 = Store.emails d /\
    Store.mail_records r.1.1 = Store.mail_records d /\
    (one_per_mailbox d -> one_per_mailbox r.1.1) /\
    Forall (fun s => exists e, e ∈ emails /\ Store.s_email_id s = Store.e_id e) new /\
    paced r.1.2 = true /\
    match r.2 with
    | Some t' =>
        t_created t' = t_created t + Z.of_nat (length new) /\
        t_failed t' >= t_failed t /\ t_skipped t' >= t_skipped t /\
        tally_sum t' = tally_sum t + Z.of_nat (length emails)
    | None => batch_size = 0 \/ sleep_returns P delay = false
    end.
Proof.
  induction emails as [| e rest IH]; intros i clock d t; cbv zeta.
  - exists []. cbn. rewrite app_nil_r. unfold tally_sum.
    repeat split; try lia; auto.
  - cbn [create_loop].
    destruct (Store.get_subscription_by_email_id d (Store.e_id e)) as [s |] eqn:Hs.
    + specialize (IH (i + 1) clock d
                    {| t_created := t_created t; t_failed := t_failed t;
                       t_skipped := t_skipped t + 1 |}).
      cbv zeta in IH.
      destruct IH as (new & H1 & H2 & H3 & H4 & H5 & H6 & H7).
      exists new. repeat split; try assumption.
      * eapply Forall_impl; [exact H5 |]. intros s' (e' & Hin & He').
        exists e'. split; [right; exact Hin | exact He'].
      * destruct (create_loop P net batch_size delay total (i + 1) clock d rest _).2
          as [t' |]; [| exact H7].
        unfold tally_sum in *. cbn [t_created t_failed t_skipped length] in *.
        repeat split; lia.
    + pose proof (create_subscription_step P net clock d e t Hs) as Hstep.
      cbv zeta in Hstep.
      destruct (create_subscription P net clock d e) as [[d1 tr] result].
      cbn [fst snd] in Hstep.
      destruct Hstep as (new1 & S1 & S2 & S3 & S4 & S5 & S6 & S7 & S8 & S9 & S10).
      assert (Hhere : Forall (fun s => exists e0, e0 ∈ e :: rest /\
                                         Store.s_email_id s = Store.e_id e0) new1).
      { eapply Forall_impl; [exact S5 |]. intros s' Hs'.
        exists e. split; [left | exact Hs']. }
      assert (Hstop : exists new,
        Store.subscriptions (d1, tr ++ [Sleep 2], @None tally).1.1
        = Store.subscriptions d ++ new /\
        Store.emails (d1, tr ++ [Sleep 2], @None tally).1.1 = Store.emails d /\
        Store.mail_records (d1, tr ++ [Sleep 2], @None tally).1.1
        = Store.mail_records d /\
        (one_per_mailbox d -> one_per_mailbox (d1, tr ++ [Sleep 2], @None tally).1.1) /\
        Forall (fun s => exists e0, e0 ∈ e :: rest /\
                           Store.s_email_id s = Store.e_id e0) new /\
        paced (d1, tr ++ [Sleep 2], @None tally).1.2 = true).
      { exists new1. cbn [fst snd]. repeat split; try assumption.
        specialize (S10 [] eq_refl). rewrite app_nil_r in S10. exact S10. }
      assert (Hgo : forall clock' pause,
        paced pause = true ->
        (forall tr', paced (pause ++ tr') = paced tr') ->
        let r' := create_loop P net batch_size delay total (i + 1) clock' d1 rest
                    match result with
                    | Some _ => {| t_created := t_created t + 1; t_failed := t_failed t;
                                   t_skipped := t_skipped t |}
                    | None => {| t_created := t_created t; t_failed := t_failed t + 1;
                                 t_skipped := t_skipped t |}
                    end in
        exists new,
          Store.subscriptions r'.1.1 = Store.subscriptions d ++ new /\
          Store.emails r'.1.1 = Store.emails d /\
          Store.mail_records r'.1.1 = Store.mail_records d /\
          (one_per_mailbox d -> one_per_mailbox r'.1.1) /\
          Forall (fun s => exists e0, e0 ∈ e :: rest /\
                             Store.s_email_id s = Store.e_id e0) new /\
          paced (tr ++ [Sleep 2] ++ pause ++ r'.1.2) = true /\
          match r'.2 with
          | Some t' =>
              t_created t' = t_created t + Z.of_nat (length new) /\
              t_failed t' >= t_failed t /\ t_skipped t' >= t_skipped t /\
              tally_sum t' = tally_sum t + Z.of_nat (length (e :: rest))
          | None => batch_size = 0 \/ sleep_returns P delay = false
          end).
      { intros clock' pause Hp1 Hp2. cbv zeta.
        match goal with
        | |- context [create_loop P net batch_size delay total (i + 1) clock' d1 rest ?t1] =>
            specialize (IH (i + 1) clock' d1 t1); set (t1' := t1) in *
        end.
        cbv zeta in IH.
        destruct IH as (new & H1 & H2 & H3 & H4 & H5 & H6 & H7).
        exists (new1 ++ new). rewrite H1, S1, H2, H3, app_assoc.
        repeat split; try assumption.
        - intros Hd. apply H4, S4, Hd.
        - apply Forall_app. split; [exact Hhere |].
          eapply Forall_impl; [exact H5 |]. intros s' (e' & Hin & He').
          exists e'. split; [right; exact Hin | exact He'].
        - apply S10. rewrite Hp2. exact H6.
        - destruct (create_loop P net batch_size delay total (i + 1) clock' d1 rest t1').2
            as [t' |]; [| exact H7].
          rewrite length_app, Nat2Z.inj_add. cbn [length]. rewrite Nat2Z.inj_succ.
          destruct H7 as (T1 & T2 & T3 & T4). repeat split; lia. }
      destruct (batch_size =? 0) eqn:Hb.
      { destruct Hstop as (new & H). exists new. cbn [fst snd] in *.
        repeat split; try apply H. left. lia. }
      destruct (((i + 1) mod batch_size =? 0) && (i + 1 <? total)).
      * destruct (sleep_returns P delay) eqn:Hsl.
        -- specialize (Hgo (clock + 2 + delay) [Sleep delay] eq_refl (fun _ => eq_refl)).
           cbv zeta in Hgo.
           destruct (create_loop P net batch_size delay total (i + 1) _ d1 rest _)
             as [[d2 tr'] t2].
           exact Hgo.
        -- destruct Hstop as (new & H). exists new. cbn [fst snd] in *.
           repeat split; try apply H. right. reflexivity.
      * specialize (Hgo (clock + 2) [] eq_refl (fun _ => eq_refl)).
        cbv zeta in Hgo.
        destruct (create_loop P net batch_size delay total (i + 1) _ d1 rest _)
          as [[d2 tr'] t2].
        exact Hgo.
Qed.

(** X14: With a batch size other than 0 and a pause that [time.sleep]
    takes, a bulk creation returns its tallies: they add up to the number
    of Outlook mailboxes, and [created] is the number of subscriptions
    recorded. *)
Theorem bulk_create_tallies (P : Python) (net : network) (batch_size delay clock : Z)
    (d : Store.db) :
  batch_size <> 0 -> sleep_returns P delay = true ->
  let r := create_subscriptions_for_all_outlook_emails P net batch_size delay clock d in
  exists t, r.2 = Some t /\
    t_created t + t_failed t + t_skipped t
    = Z.of_nat (length (Store.get_all_outlook_emails d)) /\
    0 <= t_created t /\ 0 <= t_failed t /\ 0 <= t_skipped t /\
    Z.of_nat (length (Store.subscriptions r.1.1))
    = Z.of_nat (length (Store.subscriptions d)) + t_created t.
Proof.
  intros Hb Hsl. cbv zeta. unfold create_subscriptions_for_all_outlook_emails.
  destruct (create_loop_spec P net batch_size delay
              (Z.of_nat (length (Store.get_all_outlook_emails d)))
              (Store.get_all_outlook_emails d) 0 clock d
              {| t_created := 0; t_failed := 0; t_skipped := 0 |})
    as (new & H1 & _ & _ & _ & _ & _ & H7).
  cbv zeta in *.
  destruct (create_loop P net batch_size delay _ 0 clock d _ _).2 as [t |];
    [| destruct H7; congruence].
  exists t. split; [reflexivity |].
  unfold tally_sum in H7. cbn [t_created t_failed t_skipped] in *.
  rewrite H1, length_app. repeat split; lia.
Qed.

Lemma bulk_create_tallies_witness :
  exists t,
    (create_subscriptions_for_all_outlook_emails AsciiTable.python
       BulkProps.throttling_net 50 60 63903236289 BulkProps.two_mailboxes).2 = Some t /\
    t_created t + t_failed t + t_skipped t = 2.
Proof.
  assert (Hb : (50 : Z) <> 0) by lia.
  destruct (bulk_create_tallies AsciiTable.python BulkProps.throttling_net 50 60
              63903236289 BulkProps.two_mailboxes Hb eq_refl) as (t & Ht & Hsum & _).
  exists t. split; [exact Ht | exact Hsum].
Defined.

(** X15: A bulk creation writes to [subscriptions] only, keeps the rows that
    are there, adds rows of Outlook mailboxes only, and never a second
    row for a mailbox. *)
Theorem bulk_create_adds_subscriptions_only (P : Python) (net : network)
    (batch_size delay clock : Z) (d : Store.db) :
  let r := create_subscriptions_for_all_outlook_emails P net batch_size delay clock d in
  Store.emails r.1.1 = Store.emails d /\
  Store.mail_records r.1.1 = Store.mail_records d /\
  (exists new,
     Store.subscriptions r.1.1 = Store.subscriptions d ++ new /\
     Forall (fun s => exists e, e ∈ Store.emails d /\
                                Store.e_mail_type e = lit "outlook" /\
                                Store.s_email_id s = Store.e_id e) new) /\
  (one_per_mailbox d -> one_per_mailbox r.1.1).
Proof.
  cbv zeta. unfold create_subscriptions_for_all_outlook_emails.
  destruct (create_loop_spec P net batch_size delay
              (Z.of_nat (length (Store.get_all_outlook_emails d)))
              (Store.get_all_outlook_emails d) 0 clock d
              {| t_created := 0; t_failed := 0; t_skipped := 0 |})
    as (new & H1 & H2 & H3 & H4 & H5 & _).
  cbv zeta in *. repeat split; try assumption.
  exists new. split; [exact H1 |].
  eapply Forall_impl; [exact H5 |]. intros s (e & Hin & He).
  unfold Store.get_all_outlook_emails in Hin. apply list_elem_of_filter in Hin as [Ht Hin].
  exists e. split; [exact Hin |]. split; [| exact He].
  apply str_eqb_eq. exact Ht.
Qed.

(** X16: In a bulk creation every request for a subscription is followed at
    once by the pause of 2 seconds, whatever Graph answers. *)
Theorem bulk_create_paced (P : Python) (net : network) (batch_size delay clock : Z)
    (d : Store.db) :
  paced (create_subscriptions_for_all_outlook_emails P net batch_size delay clock d).1.2
  = true.
Proof.
  unfold create_subscriptions_for_all_outlook_emails.
  destruct (create_loop_spec P net batch_size delay
              (Z.of_nat (length (Store.get_all_outlook_emails d)))
              (Store.get_all_outlook_emails d) 0 clock d
              {| t_created := 0; t_failed := 0; t_skipped := 0 |})
    as (new & _ & _ & _ & _ & _ & H & _).
  exact H.
Qed.

(** X17: The [clientState] of every subscription [create_subscription] asks
    for is read back by the router as the mailbox of the call. *)
Theorem subscription_routes_to_its_mailbox (P : Python) (net : network) (clock : Z)
    (d : Store.db) (email_info : Store.email_row) (client_state : str) :
  0 <= Store.e_id email_info ->
  PyLib.within_max_digits P (length (str_of_int (Store.e_id email_info))) = true ->
  SubscribeRequest client_state ∈ (create_subscription P net clock d email_info).1.2 ->
  parse_client_state P client_state = Some (Store.e_id email_info).
Proof.
  intros Hid Hmax Hin.
  assert (client_state = client_state_of (Store.e_id email_info)) as ->.
  { apply list_elem_of_In in Hin. revert Hin.
    destruct (create_subscription_attempt P net clock d email_info); cbn;
      intros Hin;
      repeat match type of Hin with _ \/ _ => destruct Hin as [Hin | Hin] end;
      try discriminate Hin; try contradiction; congruence. }
  apply RouterProps.client_state_roundtrip; assumption.
Qed.

Lemma subscription_routes_to_its_mailbox_witness :
  parse_client_state AsciiTable.python (lit "email_1") = Some 1.
Proof.
  apply (subscription_routes_to_its_mailbox AsciiTable.python granting_net 63903236289
           BulkProps.two_mailboxes (BulkProps.outlook_mailbox 1 "a@outlook.com")
           (lit "email_1")).
  - cbn. lia.
  - reflexivity.
  - vm_compute. right. left.
Defined.

End SubscriptionProps.

(** ** [GraphWebhookHandler]: what a delivery of notifications does *)

Module HandlerProps.
Import Webhook GraphApi PyProps StoreProps.

(** A mailbox after a delivery: only [last_check_time] may differ. *)
Definition mailbox_kept (e e' : Store.email_row) : Prop :=
  Store.e_id e' = Store.e_id e /\ Store.e_user_id e' = Store.e_user_id e /\
  Store.e_email e' = Store.e_email e /\ Store.e_password e' = Store.e_password e /\
  Store.e_client_id e' = Store.e_client_id e /\
  Store.e_refresh_token e' = Store.e_refresh_token e /\
  Store.e_mail_type e' = Store.e_mail_type e /\
  Store.e_access_token e' = Store.e_access_token e.

(** [d'] is [d] with the messages [rows] added: nothing else of the store
    differs, but for check times. *)
Definition grows (d d' : Store.db) (rows : list Store.mail_row) : Prop :=
  Store.mail_records d' = Store.mail_records d ++ rows /\
  Store.subscriptions d' = Store.subscriptions d /\
  Forall2 mailbox_kept (Store.emails d) (Store.emails d').

Lemma mailbox_kept_refl e : mailbox_kept e e.
Proof. unfold mailbox_kept. tauto. Qed.

Lemma mailbox_kept_trans e1 e2 e3 :
  mailbox_kept e1 e2 -> mailbox_kept e2 e3 -> mailbox_kept e1 e3.
Proof. unfold mailbox_kept. intuition congruence. Qed.

Lemma mailboxes_kept_refl l : Forall2 mailbox_kept l l.
Proof. induction l; constructor; [apply mailbox_kept_refl | assumption]. Qed.

Lemma mailboxes_kept_trans l1 l2 l3 :
  Forall2 mailbox_kept l1 l2 -> Forall2 mailbox_kept l2 l3 -> Forall2 mailbox_kept l1 l3.
Proof.
  intros H12. revert l3. induction H12 as [| x y l l' Hxy _ IH]; intros l3 H23.
  - inversion H23. constructor.
  - inversion H23 as [| y' z l2' l3' Hyz Hrest]; subst.
    constructor; [eapply mailbox_kept_trans; eassumption | apply IH; assumption].
Qed.

Lemma grows_refl d : grows d d [].
Proof.
  unfold grows. rewrite !app_nil_r. repeat split. apply mailboxes_kept_refl.
Qed.

Lemma grows_trans d1 d2 d3 r1 r2 :
  grows d1 d2 r1 -> grows d2 d3 r2 -> grows d1 d3 (r1 ++ r2).
Proof.
  intros (Hm1 & Hs1 & He1) (Hm2 & Hs2 & He2). unfold grows.
  rewrite Hm2, Hm1, Hs2, Hs1, !app_assoc.
  repeat split. eapply mailboxes_kept_trans; eassumption.
Qed.

Lemma extends_grows d d' rows : extends d d' rows -> grows d d' rows.
Proof.
  intros (Hm & He & Hs & _). unfold grows. rewrite Hm, He, Hs.
  repeat split. apply mailboxes_kept_refl.
Qed.

Lemma update_check_time_grows now d email_id :
  grows d (Store.update_check_time now d email_id) [].
Proof.
  unfold grows, Store.update_check_time. cbn. rewrite !app_nil_r. repeat split.
  induction (Store.emails d) as [| e l IH]; cbn; constructor; [| exact IH].
  unfold Store.set_check_time, mailbox_kept.
  destruct (Store.e_id e =? email_id); cbn; tauto.
Qed.

(** A mailbox of the store after a delivery was there before it, with the
    same id and owner. *)
Lemma mailbox_before l l' e' :
  Forall2 mailbox_kept l l' -> e' ∈ l' -> exists e, e ∈ l /\ mailbox_kept e e'.
Proof.
  induction 1 as [| x y l l' Hxy _ IH]; intros Hin; [inversion Hin |].
  apply elem_of_cons in Hin as [-> | Hin].
  - exists x. split; [left | exact Hxy].
  - destruct (IH Hin) as (e & He & Hk). exists e. split; [right; exact He | exact Hk].
Qed.

Lemma get_email_by_id_kept l l' email_id e :
  Forall2 mailbox_kept l l' ->
  find (fun e => Store.e_id e =? email_id) l = Some e ->
  exists e', find (fun e => Store.e_id e =? email_id) l' = Some e' /\ mailbox_kept e e'.
Proof.
  induction 1 as [| x y l l' Hxy _ IH]; cbn; [discriminate |].
  destruct Hxy as (Hid & Hrest). rewrite Hid.
  destruct (Store.e_id x =? email_id).
  - intros [= <-]. exists y. split; [reflexivity |]. split; assumption.
  - exact IH.
Qed.

Lemma get_email_by_id_none_kept l l' email_id :
  Forall2 mailbox_kept l l' ->
  find (fun e => Store.e_id e =? email_id) l = None ->
  find (fun e => Store.e_id e =? email_id) l' = None.
Proof.
  induction 1 as [| x y l l' Hxy _ IH]; cbn; [reflexivity |].
  destruct Hxy as (Hid & Hrest). rewrite Hid.
  destruct (Store.e_id x =? email_id); [discriminate | exact IH].
Qed.

Definition INBOX : str := lit "INBOX".

(** A row a delivery may add: a message of the inbox of a mailbox of the
    store. *)
Definition row_ok (d : Store.db) (row : Store.mail_row) : Prop :=
  Store.m_folder row = INBOX /\
  exists e, e ∈ Store.emails d /\ Store.e_id e = Store.m_email_id row.

(** What a delivery may do to the outside: ask for tokens, list the five
    latest messages of an inbox without a filter, and tell the owner of a
    mailbox the ids of the rows just added for it; it hands nothing to
    the PlatformClassifier. *)
Definition event_ok (d : Store.db) (rows : list Store.mail_row) (ev : event) : Prop :=
  match ev with
  | TokenRequest _ _ => True
  | ListRequest folder top flt => folder = lit "inbox" /\ top = 5 /\ flt = None
  | Broadcast user_id mail_ids =>
      user_id <> 0 /\ mail_ids <> [] /\
      exists e, e ∈ Store.emails d /\ Store.e_user_id e = user_id /\
        Forall (fun id => exists row, row ∈ rows /\ Store.m_id row = id /\
                                      Store.m_email_id row = Store.e_id e) mail_ids
  | SubscribeRequest _ => False
  | Sleep _ => False
  | Classify _ => False
  end.

Lemma event_ok_weaken d d' rows before after ev :
  Forall2 mailbox_kept (Store.emails d) (Store.emails d') ->
  event_ok d' rows ev -> event_ok d (before ++ rows ++ after) ev.
Proof.
  intros Hk. destruct ev as [| | | | u ids |]; cbn; try tauto.
  intros (Hu & Hids & e' & He' & Hue & Hall).
  destruct (mailbox_before _ _ _ Hk He') as (e & He & Hid & Huser & _).
  split; [exact Hu |]. split; [exact Hids |].
  exists e. split; [exact He |]. split; [congruence |].
  eapply Forall_impl; [exact Hall |]. intros id (row & Hin & Hrow & Hmail).
  exists row. split; [| split; [exact Hrow | congruence]].
  apply elem_of_app. right. apply elem_of_app. left. exact Hin.
Qed.

Lemma row_ok_weaken d d' row :
  Forall2 mailbox_kept (Store.emails d) (Store.emails d') -> row_ok d' row -> row_ok d row.
Proof.
  intros Hk (Hf & e' & He' & Hid).
  destruct (mailbox_before _ _ _ Hk He') as (e & He & Hid' & _).
  split; [exact Hf |]. exists e. split; [exact He | congruence].
Qed.

Section WithPython.
Context (P : Python) (net : network).

Lemma add_mail_record_full d email_id subject sender received_time content folder att :
  let r := Store.add_mail_record d email_id subject sender received_time content
             folder att in
  r = (d, (false, None)) \/
  exists row, r = (r.1, (true, Some (Store.m_id row))) /\ extends d r.1 [row] /\
    Store.m_email_id row = email_id /\ Store.m_folder row = folder.
Proof.
  unfold Store.add_mail_record.
  destruct (existsb _ (Store.mail_records d)) eqn:Hex; cbn [fst snd].
  - left; reflexivity.
  - right.
    match goal with |- context [Store.mail_records d ++ [?r]] => exists r end.
    split; [reflexivity |]. split; [| split; reflexivity].
    unfold extends. cbn. repeat split.
    constructor; [| constructor]. cbn.
    pose proof (fresh_id_positive (map Store.m_id (Store.mail_records d))). lia.
Qed.

(** The rows [save_messages] adds are rows of the mailbox, in INBOX, and
    [new_mails] lists their ids. *)
Lemma save_messages_rows email_id messages : forall d saved new d1 saved1 new1,
  save_messages P d email_id messages saved new = (d1, saved1, new1) ->
  exists rows, extends d d1 rows /\ new1 = new ++ map Store.m_id rows /\
    saved1 = saved + Z.of_nat (length rows) /\
    Forall (fun row => Store.m_email_id row = email_id /\ Store.m_folder row = INBOX) rows.
Proof.
  induction messages as [| msg rest IH]; intros d saved new d1 saved1 new1; simpl.
  - intros [= <- <- <-]. exists []. simpl. rewrite app_nil_r.
    split; [apply extends_refl |]. split; [reflexivity |]. split; [lia | constructor].
  - pose proof (add_mail_record_full d email_id (g_subject msg) (g_sender msg)
                  (stored_time P (g_received_time msg)) (g_content msg) (lit "INBOX")
                  (if g_has_attachments msg then 1 else 0)) as Hcases.
    cbv zeta in Hcases.
    destruct (Store.add_mail_record d email_id _ _ _ _ _ _) as [d0 [ok mid]].
    cbn [fst] in Hcases. destruct Hcases as [Hr | (row & Hr & Hext & Hrow)].
    + injection Hr as -> -> ->. intros Hrun.
      exact (IH _ _ _ _ _ _ Hrun).
    + injection Hr as -> ->.
      assert (Hid : Store.m_id row <> 0).
      { destruct Hext as (_ & _ & _ & Hf). inversion Hf. assumption. }
      apply Z.eqb_neq in Hid. rewrite Hid. intros Hrun.
      destruct (IH _ _ _ _ _ _ Hrun) as (rows & Hext' & Hnew & Hsaved & Hall).
      exists (row :: rows). split; [| split; [| split]].
      * apply (extends_trans _ _ _ _ _ Hext Hext').
      * rewrite Hnew, <- app_assoc. reflexivity.
      * rewrite Hsaved. simpl length. lia.
      * constructor; assumption.
Qed.

(** What a fetch job does to the store and to the outside. *)
Lemma fetch_new_mail_grows now h d email_info :
  email_info ∈ Store.emails d ->
  let r := _fetch_new_mail P net now h d email_info in
  exists rows, grows d r.1 rows /\ Forall (row_ok d) rows /\
               Forall (event_ok d rows) r.2.
Proof.
  intros Hin. cbv zeta. unfold _fetch_new_mail.
  assert (Hnone : exists rows, grows d d rows /\ Forall (row_ok d) rows /\
                               Forall (event_ok d rows) []).
  { exists []. split; [apply grows_refl |]. split; constructor. }
  destruct (Store.e_refresh_token email_info) as [rt |]; [| exact Hnone].
  destruct (Store.e_client_id email_info) as [cid |]; [| exact Hnone].
  destruct (truthy rt && truthy cid); [| exact Hnone].
  destruct (get_new_access_token net rt cid) as [tr1 tok] eqn:Htok.
  assert (tr1 = [TokenRequest rt cid]) as ->.
  { unfold get_new_access_token in Htok. injection Htok as <- _. reflexivity. }
  destruct tok as [access_token |].
  2: { exists []. split; [apply grows_refl |]. split; [constructor |].
       repeat constructor. }
  unfold get_messages. cbn [filter_param since_str].
  destruct (match graph_messages net access_token (lit "inbox") 5 None with
            | ListOk value => map (parse_message P) value
            | _ => []
            end) as [| msg rest].
  { exists []. split; [apply grows_refl |]. split; [constructor |].
    cbn. repeat constructor. }
  destruct (save_messages P d (Store.e_id email_info) (msg :: rest) 0 [])
    as [[d1 saved_count] new_mails] eqn:Hsave.
  destruct (save_messages_rows _ _ _ _ _ _ _ _ Hsave) as (rows & Hext & -> & -> & Hrows).
  exists rows. cbn [fst snd]. split; [| split].
  - rewrite <- (app_nil_r rows).
    eapply grows_trans; [apply extends_grows; exact Hext |].
    apply update_check_time_grows.
  - eapply Forall_impl; [exact Hrows |]. intros row (Hid & Hf).
    split; [exact Hf |]. exists email_info. split; [exact Hin | congruence].
  - cbn [app]. constructor; [exact I |]. constructor; [cbn; auto |].
    destruct ((0 <? 0 + Z.of_nat (length rows)) && ws_handler h
              && negb (bool_decide (map Store.m_id rows = []))) eqn:Hb;
      [| constructor].
    unfold _broadcast_new_mails.
    destruct (negb (Store.e_user_id email_info =? 0) && ws_handler h) eqn:Hu;
      [| constructor].
    constructor; [| constructor]. cbn.
    apply andb_true_iff in Hu as [Hu _]. apply negb_true_iff, Z.eqb_neq in Hu.
    apply andb_true_iff in Hb as [_ Hb]. apply negb_true_iff in Hb.
    apply bool_decide_eq_false in Hb.
    split; [exact Hu |]. split; [exact Hb |].
    exists email_info. split; [exact Hin |]. split; [reflexivity |].
    apply List.Forall_forall. intros id Hid.
    apply in_map_iff in Hid as (row & <- & Hrow).
    exists row. split; [apply list_elem_of_In; exact Hrow |]. split; [reflexivity |].
    rewrite List.Forall_forall in Hrows. apply Hrows. exact Hrow.
Qed.

(** One notification. *)
Lemma process_single_notification_grows now h d n :
  let r := _process_single_notification P net now h d n in
  r.1.1 = h /\
  exists rows, grows d r.1.2 rows /\ Forall (row_ok d) rows /\
               Forall (event_ok d rows) r.2.
Proof.
  cbv zeta. unfold _process_single_notification.
  assert (Hnone : exists rows, grows d d rows /\ Forall (row_ok d) rows /\
                               Forall (event_ok d rows) []).
  { exists []. split; [apply grows_refl |]. split; constructor. }
  destruct (parse_client_state P _) as [email_id |]; [| split; [reflexivity | exact Hnone]].
  destruct (Store.get_email_by_id d email_id) as [email_info |] eqn:Hget;
    [| split; [reflexivity | exact Hnone]].
  destruct (Store.opt_str_eqb _ _); [| split; [reflexivity | exact Hnone]].
  destruct (enter h email_id) as [h1 |] eqn:Henter;
    [| split; [reflexivity | exact Hnone]].
  assert (Hin : email_info ∈ Store.emails d).
  { unfold Store.get_email_by_id in Hget. apply find_some in Hget as [Hin _].
    apply list_elem_of_In. exact Hin. }
  pose proof (fetch_new_mail_grows now h1 d email_info Hin) as Hf. cbv zeta in Hf.
  destruct (_fetch_new_mail P net now h1 d email_info) as [d' tr].
  split; [exact (PushProps.leave_enter _ _ _ Henter) | exact Hf].
Qed.

(** A delivery. *)
Lemma handle_notification_grows now value : forall h d,
  let r := handle_notification P net now h d value in
  r.1.1 = h /\
  exists rows, grows d r.1.2 rows /\ Forall (row_ok d) rows /\
               Forall (event_ok d rows) r.2.
Proof.
  induction value as [| n rest IH]; intros h d; cbv zeta; cbn [handle_notification].
  - split; [reflexivity |]. exists []. split; [apply grows_refl |]. split; constructor.
  - pose proof (process_single_notification_grows now h d n) as H1. cbv zeta in H1.
    destruct (_process_single_notification P net now h d n) as [[h1 d1] tr].
    cbn [fst snd] in H1. destruct H1 as (-> & rows1 & Hg1 & Hr1 & He1).
    specialize (IH h d1). cbv zeta in IH.
    destruct (handle_notification P net now h d1 rest) as [[h2 d2] tr'].
    cbn [fst snd] in *. destruct IH as (-> & rows2 & Hg2 & Hr2 & He2).
    split; [reflexivity |]. exists (rows1 ++ rows2).
    pose proof Hg1 as (_ & _ & Hk1).
    split; [eapply grows_trans; eassumption |]. split.
    + apply Forall_app. split; [exact Hr1 |].
      eapply Forall_impl; [exact Hr2 |]. intros row. apply row_ok_weaken. exact Hk1.
    + apply Forall_app. split.
      * eapply Forall_impl; [exact He1 |]. intros ev Hev.
        pose proof (event_ok_weaken d d rows1 [] rows2 ev (mailboxes_kept_refl _) Hev)
          as Hw. exact Hw.
      * eapply Forall_impl; [exact He2 |]. intros ev Hev.
        pose proof (event_ok_weaken d d1 rows2 rows1 [] ev Hk1 Hev) as Hw.
        rewrite app_nil_r in Hw. exact Hw.
Qed.

End WithPython.

(** X18: The debounce set after a delivery is the set before it: every
    mailbox a notification has entered has been released. *)
Theorem delivery_releases_mailboxes (P : Python) (net : network) (now : str)
    (h : handler) (d : Store.db) (value : list notification) :
  (handle_notification P net now h d value).1.1 = h.
Proof.
  exact (proj1 (handle_notification_grows P net now value h d)).
Qed.

(** X19: A delivery only adds messages: the stored messages, the subscriptions
    and the mailboxes stay (but for check times), and every row added is a
    message of the INBOX of a mailbox of the store. *)
Theorem delivery_only_adds_messages (P : Python) (net : network) (now : str)
    (h : handler) (d : Store.db) (value : list notification) :
  let d' := (handle_notification P net now h d value).1.2 in
  exists rows,
    Store.mail_records d' = Store.mail_records d ++ rows /\
    Store.subscriptions d' = Store.subscriptions d /\
    Forall2 mailbox_kept (Store.emails d) (Store.emails d') /\
    Forall (row_ok d) rows.
Proof.
  cbv zeta.
  destruct (handle_notification_grows P net now value h d)
    as (_ & rows & (Hm & Hs & He) & Hrows & _).
  exists rows. auto.
Qed.



End HandlerProps.

(** ** A notification delivered twice *)

Module RedeliveryProps.
Import Webhook GraphApi PyProps StoreProps HandlerProps.

Section WithPython.
Context (P : Python) (net : network).

(** Messages the store holds are not added again. *)
Lemma save_messages_stored email_id messages : forall d saved new,
  Forall (PushProps.stored P d email_id) messages ->
  save_messages P d email_id messages saved new = (d, saved, new).
Proof.
  induction messages as [| msg rest IH]; intros d saved new Hall; [reflexivity |].
  inversion Hall as [| m l Hmsg Hrest]; subst. cbn [save_messages].
  unfold Store.add_mail_record. unfold PushProps.stored in Hmsg. rewrite Hmsg.
  apply IH. exact Hrest.
Qed.

(** The events of a run hold no broadcast. *)
Definition silent (tr : list event) : Prop :=
  forall user_id mail_ids, Broadcast user_id mail_ids ∉ tr.

Lemma silent_nil : silent [].
Proof. intros u ids H. inversion H. Qed.

(** A fetch job run again for the same mailbox, while Graph lists the
    same messages, adds no row and tells nobody. *)
Lemma fetch_again now now' h h' d email_info email_info' :
  mailbox_kept email_info email_info' ->
  let d' := (_fetch_new_mail P net now h d email_info).1 in
  let r := _fetch_new_mail P net now' h' d' email_info' in
  Store.mail_records r.1 = Store.mail_records d' /\ silent r.2.
Proof.
  intros (Hid & Huser & _ & _ & Hcid & Hrt & _). cbv zeta.
  unfold _fetch_new_mail. rewrite Hid, Huser, Hcid, Hrt.
  destruct (Store.e_refresh_token email_info) as [rt |];
    [| split; [reflexivity | apply silent_nil]].
  destruct (Store.e_client_id email_info) as [cid |];
    [| split; [reflexivity | apply silent_nil]].
  destruct (truthy rt && truthy cid);
    [| split; [reflexivity | apply silent_nil]].
  destruct (get_new_access_token net rt cid) as [tr1 tok] eqn:Htok.
  assert (tr1 = [TokenRequest rt cid]) as ->.
  { unfold get_new_access_token in Htok. injection Htok as <- _. reflexivity. }
  destruct tok as [access_token |].
  2: { split; [reflexivity |]. intros u ids Hin.
       apply list_elem_of_singleton in Hin. discriminate. }
  unfold get_messages. cbn [filter_param since_str].
  destruct (match graph_messages net access_token (lit "inbox") 5 None with
            | ListOk value => map (parse_message P) value
            | _ => []
            end) as [| msg rest].
  { split; [reflexivity |]. intros u ids Hin.
    cbn in Hin. apply elem_of_cons in Hin as [Hin | Hin]; [discriminate |].
    apply list_elem_of_singleton in Hin. discriminate. }
  destruct (save_messages P d (Store.e_id email_info) (msg :: rest) 0 [])
    as [[d1 saved_count] new_mails] eqn:Hsave.
  destruct (PushProps.save_messages_spec P _ _ _ _ _ _ _ _ Hsave)
    as (rows & _ & _ & _ & Hall).
  cbn [fst].
  assert (Hall' : Forall (PushProps.stored P
                            (Store.update_check_time now d1 (Store.e_id email_info))
                            (Store.e_id email_info)) (msg :: rest)).
  { eapply Forall_impl; [exact Hall |]. intros m Hm. exact Hm. }
  rewrite (save_messages_stored _ _ _ 0 [] Hall'). cbn.
  split; [reflexivity |]. intros u ids Hin.
  apply elem_of_cons in Hin as [Hin | Hin]; [discriminate |].
  apply elem_of_cons in Hin as [Hin | Hin]; [discriminate |].
  inversion Hin.
Qed.

(** A notification is dropped, whatever the time, or starts a fetch job. *)
Lemma process_cases now h d n :
  (forall now', _process_single_notification P net now' h d n = (h, d, [])) \/
  exists email_id email_info h1,
    parse_client_state P (default [] (clientState n)) = Some email_id /\
    Store.get_email_by_id d email_id = Some email_info /\
    Store.opt_str_eqb (changeType n) (Some (lit "created")) = true /\
    enter h email_id = Some h1 /\
    _process_single_notification P net now h d n
    = (h, (_fetch_new_mail P net now h1 d email_info).1,
       (_fetch_new_mail P net now h1 d email_info).2).
Proof.
  unfold _process_single_notification.
  destruct (parse_client_state P (default [] (clientState n))) as [email_id |];
    [| left; reflexivity].
  destruct (Store.get_email_by_id d email_id) as [email_info |] eqn:Hget;
    [| left; reflexivity].
  destruct (Store.opt_str_eqb (changeType n) (Some (lit "created"))) eqn:Hct;
    [| left; reflexivity].
  destruct (enter h email_id) as [h1 |] eqn:Henter; [| left; reflexivity].
  right. exists email_id, email_info, h1.
  do 4 (split; [first [reflexivity | assumption] |]).
  destruct (_fetch_new_mail P net now h1 d email_info) as [d' tr].
  rewrite (PushProps.leave_enter _ _ _ Henter). reflexivity.
Qed.

End WithPython.

(** X21: A notification that is delivered a second time, while Graph lists the
    same messages, adds no message to the store and tells no user: every
    message of the listing is in the store from the first time. *)
Theorem redelivery_adds_nothing (P : Python) (net : network) (now now' : str)
    (h : handler) (d : Store.db) (n : notification) :
  let r1 := _process_single_notification P net now h d n in
  let r2 := _process_single_notification P net now' r1.1.1 r1.1.2 n in
  Store.mail_records r2.1.2 = Store.mail_records r1.1.2 /\
  forall user_id mail_ids, Broadcast user_id mail_ids ∉ r2.2.
Proof.
  cbv zeta.
  destruct (process_cases P net now h d n)
    as [Hdrop | (email_id & email_info & h1 & Hp & Hget & Hct & Henter & Hrun)].
  - rewrite (Hdrop now). cbn [fst snd]. rewrite (Hdrop now'). cbn [fst snd].
    split; [reflexivity |]. apply silent_nil.
  - rewrite Hrun. cbn [fst snd].
    assert (Hin : email_info ∈ Store.emails d).
    { unfold Store.get_email_by_id in Hget. apply find_some in Hget as [Hin _].
      apply list_elem_of_In. exact Hin. }
    destruct (fetch_new_mail_grows P net now h1 d email_info Hin)
      as (rows & (_ & _ & Hk) & _).
    destruct (get_email_by_id_kept _ _ _ _ Hk Hget) as (email_info' & Hget' & Hkept).
    pose proof (fetch_again P net now now' h1 h1 d email_info email_info' Hkept)
      as Hagain.
    cbv zeta in Hagain.
    unfold _process_single_notification. rewrite Hp.
    unfold Store.get_email_by_id. rewrite Hget', Hct, Henter.
    destruct (_fetch_new_mail P net now' h1 _ email_info') as [d2 tr2].
    exact Hagain.
Qed.

End RedeliveryProps.

(** ** [import_emails]: the counts of an import *)

Module ImportCountProps.
Import App PyProps ImportProps.

(** A line that is blank once stripped. *)
Definition is_blank (P : Python) (raw : str) : bool := negb (truthy (PyLib.strip P raw)).

(** A mailbox that the import has added for the user. *)
Definition imported (user_id : Z) (mail_type : str) (e : Store.email_row) : Prop :=
  Store.e_user_id e = user_id /\ Store.e_mail_type e = mail_type /\
  Store.e_last_check_time e = None.

Section WithPython.
Context (P : Python) (user_id : Z) (mail_type : str).

Lemma classify_blank raw : classify P raw = Blank <-> is_blank P raw = true.
Proof.
  unfold classify, is_blank.
  destruct (negb (truthy (PyLib.strip P raw))); [tauto |].
  destruct (split (lit "----") (PyLib.strip P raw)) as [| a [| b [| c [| e [| x l]]]]];
    try (split; discriminate).
  destruct (truthy a && truthy b && truthy c && truthy e); split; discriminate.
Qed.

Lemma add_email_cases d email password client_id refresh_token :
  let r := Store.add_email d user_id email password client_id refresh_token mail_type in
  (r = (d, false) /\ has_mailbox d user_id email) \/
  (exists e, r.2 = true /\ Store.emails r.1 = Store.emails d ++ [e] /\
             imported user_id mail_type e /\ Store.e_email e = email /\
             ~ has_mailbox d user_id email /\
             Store.mail_records r.1 = Store.mail_records d /\
             Store.subscriptions r.1 = Store.subscriptions d).
Proof.
  unfold Store.add_email.
  destruct (existsb _ (Store.emails d)) eqn:Hex.
  - left. split; [reflexivity |].
    apply existsb_exists in Hex as (row & Hin & Hrow).
    apply andb_true_iff in Hrow as [Hu He].
    exists row. repeat split; [assumption | lia | apply str_eqb_eq; assumption].
  - right. eexists. cbn. repeat split.
    intros (row & Hin & Hu & He).
    assert (Ht : existsb (fun e => (Store.e_user_id e =? user_id)
                                   && str_eqb (Store.e_email e) email) (Store.emails d)
                 = true).
    { apply existsb_exists. exists row. split; [exact Hin |].
      apply andb_true_iff. split; [lia | apply str_eqb_eq; exact He]. }
    congruence.
Qed.

(** The loop, from any line on. *)
Lemma import_lines_counts lines : forall d i,
  let r := import_lines P user_id mail_type d i lines in
  exists added,
    Store.emails r.1.1 = Store.emails d ++ added /\
    r.1.2 = Z.of_nat (length added) /\
    Forall (imported user_id mail_type) added /\
    Store.mail_records r.1.1 = Store.mail_records d /\
    Store.subscriptions r.1.1 = Store.subscriptions d /\
    (length added + length r.2 + length (filter (fun raw => is_blank P raw = true) lines)
     = length lines)%nat /\
    Forall (fun f => i < line f <= i + Z.of_nat (length lines)) r.2 /\
    (forall (j k : nat) f g, r.2 !! j = Some f -> r.2 !! k = Some g ->
                             (j < k)%nat -> line f < line g).
Proof.
  induction lines as [| raw rest IH]; intros d i; cbv zeta.
  - exists []. cbn. rewrite app_nil_r. repeat split; try constructor.
    intros j k f g Hj. destruct j; discriminate Hj.
  - rewrite import_lines_step, filter_cons.
    assert (Hlater : forall fs,
      Forall (fun f => i + 1 < line f <= i + 1 + Z.of_nat (length rest)) fs ->
      Forall (fun f => i < line f <= i + Z.of_nat (length (raw :: rest))) fs).
    { intros fs Hfs. eapply Forall_impl; [exact Hfs |]. intros f Hf.
      cbn beta in Hf |- *. cbn [length]. rewrite Nat2Z.inj_succ. lia. }
    assert (Hcons : forall f fs,
      line f = i + 1 ->
      Forall (fun f => i + 1 < line f <= i + 1 + Z.of_nat (length rest)) fs ->
      (forall (j k : nat) f g, fs !! j = Some f -> fs !! k = Some g ->
                               (j < k)%nat -> line f < line g) ->
      forall (j k : nat) f' g, (f :: fs) !! j = Some f' -> (f :: fs) !! k = Some g ->
                               (j < k)%nat -> line f' < line g).
    { intros f fs Hf Hfs Hord j k f' g Hj Hk Hjk.
      destruct k as [| k]; [lia |]. cbn in Hk.
      destruct j as [| j].
      - cbn in Hj. injection Hj as <-.
        rewrite List.Forall_forall in Hfs.
        assert (Hin : In g fs) by (apply list_elem_of_In; eapply list_elem_of_lookup_2;
                                   exact Hk).
        specialize (Hfs g Hin). lia.
      - cbn in Hj. apply (Hord j k); [assumption | assumption | lia]. }
    destruct (classify P raw) as [| why | a b c t] eqn:Hcl.
    + destruct (IH d (i + 1)) as (added & H1 & H2 & H3 & H4 & H5 & H7 & H8 & H9).
      apply classify_blank in Hcl.
      destruct (decide (is_blank P raw = true)) as [_ | Hn]; [| contradiction].
      exists added. cbn [length]. repeat split; try assumption; try lia.
      apply Hlater; exact H8.
    + destruct (IH d (i + 1)) as (added & H1 & H2 & H3 & H4 & H5 & H7 & H8 & H9).
      assert (Hnb : is_blank P raw <> true).
      { intros Hb. apply classify_blank in Hb. congruence. }
      destruct (decide (is_blank P raw = true)) as [Hb | _]; [contradiction |].
      destruct (import_lines P user_id mail_type d (i + 1) rest) as [[d2 n2] f2].
      cbn [fst snd] in *. exists added. cbn [length].
      repeat split; try assumption; try lia.
      * constructor; [cbn; lia |]. apply Hlater; exact H8.
      * apply Hcons; [reflexivity | exact H8 | exact H9].
    + assert (Hnb : is_blank P raw <> true).
      { intros Hb. apply classify_blank in Hb. congruence. }
      destruct (decide (is_blank P raw = true)) as [Hb | _]; [contradiction |].
      pose proof (add_email_cases d a b c t) as Hadd. cbv zeta in Hadd.
      destruct (Store.add_email d user_id a b c t mail_type) as [d1 ok].
      destruct (IH d1 (i + 1)) as (added & H1 & H2 & H3 & H4 & H5 & H7 & H8 & H9).
      destruct (import_lines P user_id mail_type d1 (i + 1) rest) as [[d2 n2] f2].
      cbn [fst snd] in *.
      destruct Hadd as [[[= -> ->] _] | (e & -> & He & Hi & _ & _ & Hm & Hs)].
      * exists added. cbn [fst snd length].
        repeat split; try assumption; try lia.
        -- constructor; [cbn; lia |]. apply Hlater; exact H8.
        -- apply Hcons; [reflexivity | exact H8 | exact H9].
      * exists (e :: added). cbn [fst snd length].
        rewrite H1, He, <- app_assoc.
        repeat split; try congruence; try lia.
        -- constructor; assumption.
        -- apply Hlater; exact H8.
        -- exact H9.
Qed.

End WithPython.

(** X22: The report of an import adds up: every line is counted once, as
    imported, as failed or as blank; [success] is the number of mailboxes
    added, each to the caller's account and of the kind of the request;
    the mailboxes that were there stay, and no message or subscription is
    touched. *)
Theorem import_report_adds_up (P : Python) (user_id : Z) (d : Store.db)
    (text : str) (mail_type : option str) :
  text <> [] ->
  exists d' r added,
    import_emails P user_id d (Some text) mail_type = (d', Some r) /\
    Store.emails d' = Store.emails d ++ added /\
    imp_success r = Z.of_nat (length added) /\
    Forall (imported user_id (default (lit "outlook") mail_type)) added /\
    Store.mail_records d' = Store.mail_records d /\
    Store.subscriptions d' = Store.subscriptions d /\
    imp_success r + Z.of_nat (length (imp_failed_details r))
    + Z.of_nat (length (filter (fun raw => is_blank P raw = true)
                          (split newline (PyLib.strip P text))))
    = imp_total r.
Proof.
  intros Hne. apply truthy_true in Hne. unfold import_emails. rewrite Hne.
  destruct (import_lines_counts P user_id (default (lit "outlook") mail_type)
              (split newline (PyLib.strip P text)) d 0)
    as (added & H1 & H2 & H3 & H4 & H5 & H7 & _).
  destruct (import_lines P user_id _ d 0 _) as [[d' n] fails]. cbn [fst snd] in *.
  exists d', {| imp_total := Z.of_nat (length (split newline (PyLib.strip P text)));
                imp_success := n; imp_failed_details := fails |}, added.
  cbn [imp_total imp_success imp_failed_details].
  repeat split; try assumption. lia.
Qed.

Definition sample_text : str :=
  lit "a@outlook.com----pw----cid----tok" ++ newline ++ lit "   " ++ newline
  ++ lit "b@qq.com----pw----qq".

Lemma import_report_adds_up_witness :
  exists d' r added,
    import_emails AsciiTable.python 1 empty_db (Some sample_text) None = (d', Some r) /\
    Store.emails d' = [] ++ added /\ imp_success r = Z.of_nat (length added).
Proof.
  destruct (import_report_adds_up AsciiTable.python 1 empty_db sample_text None)
    as (d' & r & added & H1 & H2 & H3 & _); [discriminate |].
  exists d', r, added. auto.
Defined.

(** X23: The failures of a report come in the order of the lines: their line
    numbers grow strictly and lie between 1 and [total]. *)
Theorem import_failures_in_order (P : Python) (user_id : Z) (d : Store.db)
    (data mail_type : option str) (d' : Store.db) (r : import_result) :
  import_emails P user_id d data mail_type = (d', Some r) ->
  Forall (fun f => 1 <= line f <= imp_total r) (imp_failed_details r) /\
  forall (j k : nat) f g,
    imp_failed_details r !! j = Some f -> imp_failed_details r !! k = Some g ->
    (j < k)%nat -> line f < line g.
Proof.
  unfold import_emails. destruct data as [text |]; [| discriminate].
  destruct (truthy text); [| discriminate].
  destruct (import_lines_counts P user_id (default (lit "outlook") mail_type)
              (split newline (PyLib.strip P text)) d 0)
    as (added & _ & _ & _ & _ & _ & _ & H8 & H9).
  destruct (import_lines P user_id _ d 0 _) as [[d2 n] fails]. cbn [fst snd] in *.
  intros [= <- <-]. cbn [imp_total imp_failed_details]. split; [| exact H9].
  eapply Forall_impl; [exact H8 |]. intros f Hf. cbn beta in Hf. lia.
Qed.

Lemma import_failures_in_order_witness :
  Forall (fun f => 1 <= line f <= 3)
    (snd (import_lines AsciiTable.python 1 (lit "outlook") empty_db 0 sample_lines)).
Proof.
  refine (proj1 (import_failures_in_order AsciiTable.python 1 empty_db
                   (Some sample_text) None _
                   {| imp_total := 3; imp_success := 1;
                      imp_failed_details :=
                        snd (import_lines AsciiTable.python 1 (lit "outlook") empty_db 0
                               sample_lines) |} _)).
  vm_compute. reflexivity.
Defined.

End ImportCountProps.

(** ** An import made twice *)

Module ImportAgainProps.
Import App PyProps ImportProps ImportCountProps.

Section WithPython.
Context (P : Python) (user_id : Z) (mail_type : str).

(** Every line of four fields has its mailbox after the loop. *)
Lemma import_lines_has lines : forall d i raw a b c t,
  raw ∈ lines -> classify P raw = Fields a b c t ->
  has_mailbox (import_lines P user_id mail_type d i lines).1.1 user_id a.
Proof.
  induction lines as [| raw0 rest IH]; intros d i raw a b c t Hin Hcl;
    [inversion Hin |].
  rewrite import_lines_step.
  apply elem_of_cons in Hin as [-> | Hin].
  - rewrite Hcl.
    destruct (Store.add_email d user_id a b c t mail_type) as [d1 ok] eqn:Hadd.
    apply add_email_has in Hadd as [Hhas _].
    destruct (import_lines P user_id mail_type d1 (i + 1) rest) as [[d2 n2] f2] eqn:Hrest.
    assert (Hkeep : has_mailbox d2 user_id a)
      by (eapply import_lines_keeps; eassumption).
    destruct ok; exact Hkeep.
  - destruct (classify P raw0) as [| why | a0 b0 c0 t0].
    + eapply IH; eassumption.
    + specialize (IH d (i + 1) raw a b c t Hin Hcl).
      destruct (import_lines P user_id mail_type d (i + 1) rest) as [[d2 n2] f2].
      exact IH.
    + destruct (Store.add_email d user_id a0 b0 c0 t0 mail_type) as [d1 ok].
      specialize (IH d1 (i + 1) raw a b c t Hin Hcl).
      destruct (import_lines P user_id mail_type d1 (i + 1) rest) as [[d2 n2] f2].
      destruct ok; exact IH.
Qed.

(** Lines whose mailboxes the user has add nothing. *)
Lemma import_lines_known lines : forall d i,
  (forall raw a b c t, raw ∈ lines -> classify P raw = Fields a b c t ->
                       has_mailbox d user_id a) ->
  (import_lines P user_id mail_type d i lines).1 = (d, 0).
Proof.
  induction lines as [| raw rest IH]; intros d i Hknown; [reflexivity |].
  rewrite import_lines_step.
  assert (Hrest : forall raw0 a b c t, raw0 ∈ rest -> classify P raw0 = Fields a b c t ->
                                       has_mailbox d user_id a).
  { intros raw0 a b c t Hin. apply Hknown. right. exact Hin. }
  specialize (IH d (i + 1) Hrest).
  destruct (classify P raw) as [| why | a b c t] eqn:Hcl.
  - exact IH.
  - destruct (import_lines P user_id mail_type d (i + 1) rest) as [[d2 n2] f2].
    exact IH.
  - pose proof (add_email_cases user_id mail_type d a b c t) as Hadd. cbv zeta in Hadd.
    destruct Hadd as [[-> _] | (e & _ & _ & _ & _ & Hnot & _)].
    + destruct (import_lines P user_id mail_type d (i + 1) rest) as [[d2 n2] f2].
      exact IH.
    + exfalso. apply Hnot. apply (Hknown raw a b c t); [left | exact Hcl].
Qed.

End WithPython.

(** X24: An import made a second time with the same text adds no mailbox and
    counts no success: every line taken the first time is now a mailbox
    of the user. *)
Theorem import_again_adds_nothing (P : Python) (user_id : Z) (d : Store.db)
    (data mail_type : option str) :
  let r1 := import_emails P user_id d data mail_type in
  let r2 := import_emails P user_id r1.1 data mail_type in
  r2.1 = r1.1 /\ forall res, r2.2 = Some res -> imp_success res = 0.
Proof.
  cbv zeta. unfold import_emails.
  destruct data as [text |]; [| split; [reflexivity | discriminate]].
  destruct (truthy text); [| split; [reflexivity | discriminate]].
  pose proof (import_lines_has P user_id (default (lit "outlook") mail_type)
                (split newline (PyLib.strip P text)) d 0) as Hhas.
  destruct (import_lines P user_id _ d 0 (split newline (PyLib.strip P text)))
    as [[d1 n1] f1].
  cbn [fst snd] in *.
  pose proof (import_lines_known P user_id (default (lit "outlook") mail_type)
                (split newline (PyLib.strip P text)) d1 0 Hhas) as Hknown.
  destruct (import_lines P user_id _ d1 0 (split newline (PyLib.strip P text)))
    as [[d2 n2] f2].
  cbn [fst snd] in *. injection Hknown as -> ->.
  split; [reflexivity |]. intros res [= <-]. reflexivity.
Qed.

End ImportAgainProps.

(** ** [get_verification_code]: where a code comes from *)

Module CodeSourceProps.
Import App PyProps.

Section WithPython.
Context (P : Python).

(** A mail of the last seconds: its time is read as a naive one, and is
    not before the limit. *)
Definition recent (limit : Z) (mail : Store.mail_row) : Prop :=
  exists received_time mail_time,
    Store.m_received_time mail = Some received_time /\ truthy received_time = true /\
    parse_mail_time P received_time = Some (naive mail_time) /\ limit <= mail_time.

Lemma recent_time limit mail :
  recent limit mail -> limit <= dt_wall (get_mail_time P mail).
Proof.
  intros (rt & t & Hrt & Hne & Ht & Hle). unfold get_mail_time.
  rewrite Hrt, Hne, Ht. exact Hle.
Qed.

(** The first loop returns the code of the first recent mail that has
    one. *)
Lemma scan_recent_first email_address keyword recent_limit mails result :
  scan_recent P email_address keyword recent_limit mails = Some result ->
  exists before mail after,
    mails = before ++ mail :: after /\
    extract_code_from_mail P email_address keyword mail = Some result /\
    recent recent_limit mail /\
    Forall (fun m => ~ (recent recent_limit m /\
                        is_Some (extract_code_from_mail P email_address keyword m)))
      before.
Proof.
  induction mails as [| m rest IH]; cbn [scan_recent]; [discriminate |].
  assert (Hskip : ~ (recent recent_limit m /\
                     is_Some (extract_code_from_mail P email_address keyword m)) ->
                  scan_recent P email_address keyword recent_limit rest = Some result ->
                  exists before mail after,
                    m :: rest = before ++ mail :: after /\
                    extract_code_from_mail P email_address keyword mail = Some result /\
                    recent recent_limit mail /\
                    Forall (fun m => ~ (recent recent_limit m /\
                      is_Some (extract_code_from_mail P email_address keyword m))) before).
  { intros Hn Hrest. destruct (IH Hrest) as (before & mail & after & -> & He & Hr & Hall).
    exists (m :: before), mail, after. split; [reflexivity |].
    split; [exact He |]. split; [exact Hr |]. constructor; assumption. }
  destruct (Store.m_received_time m) as [rt |] eqn:Hrt.
  2: { apply Hskip. intros [(rt & t & Hrt' & _) _]. congruence. }
  destruct (truthy rt) eqn:Hne.
  2: { apply Hskip. intros [(rt' & t & Hrt' & Hne' & _) _]. congruence. }
  destruct (parse_mail_time P rt) as [[t [offset |]] |] eqn:Ht.
  3: { apply Hskip. intros [(rt' & t & Hrt' & _ & Ht' & _) _]. congruence. }
  1: { apply Hskip. intros [(rt' & t' & Hrt' & _ & Ht' & _) _].
       unfold naive in Ht'. congruence. }
  unfold dt_ge_naive. cbn [dt_utcoffset dt_wall].
  destruct (recent_limit <=? t) eqn:Hle.
  2: { apply Hskip. intros [(rt' & t' & Hrt' & _ & Ht' & Hle') _].
       apply Z.leb_gt in Hle. unfold naive in Ht'. assert (t' = t) by congruence. lia. }
  destruct (extract_code_from_mail P email_address keyword m) as [r |] eqn:He.
  2: { apply Hskip. intros [_ [r Hr]]. discriminate Hr. }
  intros [= <-]. exists [], m, rest. split; [reflexivity |]. split; [exact He |].
  split; [| constructor]. exists rt, t. apply Z.leb_le in Hle. auto.
Qed.

Lemma scan_new_from email_address keyword start_time mails result :
  scan_new P email_address keyword start_time mails = Some result ->
  exists mail, In mail mails /\
    extract_code_from_mail P email_address keyword mail = Some result.
Proof.
  induction mails as [| m rest IH]; cbn [scan_new]; [discriminate |].
  assert (Hskip : scan_new P email_address keyword start_time rest = Some result ->
                  exists mail, In mail (m :: rest) /\
                    extract_code_from_mail P email_address keyword mail = Some result).
  { intros Hrest. destruct (IH Hrest) as (mail & Hin & He).
    exists mail. split; [right; exact Hin | exact He]. }
  destruct (Store.m_received_time m) as [rt |]; [| exact Hskip].
  destruct (truthy rt); [| exact Hskip].
  destruct (parse_iso P rt) as [t |]; [| exact Hskip].
  destruct (dt_ge_naive t (start_time - 10)) as [[|] |];
    [| exact Hskip | exact Hskip].
  destruct (extract_code_from_mail P email_address keyword m) as [r |] eqn:He;
    [| exact Hskip].
  intros [= <-]. exists m. split; [left; reflexivity | exact He].
Qed.

Lemma wait_loop_from email_address keyword start_time polls : forall count result,
  wait_loop P email_address keyword start_time count polls = Some result ->
  exists mails mail, In mails polls /\ In mail mails /\
    extract_code_from_mail P email_address keyword mail = Some result.
Proof.
  induction polls as [| mails later IH]; intros count result; cbn [wait_loop];
    [discriminate |].
  assert (Hskip : forall c,
    wait_loop P email_address keyword start_time c later = Some result ->
    exists mails0 mail, In mails0 (mails :: later) /\ In mail mails0 /\
      extract_code_from_mail P email_address keyword mail = Some result).
  { intros c Hrest. destruct (IH _ _ Hrest) as (mails0 & mail & Hin & Hm & He).
    exists mails0, mail. split; [right; exact Hin | auto]. }
  destruct (count <? length mails)%nat; [| apply Hskip].
  destruct (scan_new P email_address keyword start_time mails) as [r |] eqn:Hs;
    [| apply Hskip].
  intros [= <-]. destruct (scan_new_from _ _ _ _ _ Hs) as (mail & Hin & He).
  exists mails, mail. split; [left; reflexivity | auto].
Qed.

(** The mailbox the endpoint waits on is one the caller may see. *)
Lemma find_mailbox_scope (is_admin : bool) (user_id : Z) d email_address email_info :
  find_mailbox P (Store.get_all_emails d (if is_admin then None else Some user_id))
    email_address = Some email_info ->
  email_info ∈ Store.emails d /\
  (is_admin = false -> Store.e_user_id email_info = user_id) /\
  u_lower P (Store.e_email email_info) = u_lower P email_address.
Proof.
  unfold find_mailbox. intros H. apply find_some in H as [Hin Heq].
  apply str_eqb_eq in Heq. apply list_elem_of_In in Hin.
  destruct is_admin; cbn [Store.get_all_emails] in Hin.
  - split; [exact Hin |]. split; [discriminate | exact Heq].
  - apply list_elem_of_filter in Hin as [Hu Hin]. auto.
Qed.

Lemma get_mail_records_in d email_id mail :
  In mail (Store.get_mail_records d email_id) ->
  mail ∈ Store.mail_records d /\ Store.m_email_id mail = email_id.
Proof.
  unfold Store.get_mail_records. intros H. apply list_elem_of_In in H.
  apply list_elem_of_filter in H as [Hid Hin]. auto.
Qed.

(** Latest first, for naive times. *)
Inductive descending : list Store.mail_row -> Prop :=
| descending_nil : descending []
| descending_cons x l :
    Forall (fun y => dt_wall (get_mail_time P y) <= dt_wall (get_mail_time P x)) l ->
    descending l -> descending (x :: l).

Lemma insert_by_time_descending x l l' :
  dt_utcoffset (get_mail_time P x) = None -> CodeProps.naive_times P l ->
  insert_by_time P x l = Returns l' ->
  descending l -> descending l'.
Proof.
  intros Hx Hnaive Hi Hd. revert l' Hnaive Hi.
  induction Hd as [| m rest Hall Hrest IH]; intros l' Hnaive; cbn [insert_by_time].
  - intros [= <-]. constructor; constructor.
  - inversion Hnaive as [| ? ? Hm Hnrest]; subst. unfold dt_lt. rewrite Hx, Hm.
    destruct (dt_wall (get_mail_time P x) <? dt_wall (get_mail_time P m)) eqn:Hlt.
    + apply Z.ltb_lt in Hlt.
      destruct (insert_by_time P x rest) as [l0 |] eqn:Hi0; [| discriminate].
      intros [= <-]. constructor; [| exact (IH l0 Hnrest eq_refl)].
      apply List.Forall_forall. intros y Hy.
      apply (CodeProps.insert_by_time_in P y x rest l0 Hi0) in Hy as [-> | Hy]; [lia |].
      rewrite List.Forall_forall in Hall. apply Hall. exact Hy.
    + apply Z.ltb_ge in Hlt. intros [= <-].
      constructor; [| constructor; assumption].
      constructor; [exact Hlt |].
      eapply Forall_impl; [exact Hall |]. intros y Hy. cbn beta in Hy. lia.
Qed.

Lemma sorted_by_time_descending mails : forall l,
  CodeProps.naive_times P mails -> sorted_by_time P mails = Returns l -> descending l.
Proof.
  induction mails as [| m rest IH]; intros l Hnaive; cbn [sorted_by_time].
  - intros [= <-]. constructor.
  - inversion Hnaive as [| ? ? Hm Hrest]; subst.
    destruct (CodeProps.sorted_by_time_naive P rest Hrest) as (s & Hs & Hns).
    rewrite Hs. intros Hi.
    exact (insert_by_time_descending m s l Hm Hns Hi (IH s Hrest Hs)).
Qed.

Lemma descending_after before x after :
  descending (before ++ x :: after) ->
  Forall (fun y => dt_wall (get_mail_time P y) <= dt_wall (get_mail_time P x)) after.
Proof.
  induction before as [| b before IH]; cbn; intros H; inversion H; subst; auto.
Qed.

End WithPython.

(** X25: A code comes from a stored message of a mailbox the caller may see:
    the mailbox has the address asked for, up to case, and belongs to the
    caller unless the caller is an administrator; the message is one of
    that mailbox, in the store at the call or at a later reading, and the
    answer is what [extract_code_from_mail] makes of it. *)
Theorem code_comes_from_own_mailbox (P : Python) (is_admin : bool) (user_id : Z)
    (d : Store.db) (later : list Store.db) (start_time : Z) (email : option str)
    (keyword : str) (result : code_result) :
  get_verification_code P is_admin user_id d later start_time email keyword
  = Found result ->
  exists email_address email_info mail,
    email = Some email_address /\
    email_info ∈ Store.emails d /\
    (is_admin = false -> Store.e_user_id email_info = user_id) /\
    u_lower P (Store.e_email email_info) = u_lower P email_address /\
    Store.m_email_id mail = Store.e_id email_info /\
    (mail ∈ Store.mail_records d \/
     exists d', d' ∈ later /\ mail ∈ Store.mail_records d') /\
    extract_code_from_mail P email_address keyword mail = Some result.
Proof.
  unfold get_verification_code.
  destruct email as [email_address |]; [| discriminate].
  destruct (negb (truthy email_address)); [discriminate |].
  destruct (find_mailbox P _ email_address) as [email_info |] eqn:Hfind;
    [| discriminate].
  apply find_mailbox_scope in Hfind as (Hin & Huser & Haddr).
  destruct (sorted_by_time P _) as [sorted |] eqn:Hsort; [| discriminate].
  destruct (scan_recent P email_address keyword (start_time - 30) _) as [r |] eqn:Hs.
  - intros [= <-].
    apply scan_recent_first in Hs as (before & mail & after & Hl & He & _).
    assert (Hm : In mail (Store.get_mail_records d (Store.e_id email_info))).
    { apply (CodeProps.sorted_by_time_in P mail _ sorted Hsort). rewrite Hl.
      apply in_or_app. right. left. reflexivity. }
    apply get_mail_records_in in Hm as [Hm Hid].
    exists email_address, email_info, mail. auto 10.
  - destruct (wait_loop P email_address keyword start_time _ _) as [r |] eqn:Hw;
      [| discriminate].
    intros [= <-]. apply wait_loop_from in Hw as (mails & mail & Hp & Hm & He).
    apply in_map_iff in Hp as (d' & <- & Hd').
    apply get_mail_records_in in Hm as [Hm Hid].
    exists email_address, email_info, mail.
    repeat split; try assumption. right. exists d'.
    split; [apply list_elem_of_In; exact Hd' | exact Hm].
Qed.

Lemma code_comes_from_own_mailbox_witness :
  exists email_address email_info mail,
    Some (lit "a@outlook.com") = Some email_address /\
    email_info ∈ Store.emails CodeProps.store_with_code /\
    (false = false -> Store.e_user_id email_info = 7) /\
    Store.m_email_id mail = Store.e_id email_info.
Proof.
  destruct (code_comes_from_own_mailbox AsciiTable.python false 7
              CodeProps.store_with_code [] 63903236291 (Some (lit "a@outlook.com")) []
              {| cr_email := lit "a@outlook.com"; cr_code := lit "482917";
                 cr_subject := lit "Your code is 482917";
                 cr_sender := lit "Site <no-reply@site.com>";
                 cr_received_time := Some (lit "2026-01-05 18:58:09") |})
    as (a & e & m & H1 & H2 & H3 & _ & H5 & _).
  - vm_compute. reflexivity.
  - exists a, e, m. auto.
Defined.

(** X26: Where the times of the stored messages of the mailbox are naive
    ones, and one of the messages of the last 30 seconds holds a code,
    the endpoint answers with a code, and the answer is made from a latest
    one of these messages. *)
Theorem latest_code_first (P : Python) (is_admin : bool) (user_id : Z)
    (d : Store.db) (later : list Store.db) (start_time : Z)
    (email_address keyword : str) (email_info : Store.email_row)
    (other : Store.mail_row) :
  email_address <> [] ->
  find_mailbox P (Store.get_all_emails d (if is_admin then None else Some user_id))
    email_address = Some email_info ->
  CodeProps.naive_times P (Store.get_mail_records d (Store.e_id email_info)) ->
  In other (Store.get_mail_records d (Store.e_id email_info)) ->
  recent P (start_time - 30) other ->
  is_Some (extract_code_from_mail P email_address keyword other) ->
  exists result mail,
    get_verification_code P is_admin user_id d later start_time (Some email_address)
      keyword = Found result /\
    In mail (Store.get_mail_records d (Store.e_id email_info)) /\
    recent P (start_time - 30) mail /\
    extract_code_from_mail P email_address keyword mail = Some result /\
    dt_wall (get_mail_time P other) <= dt_wall (get_mail_time P mail).
Proof.
  intros Hne Hfind Hnaive Hother Hrecent Hcode. unfold get_verification_code.
  apply truthy_true in Hne. rewrite Hne. cbn [negb]. rewrite Hfind.
  destruct (CodeProps.sorted_by_time_naive P _ Hnaive) as (sorted & Hsort & _).
  rewrite Hsort.
  pose proof (proj2 (CodeProps.sorted_by_time_in P other _ sorted Hsort) Hother)
    as Hother'.
  destruct (scan_recent P email_address keyword (start_time - 30) sorted) as [r |] eqn:Hs.
  - apply scan_recent_first in Hs as (before & mail & after & Hl & He & Hr & Hall).
    assert (Hm : In mail (Store.get_mail_records d (Store.e_id email_info))).
    { apply (CodeProps.sorted_by_time_in P mail _ sorted Hsort). rewrite Hl.
      apply in_or_app. right. left. reflexivity. }
    exists r, mail. split; [reflexivity |]. split; [exact Hm |].
    split; [exact Hr |]. split; [exact He |].
    rewrite Hl in Hother'.
    apply in_app_or in Hother' as [Hb | [<- | Ha]].
    + rewrite List.Forall_forall in Hall. exfalso. apply (Hall other Hb). auto.
    + lia.
    + pose proof (sorted_by_time_descending P _ sorted Hnaive Hsort) as Hd.
      rewrite Hl in Hd. apply descending_after in Hd.
      rewrite List.Forall_forall in Hd. apply Hd. exact Ha.
  - exfalso.
    destruct Hrecent as (rt & t & Hrt & Hrne & Ht & Hle).
    assert (Hrne' : rt <> []) by (intros ->; discriminate Hrne).
    destruct (CodeProps.scan_recent_complete P email_address keyword (start_time - 30)
                sorted other rt t Hother' Hrt Hrne' Ht Hle Hcode) as [r Hr].
    congruence.
Qed.

(** The mailbox of scenario S1 with an older message that holds a code
    too. *)
Definition older_mail : Store.mail_row :=
  {| Store.m_id := 2; Store.m_email_id := 1; Store.m_subject := lit "Your code is 771204";
     Store.m_sender := lit "Site <no-reply@site.com>";
     Store.m_received_time := Some (lit "2026-01-05 18:58:01");
     Store.m_content := lit "Use 771204 to sign in."; Store.m_folder := lit "INBOX";
     Store.m_has_attachments := 0 |}.

Definition store_with_two_codes : Store.db :=
  {| Store.emails := [PushProps.a_mailbox];
     Store.mail_records := [older_mail; CodeProps.code_mail];
     Store.subscriptions := [] |}.

Lemma latest_code_first_witness :
  exists result mail,
    get_verification_code AsciiTable.python false 7 store_with_two_codes []
      63903236291 (Some (lit "a@outlook.com")) [] = Found result /\
    In mail (Store.get_mail_records store_with_two_codes 1) /\
    dt_wall (get_mail_time AsciiTable.python older_mail)
    <= dt_wall (get_mail_time AsciiTable.python mail).
Proof.
  destruct (latest_code_first AsciiTable.python false 7 store_with_two_codes []
              63903236291 (lit "a@outlook.com") [] PushProps.a_mailbox older_mail)
    as (result & mail & Hres & Hin & _ & _ & Hle).
  - discriminate.
  - reflexivity.
  - constructor; [vm_compute; reflexivity |].
    constructor; [vm_compute; reflexivity | constructor].
  - vm_compute. left. reflexivity.
  - exists (lit "2026-01-05 18:58:01"), 63903236281. vm_compute.
    repeat split; discriminate.
  - eexists. vm_compute. reflexivity.
  - exists result, mail. split; [exact Hres |]. split; [exact Hin | exact Hle].
Defined.

End CodeSourceProps.

(** ** The endpoints that start a pull check *)

Module EndpointProps.
Import App Endpoints.

Lemma batch_check_filter_counts (p : processor) (ids : list Z) :
  (length (batch_check_filter p ids).1 + length (batch_check_filter p ids).2
   = length ids)%nat.
Proof.
  unfold batch_check_filter. cbn [fst snd].
  induction ids as [| i ids IH]; [reflexivity |].
  rewrite !filter_cons.
  destruct (is_email_being_processed p i);
    destruct (decide (true = true)) as [_ | Hn]; try contradiction;
    destruct (decide (true = false)) as [Hd | _]; try discriminate;
    destruct (decide (false = true)) as [Hd' | _]; try discriminate;
    destruct (decide (false = false)) as [_ | Hn']; try contradiction;
    cbn [length]; lia.
Qed.

(** A mailbox of the caller. *)
Definition owned (d : Store.db) (current_user : user) (email_id : Z) : Prop :=
  exists e, e ∈ Store.emails d /\ Store.e_id e = email_id /\
            Store.e_user_id e = u_id current_user.

Lemma requested_ids_owned d current_user email_ids id :
  is_admin current_user = false ->
  id ∈ requested_ids d current_user email_ids -> owned d current_user id.
Proof.
  intros Hadmin. unfold requested_ids. rewrite Hadmin.
  assert (Hown : id ∈ map Store.e_id (Store.get_all_emails d (Some (u_id current_user)))
                 -> owned d current_user id).
  { intros Hin. apply list_elem_of_fmap in Hin as (e & -> & He).
    cbn [Store.get_all_emails] in He. apply list_elem_of_filter in He as [Hu He].
    exists e. auto. }
  destruct email_ids as [| i l]; [exact Hown |].
  intros Hin. apply list_elem_of_filter in Hin as [Hin _]. exact (Hown Hin).
Qed.

(** X28: A batch check hands over only mailboxes that are not being processed
    and, unless the caller is an administrator, only mailboxes of the
    caller; with ids in the request it hands over none but those; and
    the two counts of the answer add up: [skipped] and the ids handed
    over make [total]. *)
Theorem batch_check_hands_over (p : processor) (d : Store.db) (current_user : user)
    (email_ids valid_ids : list Z) (skipped total : Z) :
  batch_check_emails p d current_user email_ids = Started valid_ids skipped total ->
  valid_ids <> [] /\
  skipped + Z.of_nat (length valid_ids) = total /\
  Forall (fun id =>
            is_email_being_processed p id = false /\
            (is_admin current_user = false -> owned d current_user id) /\
            (email_ids <> [] -> id ∈ email_ids)) valid_ids.
Proof.
  unfold batch_check_emails.
  pose proof (requested_ids_owned d current_user email_ids) as Hown.
  assert (Hreq : forall id, email_ids <> [] ->
                            id ∈ requested_ids d current_user email_ids ->
                            id ∈ email_ids).
  { intros id Hne. unfold requested_ids. destruct email_ids as [| i l]; [congruence |].
    destruct (is_admin current_user); [auto |].
    intros Hin. apply list_elem_of_filter in Hin as [_ Hin]. exact Hin. }
  pose proof (batch_check_filter_counts p (requested_ids d current_user email_ids))
    as Hcount.
  destruct (requested_ids d current_user email_ids) as [| i ids] eqn:Hids;
    [discriminate |].
  assert (Hvalid : forall id, id ∈ (batch_check_filter p (i :: ids)).2 ->
                              is_email_being_processed p id = false /\ id ∈ i :: ids).
  { intros id Hin. unfold batch_check_filter in Hin. cbn [snd] in Hin.
    apply list_elem_of_filter in Hin. exact Hin. }
  destruct (batch_check_filter p (i :: ids)) as [processing_ids valid] eqn:Hf.
  cbn [fst snd] in *.
  destruct valid as [| v vs]; [discriminate |].
  intros [= <- <- <-]. split; [discriminate |].
  split; [rewrite <- Nat2Z.inj_add, Hcount; reflexivity |].
  apply List.Forall_forall. intros id Hin. apply list_elem_of_In in Hin.
  destruct (Hvalid id Hin) as [Hidle Hmem]. split; [exact Hidle |]. split.
  - intros Hadmin. exact (Hown id Hadmin Hmem).
  - intros Hne. exact (Hreq id Hne Hmem).
Qed.

Definition idle : processor := {| in_flight := ∅ |}.

Definition owner_of_1 : user := {| u_id := 1; is_admin := false |}.

Lemma batch_check_hands_over_witness :
  [1; 2] <> [] /\ 0 + Z.of_nat (length [1; 2]) = 2.
Proof.
  destruct (batch_check_hands_over idle BulkProps.two_mailboxes owner_of_1 [] [1; 2] 0 2)
    as (H1 & H2 & _); [vm_compute; reflexivity |].
  split; [exact H1 | exact H2].
Defined.

(** X29: The two endpoints differ for an administrator: the single check of a
    mailbox of another user is refused with 403, and the batch check of
    the same mailbox is started. *)
Theorem administrator_checks_differ (p : processor) (d : Store.db)
    (current_user : user) (email_id : Z) (email_info : Store.email_row) :
  is_admin current_user = true ->
  Store.get_email_by_id d email_id = Some email_info ->
  Store.e_user_id email_info <> u_id current_user ->
  is_email_being_processed p email_id = false ->
  check_email p d current_user email_id = Forbidden403 /\
  batch_check_emails p d current_user [email_id] = Started [email_id] 0 1.
Proof.
  intros Hadmin Hget Hother Hidle. split.
  - unfold check_email. rewrite Hget.
    apply Z.eqb_neq in Hother. rewrite Hother. reflexivity.
  - unfold batch_check_emails, requested_ids. rewrite Hadmin.
    unfold batch_check_filter. rewrite !filter_cons, !filter_nil, Hidle.
    destruct (decide (false = true)) as [Hd | _]; [discriminate |].
    destruct (decide (false = false)) as [_ | Hn]; [| contradiction].
    reflexivity.
Qed.

Definition administrator : user := {| u_id := 9; is_admin := true |}.

Lemma administrator_checks_differ_witness :
  check_email idle BulkProps.two_mailboxes administrator 1 = Forbidden403 /\
  batch_check_emails idle BulkProps.two_mailboxes administrator [1] = Started [1] 0 1.
Proof.
  apply (administrator_checks_differ idle BulkProps.two_mailboxes administrator 1
           (BulkProps.outlook_mailbox 1 "a@outlook.com")).
  - reflexivity.
  - reflexivity.
  - cbn. lia.
  - reflexivity.
Defined.

End EndpointProps.

(** ** A pull check of messages the store holds *)

Module CheckAgainProps.
Import GraphApi PyProps StoreProps CheckProps PullProps.

Section WithPython.
Context (P : Python) (net : network).


End WithPython.




End CheckAgainProps.

(** ** [extract_code_from_mail]: the code is text of the mail *)

Module CodeTextProps.
Import App PyProps Re.

(** [w] occurs in [text]. *)
Definition occurs_in (w text : str) : Prop := exists a b, text = a ++ w ++ b.

Lemma occurs_in_nil text : occurs_in [] text.
Proof. exists [], text. reflexivity. Qed.

Section WithPython.
Context (P : Python).

Lemma star_within {R} k : forall s prev (cont : kont (R := R)) x,
  star P k prev s cont = Some x ->
  exists pv pre rest, s = pre ++ rest /\ cont pv rest = Some x.
Proof.
  induction s as [| c s IH]; intros prev cont x; cbn [star].
  - intros H. exists prev, [], []. auto.
  - assert (Hhere : cont prev (c :: s) = Some x ->
                    exists pv pre rest, c :: s = pre ++ rest /\ cont pv rest = Some x).
    { intros H. exists prev, [], (c :: s). auto. }
    destruct (in_cls P k c); [| exact Hhere].
    destruct (star P k (Some c) s cont) as [y |] eqn:Hs; [| exact Hhere].
    intros [= <-]. destruct (IH _ _ _ Hs) as (pv & pre & rest & -> & H).
    exists pv, (c :: pre), rest. auto.
Qed.

(** Whatever way a match takes, the continuation is run further on in the
    text, with a capture that occurs in the text. *)
Lemma rmatch_within (r : re) : forall (R : Type) prev s cap
    (cont : option char -> str -> option str -> option R) x text a,
  text = a ++ s -> (forall w, cap = Some w -> occurs_in w text) ->
  rmatch P r prev s cap cont = Some x ->
  exists pv pre rest cap',
    s = pre ++ rest /\ (forall w, cap' = Some w -> occurs_in w text) /\
    cont pv rest cap' = Some x.
Proof.
  induction r as [p | k | k | lo hi k | | r IHr | r1 IH1 r2 IH2 | r1 IH1 r2 IH2];
    intros R prev s cap cont x text a Htext Hcap; cbn [rmatch].
  - destruct s as [| c s]; [discriminate |]. destruct (u_ci_eq P p c); [| discriminate].
    intros H. exists (Some c), [c], s, cap. auto.
  - intros H. apply star_within in H as (pv & pre & rest & -> & H).
    exists pv, pre, rest, cap. auto.
  - destruct s as [| c s]; [discriminate |]. destruct (in_cls P k c); [| discriminate].
    intros H. apply star_within in H as (pv & pre & rest & -> & H).
    exists pv, (c :: pre), rest, cap. auto.
  - intros H. apply ReProps.rep_inv in H as (pre & rest & pv & -> & _ & _ & H).
    exists pv, pre, rest, cap. auto.
  - destruct (boundary P prev s); [| discriminate].
    intros H. exists prev, [], s, cap. auto.
  - intros H.
    destruct (IHr _ _ _ _ _ _ text a Htext Hcap H) as (pv & pre & rest & cap' & -> & _ & Hk).
    rewrite ReProps.take_consumed in Hk.
    exists pv, pre, rest, (Some pre). split; [reflexivity |]. split; [| exact Hk].
    intros w [= <-]. exists a, rest. exact Htext.
  - intros H.
    destruct (IH1 _ _ _ _ _ _ text a Htext Hcap H)
      as (pv & pre & rest & cap1 & -> & Hcap1 & H1).
    assert (Htext' : text = (a ++ pre) ++ rest) by (rewrite <- app_assoc; exact Htext).
    destruct (IH2 _ _ _ _ _ _ text (a ++ pre) Htext' Hcap1 H1)
      as (pv' & pre' & rest' & cap2 & -> & Hcap2 & H2).
    exists pv', (pre ++ pre'), rest', cap2. rewrite <- app_assoc. auto.
  - destruct (rmatch P r1 prev s cap cont) as [y |] eqn:H1.
    + intros [= <-]. exact (IH1 _ _ _ _ _ _ text a Htext Hcap H1).
    + intros H. exact (IH2 _ _ _ _ _ _ text a Htext Hcap H).
Qed.

Lemma match_here_within r prev s g pv rest text a :
  text = a ++ s -> match_here P r prev s = Some (g, pv, rest) ->
  occurs_in g text /\ exists pre, s = pre ++ rest.
Proof.
  intros Htext H. unfold match_here in H.
  apply (rmatch_within r _ prev s None _ _ text a Htext) in H
    as (pv' & pre & rest' & cap' & Hs & Hcap & H); [| discriminate].
  injection H as <- _ <-. split; [| exists pre; exact Hs].
  destruct cap' as [w |]; [apply Hcap; reflexivity | apply occurs_in_nil].
Qed.

(** Every element of [findall] occurs in the text. *)
Lemma findall_from_within r text : forall fuel prev s a,
  text = a ++ s -> Forall (fun g => occurs_in g text) (findall_from P fuel r prev s).
Proof.
  induction fuel as [| fuel IH]; intros prev s a Htext; cbn [findall_from];
    [constructor |].
  assert (Hstep : Forall (fun g => occurs_in g text)
                    match s with
                    | [] => []
                    | c :: s' => findall_from P fuel r (Some c) s'
                    end).
  { destruct s as [| c s']; [constructor |].
    apply (IH _ _ (a ++ [c])). rewrite <- app_assoc. exact Htext. }
  destruct (match_here P r prev s) as [[[g pv] rest] |] eqn:Hm; [| exact Hstep].
  destruct (match_here_within _ _ _ _ _ _ _ _ Htext Hm) as [Hg [pre Hs]].
  constructor; [exact Hg |].
  destruct (length rest <? length s)%nat; [| exact Hstep].
  apply (IH _ _ (a ++ pre)). rewrite <- app_assoc, <- Hs. exact Htext.
Qed.

Lemma first_code_within patterns text code :
  first_code P patterns text = Some code -> occurs_in code text.
Proof.
  induction patterns as [| p rest IH]; cbn [first_code]; [discriminate |].
  pose proof (findall_from_within p text (S (length text)) None text [] eq_refl) as Hall.
  fold (findall P p text) in Hall.
  destruct (findall P p text) as [| g gs]; [exact IH |].
  destruct (code_ok P g); [| exact IH].
  intros [= <-]. inversion Hall. assumption.
Qed.

End WithPython.

(** X27: The code [extract_code_from_mail] answers with is text of the mail: it
    occurs in the subject, a blank and the content put together; the mail
    has passed the keyword filter, and subject, sender and time of the
    answer are those of the mail. *)
Theorem code_occurs_in_the_mail (P : Python) (email_address keyword : str)
    (mail : Store.mail_row) (result : code_result) :
  extract_code_from_mail P email_address keyword mail = Some result ->
  occurs_in (cr_code result)
    (Store.m_subject mail ++ lit " " ++ Store.m_content mail) /\
  keyword_filter P keyword (Store.m_subject mail) (Store.m_content mail) = true /\
  cr_email result = email_address /\
  cr_subject result = Store.m_subject mail /\
  cr_sender result = Store.m_sender mail /\
  cr_received_time result = Store.m_received_time mail.
Proof.
  unfold extract_code_from_mail.
  destruct (keyword_filter P keyword _ _); [| discriminate].
  destruct (first_code P code_patterns (text_to_search mail)) as [code |] eqn:Hc;
    [| discriminate].
  intros [= <-]. cbn. repeat split.
  exact (first_code_within P _ _ _ Hc).
Qed.

Lemma code_occurs_in_the_mail_witness :
  occurs_in (lit "482917") (lit "Your code is 482917" ++ lit " "
                            ++ lit "Use 482917 to sign in.").
Proof.
  refine (proj1 (code_occurs_in_the_mail AsciiTable.python (lit "a@outlook.com") []
                   CodeProps.code_mail
                   {| cr_email := lit "a@outlook.com"; cr_code := lit "482917";
                      cr_subject := lit "Your code is 482917";
                      cr_sender := lit "Site <no-reply@site.com>";
                      cr_received_time := Some (lit "2026-01-05 18:58:09") |} _)).
  vm_compute. reflexivity.
Defined.

End CodeTextProps.

(** ** [get_verification_code]: a code that comes in during the wait *)

Module CodeWaitProps.
Import App PyProps.

Section WithPython.
Context (P : Python).

(** A mail the second loop takes: its time is read as ISO text and is a
    naive one, not more than 10 seconds before the call. *)
Definition fresh (start_time : Z) (mail : Store.mail_row) : Prop :=
  exists received_time mail_time,
    Store.m_received_time mail = Some received_time /\ truthy received_time = true /\
    parse_iso P received_time = Some (naive mail_time) /\
    start_time - 10 <= mail_time.

Lemma scan_new_complete email_address keyword start_time mails mail :
  In mail mails -> fresh start_time mail ->
  is_Some (extract_code_from_mail P email_address keyword mail) ->
  is_Some (scan_new P email_address keyword start_time mails).
Proof.
  intros Hin (rt & t & Hrt & Hne & Ht & Hle) [r Hr].
  induction mails as [| m rest IH]; [destruct Hin |]. cbn [scan_new].
  destruct Hin as [-> | Hin].
  - rewrite Hrt, Hne, Ht. unfold dt_ge_naive. cbn [naive dt_utcoffset dt_wall].
    apply Z.leb_le in Hle. rewrite Hle, Hr. eauto.
  - destruct (IH Hin) as [x Hx]. rewrite Hx.
    destruct (Store.m_received_time m) as [rt' |]; [| eauto].
    destruct (truthy rt'); [| eauto].
    destruct (parse_iso P rt') as [t' |]; [| eauto].
    destruct (dt_ge_naive t' (start_time - 10)) as [[|] |]; [| eauto | eauto].
    destruct (extract_code_from_mail P email_address keyword m); eauto.
Qed.

(** The first reading of the store that is longer than every reading
    before it is scanned. *)
Lemma wait_loop_complete email_address keyword start_time poll after mail :
  In mail poll -> fresh start_time mail ->
  is_Some (extract_code_from_mail P email_address keyword mail) ->
  forall before count,
    (count < length poll)%nat ->
    Forall (fun q => (length q < length poll)%nat) before ->
    is_Some (wait_loop P email_address keyword start_time count
               (before ++ poll :: after)).
Proof.
  intros Hin Hfresh Hcode. induction before as [| q before IH]; intros count Hc Hall.
  - cbn [app wait_loop]. apply Nat.ltb_lt in Hc. rewrite Hc.
    destruct (scan_new_complete email_address keyword start_time poll mail
                Hin Hfresh Hcode) as [r ->].
    eauto.
  - inversion Hall as [| q0 l Hq Hrest]; subst. cbn [app wait_loop].
    destruct (count <? length q)%nat.
    + destruct (scan_new P email_address keyword start_time q); [eauto |].
      apply IH; assumption.
    + apply IH; assumption.
Qed.

End WithPython.

(** X30: a code that comes in during the wait is found: when the times of
    the messages the mailbox holds at the call are naive ones, a later
    reading of the store holds more messages of the mailbox than the
    store at the call and than every reading before it, and one of them
    has a naive time not older than 10 seconds before the call, passes
    the keyword filter and holds a code, the endpoint answers with a
    code. *)
Theorem code_found_while_waiting (P : Python) (is_admin : bool) (user_id : Z)
    (d : Store.db) (before after : list Store.db) (d' : Store.db) (start_time : Z)
    (email_address keyword : str) (email_info : Store.email_row)
    (mail : Store.mail_row) :
  email_address <> [] ->
  find_mailbox P (Store.get_all_emails d (if is_admin then None else Some user_id))
    email_address = Some email_info ->
  let mails_of := fun s => Store.get_mail_records s (Store.e_id email_info) in
  CodeProps.naive_times P (mails_of d) ->
  (length (mails_of d) < length (mails_of d'))%nat ->
  Forall (fun s => (length (mails_of s) < length (mails_of d'))%nat) before ->
  In mail (mails_of d') ->
  fresh P start_time mail ->
  is_Some (extract_code_from_mail P email_address keyword mail) ->
  exists result,
    get_verification_code P is_admin user_id d (before ++ d' :: after) start_time
      (Some email_address) keyword = Found result.
Proof.
  intros Hne Hfind mails_of Hnaive Hgrow Hbefore Hin Hfresh Hcode.
  unfold get_verification_code. apply truthy_true in Hne. rewrite Hne. cbn [negb].
  rewrite Hfind.
  destruct (CodeProps.sorted_by_time_naive P _ Hnaive) as (sorted & Hsort & _).
  subst mails_of. cbv beta in *. rewrite Hsort.
  set (mails_of := fun s => Store.get_mail_records s (Store.e_id email_info)) in *.
  destruct (scan_recent P email_address keyword (start_time - 30) _) as [r |];
    [eauto |].
  rewrite map_app. cbn [map].
  assert (Hall : Forall (fun q => (length q < length (mails_of d'))%nat)
                   (map mails_of before)).
  { apply List.Forall_map. exact Hbefore. }
  pose proof (wait_loop_complete P email_address keyword start_time (mails_of d')
                (map mails_of after) mail Hin Hfresh Hcode (map mails_of before)
                (length (mails_of d)) Hgrow Hall) as [r Hr].
  change (length (Store.get_mail_records d (Store.e_id email_info)))
    with (length (mails_of d)).
  rewrite Hr. eauto.
Qed.

(** The mailbox of the scenario before its message has come in. *)
Definition store_before_code : Store.db :=
  {| Store.emails := [PushProps.a_mailbox]; Store.mail_records := [];
     Store.subscriptions := [] |}.

Lemma code_found_while_waiting_witness :
  exists result,
    get_verification_code AsciiTable.python false 7 store_before_code
      ([] ++ CodeProps.store_with_code :: []) 63903236285
      (Some (lit "a@outlook.com")) [] = Found result.
Proof.
  apply (code_found_while_waiting AsciiTable.python false 7 store_before_code [] []
           CodeProps.store_with_code 63903236285 (lit "a@outlook.com") []
           PushProps.a_mailbox CodeProps.code_mail).
  - discriminate.
  - reflexivity.
  - constructor.
  - vm_compute. lia.
  - constructor.
  - vm_compute. left. reflexivity.
  - exists (lit "2026-01-05 18:58:09"), 63903236289. vm_compute.
    repeat split; discriminate.
  - eexists. vm_compute. reflexivity.
Defined.

End CodeWaitProps.
